(** * trading-dashboard: the time-series cache and derived-metrics pipeline

    A shallow embedding of the core of [src/web_app.py]: the derived-column
    computation of [load_csv_data_from_path], the cache refresh of
    [get_bucket_data] and [refresh_data_cache], the resampler
    [get_resampled_data], the incremental endpoint [get_bucket_data_since]
    and the per-symbol summary of [get_symbols_summary].

    Numbers are IEEE-754 binary64 values, as pandas and numpy hold them:
    the standard library's [spec_float] with [prec = 53] and [emax = 1024],
    so NaN, the infinities and rounding behave as they do in the program.
    A DataFrame is a row count with a finite map from column names to typed
    columns; the module-level dictionaries [DATA_CACHE], [LAST_MODIFIED]
    and [CACHE_KEY_LOCKS] are finite maps keyed by strings. *)

From Stdlib Require Import ZArith SpecFloat Lia Ascii.
From stdpp Require Import gmap strings list fin_maps sorting.

Set Default Proof Using "Type".

(** ** binary64 arithmetic *)

Module F64.

Definition prec : Z := 53.
Definition emax : Z := 1024.

Abbreviation float := spec_float.

Definition nan : float := S754_nan.
Definition zero : float := S754_zero false.
Definition inf : float := S754_infinity false.

(** A Python [int] literal used where a float is expected. *)
Definition of_Z (z : Z) : float := binary_normalize prec emax z 0 false.

Definition one : float := Eval vm_compute in of_Z 1.
Definition hundred : float := Eval vm_compute in of_Z 100.

Definition add : float -> float -> float := SFadd prec emax.
Definition sub : float -> float -> float := SFsub prec emax.
Definition mul : float -> float -> float := SFmul prec emax.
Definition div : float -> float -> float := SFdiv prec emax.
Definition abs : float -> float := SFabs.
Definition neg : float -> float := SFopp.

Global Arguments add : simpl never.
Global Arguments sub : simpl never.
Global Arguments mul : simpl never.
Global Arguments div : simpl never.

Definition isnan (x : float) : bool :=
  match x with S754_nan => true | _ => false end.
Definition isinf (x : float) : bool :=
  match x with S754_infinity _ => true | _ => false end.

(** The six comparisons; every one of them but [!=] is false on NaN. *)
Definition eqb (x y : float) : bool := SFeqb x y.
Definition neb (x y : float) : bool := negb (SFeqb x y).
Definition ltb (x y : float) : bool := SFltb x y.
Definition leb (x y : float) : bool := SFleb x y.
Definition gtb (x y : float) : bool :=
  match SFcompare x y with Some Gt => true | _ => false end.
Definition geb (x y : float) : bool :=
  match SFcompare x y with Some (Gt | Eq) => true | _ => false end.

(** The literals of the source: [0.99] and [0.05] are the doubles nearest
    to 99/100 and 5/100, which correctly rounded division yields. *)
Definition lit_0_99 : float := Eval vm_compute in div (of_Z 99) (of_Z 100).
Definition lit_0_05 : float := Eval vm_compute in div (of_Z 5) (of_Z 100).

End F64.

Abbreviation float := F64.float.

(** ** pandas Series operations on a float64 column

    Each definition follows the pandas operation the source calls, on a
    column held as a list in row order. *)

Module Series.

(** [s.fillna(v)] *)
Definition fillna (v : float) (s : list float) : list float :=
  (fun x => if F64.isnan x then v else x) <$> s.

(** [s.shift(1)]: every value moves one row down, the first row is NaN. *)
Definition shift (s : list float) : list float :=
  take (length s) (F64.nan :: s).

(** Forward fill, which [pct_change] applies before it divides. *)
Fixpoint ffill_from (last : float) (s : list float) : list float :=
  match s with
  | [] => []
  | x :: s' =>
      let v := if F64.isnan x then last else x in
      v :: ffill_from v s'
  end.
Definition ffill : list float -> list float := ffill_from F64.nan.

(** [s.pct_change()]: [data / data.shift(1) - 1] on the padded data. *)
Definition pct_change (s : list float) : list float :=
  let data := ffill s in
  zip_with (fun x p => F64.sub (F64.div x p) F64.one) data (shift data).

(** [s.diff()]: [s - s.shift(1)]. *)
Definition diff (s : list float) : list float :=
  zip_with F64.sub s (shift s).

(** [a * b], [a - b] on two columns of one frame. *)
Definition mul (a b : list float) : list float := zip_with F64.mul a b.
Definition sub (a b : list float) : list float := zip_with F64.sub a b.

(** [1 + s], [s - 1], [c * s] with a scalar. *)
Definition radd (c : float) (s : list float) : list float := F64.add c <$> s.
Definition sub_scalar (s : list float) (c : float) : list float :=
  (fun x => F64.sub x c) <$> s.
Definition rmul (c : float) (s : list float) : list float := F64.mul c <$> s.

(** [s.replace([np.inf, -np.inf], v)] *)
Definition replace_inf (v : float) (s : list float) : list float :=
  (fun x => if F64.isinf x then v else x) <$> s.

(** [s.abs()] and [s != c] *)
Definition abs (s : list float) : list float := F64.abs <$> s.
Definition ne (s : list float) (c : float) : list bool :=
  (fun x => F64.neb x c) <$> s.

(** [s.cumprod()] with the default [skipna=True]: a NaN entry counts as 1
    in the running product and is NaN in the result. The first product
    is the first value itself, as [np.cumprod] has it. *)
Fixpoint cumprod_from (acc : option float) (s : list float) : list float :=
  match s with
  | [] => []
  | x :: s' =>
      let v := if F64.isnan x then F64.one else x in
      let p := match acc with None => v | Some a => F64.mul a v end in
      (if F64.isnan x then F64.nan else p) :: cumprod_from (Some p) s'
  end.
Definition cumprod : list float -> list float := cumprod_from None.

(** [s.clip(lower, upper)]: with [mask = s.isna()], the value is kept
    where [mask | (s >= lower)] and replaced by [lower] elsewhere, then
    kept where [mask | (s <= upper)] and replaced by [upper] elsewhere. *)
Definition clip1 (lower upper x : float) : float :=
  let r := if F64.isnan x || F64.geb x lower then x else lower in
  if F64.isnan x || F64.leb x upper then r else upper.
Definition clip (lower upper : float) (s : list float) : list float :=
  clip1 lower upper <$> s.

(** [df.loc[mask, col] = values.loc[mask]]: rows where the mask holds
    take the new value, the others keep theirs. *)
Fixpoint loc_assign (mask : list bool) (old new : list float) : list float :=
  match mask, old, new with
  | m :: mask', o :: old', n :: new' =>
      (if m then n else o) :: loc_assign mask' old' new'
  | _, _, _ => old
  end.

(** [df[mask]] on one column. *)
Fixpoint select {A} (mask : list bool) (s : list A) : list A :=
  match mask, s with
  | m :: mask', x :: s' =>
      if m then x :: select mask' s' else select mask' s'
  | _, _ => []
  end.

End Series.

(** ** DataFrames *)

(** A column is a float64, a boolean, a [datetime64[ns]] or a calendar-date
    column; a timestamp is its count of nanoseconds since the epoch, a date
    its count of days. Numeric columns are held as float64. *)
Inductive column :=
  | FloatCol (xs : list float)
  | BoolCol (bs : list bool)
  | TimeCol (ts : list Z)
  | DateCol (ds : list Z).

Definition column_length (c : column) : nat :=
  match c with
  | FloatCol xs => length xs
  | BoolCol bs => length bs
  | TimeCol ts => length ts
  | DateCol ds => length ds
  end.

Record DataFrame := mkDataFrame {
  df_len : nat;                       (* len(df), the length of the index *)
  df_columns : gmap string column     (* df.columns with their values *)
}.

(** [pd.DataFrame()] *)
Definition empty_frame : DataFrame := mkDataFrame 0 ∅.

(** [df.empty]: no rows or no columns. *)
Definition df_empty (df : DataFrame) : bool :=
  (df_len df =? 0)%nat || bool_decide (df_columns df = ∅).

(** [col in df.columns] *)
Definition has_column (df : DataFrame) (name : string) : bool :=
  bool_decide (is_Some (df_columns df !! name)).

(** [df[name]] read as a float column; [None] is the exception raised when
    the column is missing or is not numeric. *)
Definition float_column (df : DataFrame) (name : string) : option (list float) :=
  match df_columns df !! name with
  | Some (FloatCol xs) => Some xs
  | _ => None
  end.

Definition time_column (df : DataFrame) (name : string) : option (list Z) :=
  match df_columns df !! name with
  | Some (TimeCol ts) => Some ts
  | _ => None
  end.

(** [df[name] = values] *)
Definition set_column (name : string) (c : column) (df : DataFrame) : DataFrame :=
  mkDataFrame (df_len df) (<[name := c]> (df_columns df)).

(** Every column has one value per row of the index. *)
Definition well_formed (df : DataFrame) : Prop :=
  map_Forall (fun _ c => column_length c = df_len df) (df_columns df).

(** An optional column is missing or numeric. *)
Definition numeric_or_absent (df : DataFrame) (name : string) : Prop :=
  df_columns df !! name = None ∨ ∃ xs, df_columns df !! name = Some (FloatCol xs).

(** ** The Metrics Engine: lines 171-223 of [load_csv_data_from_path] *)

(** The bounds of [clip(lower=-0.99, upper=1.0)]. *)
Definition clip_lower : float := Eval vm_compute in F64.neg F64.lit_0_99.
Definition clip_upper : float := F64.one.

(** A value inside the cap, by the comparisons [clip] itself makes. *)
Definition in_cap (y : float) : Prop :=
  F64.geb y clip_lower = true ∧ F64.leb y clip_upper = true.

(** [(1 + s).cumprod() - 1], clipped, then [fillna(0)]. *)
Definition capped_cumulative (s : list float) : list float :=
  Series.fillna F64.zero
    (Series.clip clip_lower clip_upper
       (Series.sub_scalar (Series.cumprod (Series.radd F64.one s)) F64.one)).

(** The columns line 174 to line 221 assign, in the order of the source. *)
Record derived := mkDerived {
  returns : list float;
  position_lag : list float;
  strategy_returns : list float;
  cumulative_return : list float;
  position_change : list float;
  is_trade : list bool;
  position_change_abs : list float;
  fee_multiplier : list float;
  strategy_returns_after_fees : list float;
  cumulative_return_after_fees : list float;
  transaction_cost : list float
}.

Definition derive (fee_percent : float) (close position : list float) : derived :=
  let returns := Series.fillna F64.zero (Series.pct_change close) in
  let position_lag := Series.fillna F64.zero (Series.shift position) in
  let strategy_returns :=
    Series.fillna F64.zero
      (Series.replace_inf F64.zero (Series.mul returns position_lag)) in
  let cumulative_return := capped_cumulative strategy_returns in
  let position_change := Series.diff position in
  let is_trade := Series.ne position_change F64.zero in
  let position_change_abs := Series.abs position_change in
  let fee_multiplier :=
    Series.loc_assign is_trade (replicate (length close) F64.zero)
      (Series.rmul (F64.div fee_percent F64.hundred) position_change_abs) in
  let strategy_returns_after_fees := Series.sub strategy_returns fee_multiplier in
  let cumulative_return_after_fees := capped_cumulative strategy_returns_after_fees in
  mkDerived returns position_lag strategy_returns cumulative_return
    position_change is_trade position_change_abs fee_multiplier
    strategy_returns_after_fees cumulative_return_after_fees fee_multiplier.

(** The guard of line 172. *)
Definition needs_derived (df : DataFrame) : bool :=
  negb (has_column df "cumulative_return")
  && has_column df "position" && has_column df "close".

(** Lines 171-223 on the frame that line 169 has sorted. [None] is an
    exception inside the block, which the caller's [except] turns into an
    empty frame. [fee_percent] is the value read from [config.json]. *)
Definition calculate_cumulative_returns
    (fee_percent : float) (df : DataFrame) : option DataFrame :=
  if needs_derived df then
    close ← float_column df "close";
    position ← float_column df "position";
    let d := derive fee_percent close position in
    Some
      (set_column "transaction_cost" (FloatCol (transaction_cost d))
      (set_column "cumulative_return_after_fees" (FloatCol (cumulative_return_after_fees d))
      (set_column "strategy_returns_after_fees" (FloatCol (strategy_returns_after_fees d))
      (set_column "fee_multiplier" (FloatCol (fee_multiplier d))
      (set_column "position_change_abs" (FloatCol (position_change_abs d))
      (set_column "is_trade" (BoolCol (is_trade d))
      (set_column "position_change" (FloatCol (position_change d))
      (set_column "cumulative_return" (FloatCol (cumulative_return d))
      (set_column "strategy_returns" (FloatCol (strategy_returns d))
      (set_column "position_lag" (FloatCol (position_lag d))
      (set_column "returns" (FloatCol (returns d)) df)))))))))))
  else Some df.

(** ** The Series Loader around the Metrics Engine *)

(** What the program reads from disk. Parsing is outside the core, so the
    file system hands over its outcome:
    - [fs_read_csv path] is the frame [load_csv_data_from_path] holds after
      line 169 (columns selected and renamed, timestamps parsed, rows
      sorted by timestamp), [None] when the file is missing or one of the
      lines up to 169 raises;
    - [fs_fee_percent] is [transaction_fee_percent] of [config.json],
      [None] when the file or the key is missing;
    - [fs_getmtime path] is [os.path.getmtime], [None] when it raises;
    - [fs_listdir path] is [os.listdir], [None] when the directory does not
      exist;
    - [fs_hedge_symbol bucket_path ts_id] is the [hedge_symbol] the
      metadata file [TS-<ts_id>.json] yields, [None] when the file is
      missing, unreadable or has no such entry. *)
Record FileSystem := mkFileSystem {
  fs_read_csv : string → option DataFrame;
  fs_fee_percent : option float;
  fs_getmtime : string → option float;
  fs_listdir : string → option (list string);
  fs_hedge_symbol : string → string → option string
}.

(** Lines 195-200: the configured fee, 0.05 by default. *)
Definition fee_percent_of (fs : FileSystem) : float :=
  default F64.lit_0_05 (fs_fee_percent fs).

Definition load_csv_data_from_path (fs : FileSystem) (csv_path : string) : DataFrame :=
  match fs_read_csv fs csv_path with
  | None => empty_frame
  | Some df => default empty_frame (calculate_cumulative_returns (fee_percent_of fs) df)
  end.

(** ** Strings and file names *)

Module Str.

(** [s.startswith(p)], [s.endswith(p)] *)
Definition startswith (s p : string) : bool := String.prefix p s.
Definition endswith (s p : string) : bool :=
  String.prefix (String.rev p) (String.rev s).

(** A digit 0 to 9. The strings of the model are ASCII texts; on such
    texts [\d] and [str.isdigit] know no other digit. A name with a
    decimal digit of another script, which Python would also take for a
    digit, is outside the model. *)
Definition is_digit (c : Ascii.ascii) : bool :=
  match Ascii.is_nat c with Some _ => true | None => false end.

Fixpoint all_digits (s : string) : bool :=
  match s with
  | EmptyString => true
  | String c s' => is_digit c && all_digits s'
  end.

(** [s.isdigit()]: at least one character, and digits only. *)
Definition isdigit (s : string) : bool :=
  match s with
  | EmptyString => false
  | _ => all_digits s
  end.

(** The longest prefix of digits, and what follows it. *)
Fixpoint span_digits (s : string) : string * string :=
  match s with
  | EmptyString => (EmptyString, EmptyString)
  | String c s' =>
      if is_digit c
      then let '(d, r) := span_digits s' in (String c d, r)
      else (EmptyString, s)
  end.

(** [s[n:]] *)
Fixpoint drop (n : nat) (s : string) : string :=
  match n, s with
  | O, _ => s
  | S n', String _ s' => drop n' s'
  | S _, EmptyString => EmptyString
  end.

Definition strip_prefix (p s : string) : option string :=
  if String.prefix p s then Some (drop (String.length p) s) else None.

(** [s.split(c, 1)] when [c] occurs in [s]: the text before the first [c]
    and the text after it. *)
Fixpoint split_once (c : Ascii.ascii) (s : string) : option (string * string) :=
  match s with
  | EmptyString => None
  | String a s' =>
      if bool_decide (a = c) then Some (EmptyString, s')
      else '(l, r) ← split_once c s'; Some (String a l, r)
  end.

(** [c in s] *)
Definition contains (c : Ascii.ascii) (s : string) : bool :=
  match split_once c s with Some _ => true | None => false end.

End Str.

(** [LOCAL_ROOT] and [os.path.join] on a relative second component. *)
Definition LOCAL_ROOT : string := "./buckets".
Definition path_join (a b : string) : string := a +:+ "/" +:+ b.

(** The tail [.*\.csv] of the file-name pattern: [.csv] occurs, with no
    newline before it. *)
Fixpoint has_dot_csv (s : string) : bool :=
  String.prefix ".csv" s ||
  match s with
  | EmptyString => false
  | String c s' => if bool_decide (c = "010"%char) then false else has_dot_csv s'
  end.

(** [pattern.match(filename)] for
    [STGC2OGTrim2Model_TS-(\d+)_T-(\d+)_.*\.csv], with its two groups,
    on a file name of ASCII characters. A greedy [\d+] before a literal
    underscore takes every digit. *)
Definition pattern_match (filename : string) : option (string * string) :=
  rest ← Str.strip_prefix "STGC2OGTrim2Model_TS-" filename;
  let '(ts_id, rest) := Str.span_digits rest in
  if bool_decide (ts_id = "") then None else
  rest ← Str.strip_prefix "_T-" rest;
  let '(t_id, rest) := Str.span_digits rest in
  if bool_decide (t_id = "") then None else
  rest ← Str.strip_prefix "_" rest;
  if has_dot_csv rest then Some (ts_id, t_id) else None.

(** [filename.endswith('.csv') and not filename.endswith('_PH.csv')] *)
Definition is_data_csv (filename : string) : bool :=
  Str.endswith filename ".csv" && negb (Str.endswith filename "_PH.csv").

(** A usable [hedge_symbol]: neither [None] nor the empty string. *)
Definition truthy (h : option string) : option string :=
  match h with
  | Some EmptyString | None => None
  | Some s => Some s
  end.

(** [parts[0] if len(parts) >= 2 else hedge_symbol] for
    [parts = hedge_symbol.split('-')] *)
Definition base_symbol (hedge_symbol : string) : string :=
  match Str.split_once "-"%char hedge_symbol with
  | Some (base, _) => base
  | None => hedge_symbol
  end.

(** ** The cache *)

(** The module-level state. [loads] records, in call order, the paths
    handed to [load_csv_data_from_path]; the wall-clock [last_data_update]
    is left out. *)
Record Cache := mkCache {
  DATA_CACHE : gmap string DataFrame;
  LAST_MODIFIED : gmap string float;
  data_version : Z;
  loads : list string
}.

Definition record_load (csv_path : string) (st : Cache) : Cache :=
  mkCache (DATA_CACHE st) (LAST_MODIFIED st) (data_version st)
    (loads st ++ [csv_path]).

Definition set_data (cache_key : string) (df : DataFrame) (st : Cache) : Cache :=
  mkCache (<[cache_key := df]> (DATA_CACHE st)) (LAST_MODIFIED st)
    (data_version st) (loads st).

Definition set_modified (cache_key : string) (mtime : float) (st : Cache) : Cache :=
  mkCache (DATA_CACHE st) (<[cache_key := mtime]> (LAST_MODIFIED st))
    (data_version st) (loads st).

Definition bump_version (st : Cache) : Cache :=
  mkCache (DATA_CACHE st) (LAST_MODIFIED st) (data_version st + 1) (loads st).

(** What a handler answers: a payload, or an error with its status. *)
Inductive http (A : Type) :=
  | Ok200 (payload : A)
  | NotFound404 (error : string)
  | ServerError500 (error : string).
Arguments Ok200 {A} payload.
Arguments NotFound404 {A} error.
Arguments ServerError500 {A} error.

(** ** [get_bucket_data], up to the frame it serves (lines 857-988) *)

(** The symbol name [get_bucket_data] compares with a legacy symbol. *)
Definition symbol_name_of (fs : FileSystem) (bucket_path ts_id : string) : string :=
  match truthy (fs_hedge_symbol fs bucket_path ts_id) with
  | Some hedge_symbol => base_symbol hedge_symbol
  | None => "Unknown-" +:+ ts_id
  end.

(** The loop of lines 904-939: the first data file whose id, or whose
    symbol name, is the one asked for. *)
Definition find_csv_file (fs : FileSystem) (bucket_path symbol : string)
    (filenames : list string) : option string :=
  let is_ts_id := Str.startswith symbol "TS-" || Str.isdigit symbol in
  let target_ts_id :=
    if Str.startswith symbol "TS-" then Some (Str.drop 3 symbol)
    else if Str.isdigit symbol then Some symbol else None in
  List.find
    (fun filename =>
       is_data_csv filename &&
       match pattern_match filename with
       | Some (ts_id, _) =>
           if is_ts_id then bool_decide (Some ts_id = target_ts_id)
           else bool_decide (symbol_name_of fs bucket_path ts_id = symbol)
       | None => false
       end)
    filenames.

(** Lines 946-960. *)
Definition bucket_cache_key (bucket symbol csv_file : string) : string :=
  if Str.startswith symbol "TS-" || Str.isdigit symbol then
    if Str.isdigit symbol then bucket +:+ "/TS-" +:+ symbol
    else bucket +:+ "/" +:+ symbol
  else
    match pattern_match csv_file with
    | Some (found_ts_id, _) => bucket +:+ "/TS-" +:+ found_ts_id
    | None => bucket +:+ "/" +:+ symbol
    end.

(** Line 988: [df = DATA_CACHE[cache_key]]. *)
Definition serve (cache_key : string) (st : Cache) : http DataFrame * Cache :=
  match DATA_CACHE st !! cache_key with
  | Some df => (Ok200 df, st)
  | None => (ServerError500 "KeyError", st)
  end.

(** Lines 966-988, the section run under the per-key lock. An exception
    of [os.path.getmtime] leaves the handler and is answered with 500. *)
Definition refresh_if_stale (fs : FileSystem) (cache_key csv_path : string)
    (st : Cache) : http DataFrame * Cache :=
  match DATA_CACHE st !! cache_key, LAST_MODIFIED st !! cache_key with
  | Some _, Some stored =>
      match fs_getmtime fs csv_path with
      | None => (ServerError500 "getmtime", st)
      | Some current_mtime =>
          if F64.gtb current_mtime stored then
            let df := load_csv_data_from_path fs csv_path in
            let st := record_load csv_path st in
            if negb (df_empty df) then
              serve cache_key
                (bump_version (set_modified cache_key current_mtime
                   (set_data cache_key df st)))
            else serve cache_key st
          else serve cache_key st
      end
  | _, _ =>
      let df := load_csv_data_from_path fs csv_path in
      let st := record_load csv_path st in
      if df_empty df then (ServerError500 "Failed to load data", st)
      else
        let st := set_data cache_key df st in
        match fs_getmtime fs csv_path with
        | None => (ServerError500 "getmtime", st)
        | Some mtime =>
            serve cache_key (bump_version (set_modified cache_key mtime st))
        end
  end.

Definition get_bucket_data (fs : FileSystem) (bucket symbol : string)
    (st : Cache) : http DataFrame * Cache :=
  let bucket_path := path_join LOCAL_ROOT bucket in
  match fs_listdir fs bucket_path with
  | None => (NotFound404 "Bucket not found", st)
  | Some filenames =>
      match find_csv_file fs bucket_path symbol filenames with
      | None =>
          (NotFound404 ("Symbol " +:+ symbol +:+ " not found in bucket " +:+ bucket), st)
      | Some csv_file =>
          refresh_if_stale fs (bucket_cache_key bucket symbol csv_file)
            (path_join bucket_path csv_file) st
      end
  end.

(** ** [refresh_data_cache] *)

(** Lines 247-262: the file a cache key [bucket/TS-<id>] is refreshed
    from, for an id made of digits, as in every key the handlers create. *)
Definition refresh_source (fs : FileSystem) (cache_key : string) : option string :=
  if Str.contains "/"%char cache_key && negb (Str.startswith cache_key "gs://") then
    '(bucket, ts_id_part) ← Str.split_once "/"%char cache_key;
    let bucket_path := path_join LOCAL_ROOT bucket in
    if Str.startswith ts_id_part "TS-" then
      let ts_id := Str.drop 3 ts_id_part in
      filenames ← fs_listdir fs bucket_path;
      filename ← List.find
        (fun filename =>
           is_data_csv filename &&
           match pattern_match filename with
           | Some (id, _) => bool_decide (id = ts_id)
           | None => false
           end)
        filenames;
      Some (path_join bucket_path filename)
    else None
  else None.

(** Lines 263-274, under the per-key lock; the [except] swallows an
    exception of [os.path.getmtime]. *)
Definition refresh_entry (fs : FileSystem) (cache_key csv_path : string)
    (st : Cache) : Cache :=
  match fs_getmtime fs csv_path with
  | None => st
  | Some current_mtime =>
      if F64.ltb (default F64.zero (LAST_MODIFIED st !! cache_key)) current_mtime then
        let df := load_csv_data_from_path fs csv_path in
        let st := record_load csv_path st in
        if negb (df_empty df) then
          bump_version (set_modified cache_key current_mtime
            (set_data cache_key df st))
        else st
      else st
  end.

Definition refresh_key (fs : FileSystem) (st : Cache) (cache_key : string) : Cache :=
  match refresh_source fs cache_key with
  | Some csv_path => refresh_entry fs cache_key csv_path st
  | None => st
  end.

(** The keys are a snapshot taken before the loop. *)
Definition refresh_data_cache (fs : FileSystem) (st : Cache) : Cache :=
  foldl (refresh_key fs) st (elements (dom (DATA_CACHE st))).

(** ** [get_bucket_data_since] *)

(** Lines 1029-1070: the cache key the incremental endpoint looks up. *)
Definition since_cache_key (fs : FileSystem) (bucket symbol : string) : string :=
  if Str.startswith symbol "TS-" || Str.isdigit symbol then
    if Str.isdigit symbol then bucket +:+ "/TS-" +:+ symbol
    else bucket +:+ "/" +:+ symbol
  else
    let bucket_path := path_join LOCAL_ROOT bucket in
    let found :=
      filenames ← fs_listdir fs bucket_path;
      List.find
        (fun filename =>
           is_data_csv filename &&
           match pattern_match filename with
           | Some (ts_id, _) =>
               match truthy (fs_hedge_symbol fs bucket_path ts_id) with
               | Some hedge_symbol => bool_decide (base_symbol hedge_symbol = symbol)
               | None => false
               end
           | None => false
           end)
        filenames in
    match found ≫= pattern_match with
    | Some (found_ts_id, _) => bucket +:+ "/TS-" +:+ found_ts_id
    | None => bucket +:+ "/" +:+ symbol
    end.

(** The incremental payload: the rows newer than the watermark, with the
    cumulative returns in percent. *)
Record increment := mkIncrement {
  inc_timestamps : list Z;
  inc_prices : list float;
  inc_positions : list float;
  inc_cumulative_returns : list float
}.

Inductive since_result :=
  | NoNewData                         (* {'new_data': False} *)
  | NewData (payload : increment).    (* {'new_data': True, ...} *)

(** [df['timestamp'] > last_dt] *)
Definition newer_mask (last_dt : Z) (timestamps : list Z) : list bool :=
  (fun t => bool_decide (last_dt < t)%Z) <$> timestamps.

(** Lines 1078-1094, [None] being an exception inside the [try]. An
    optional column that is present is read as numbers. *)
Definition filter_since (df : DataFrame) (last_dt : Z) : option since_result :=
  timestamps ← time_column df "timestamp";
  let mask := newer_mask last_dt timestamps in
  if (length (Series.select mask timestamps) =? 0)%nat then Some NoNewData
  else
    close ← float_column df "close";
    positions ←
      (if has_column df "position"
       then Series.select mask <$> float_column df "position" else Some []);
    cumulative_returns ←
      (if has_column df "cumulative_return"
       then Series.rmul F64.hundred ∘ Series.select mask
              <$> float_column df "cumulative_return"
       else Some []);
    Some (NewData (mkIncrement (Series.select mask timestamps)
                     (Series.select mask close) positions cumulative_returns)).

(** The answer the specification describes for the rows of [df] from row
    [n] on: nothing new when there is no such row, else these rows. *)
Definition suffix_result (df : DataFrame) (ts : list Z) (close : list float)
    (n : nat) : since_result :=
  match drop n ts with
  | [] => NoNewData
  | _ =>
      NewData (mkIncrement (drop n ts) (drop n close)
        (from_option (drop n) [] (float_column df "position"))
        (from_option (fun c => Series.rmul F64.hundred (drop n c)) []
           (float_column df "cumulative_return")))
  end.

(** [to_datetime] is [pd.to_datetime] on the URL segment, as a timestamp
    that can be compared with the column; [None] when the conversion or
    the comparison raises. The handler passes the cache on as it is. *)
Definition get_bucket_data_since (fs : FileSystem) (to_datetime : string → option Z)
    (bucket symbol last_timestamp : string) (st : Cache)
    : http since_result * Cache :=
  let cache_key := since_cache_key fs bucket symbol in
  match DATA_CACHE st !! cache_key with
  | None =>
      (NotFound404 ("Symbol " +:+ symbol +:+ " not found in bucket " +:+ bucket), st)
  | Some df =>
      match to_datetime last_timestamp ≫= filter_since df with
      | Some r => (Ok200 r, st)
      | None => (ServerError500 "Failed to get incremental data", st)
      end
  end.

(** ** The Resampler: [get_resampled_data] *)

(** The bucket widths the program asks pandas for. *)
Inductive period := P1h | P30min | P15min | P5min.

Definition minute_ns : Z := 60000000000.

Definition period_ns (p : period) : Z :=
  match p with
  | P1h => 60 * minute_ns
  | P30min => 30 * minute_ns
  | P15min => 15 * minute_ns
  | P5min => 5 * minute_ns
  end.

(** The bucket of a timestamp: buckets of a width that divides the day
    start at multiples of the width, are closed on the left and labelled
    by their left edge. *)
Definition bin_of (width t : Z) : Z := (t / width)%Z.

(** Every integer from the least to the greatest member of a list. *)
Definition span (keys : list Z) : list Z :=
  match keys with
  | [] => []
  | k :: keys' =>
      let lo := foldr Z.min k keys' in
      let hi := foldr Z.max k keys' in
      seqZ lo (hi - lo + 1)
  end.

(** The buckets pandas lays out, from the one of the earliest timestamp to
    the one of the latest. *)
Definition resample_bins (width : Z) (index : list Z) : list Z :=
  span (bin_of width <$> index).

(** The aggregation ['last'] of one bucket: the last value of the rows of
    the bucket that is not NaN, NaN when there is none. [rows] pairs the
    bucket of every row with its value. *)
Definition last_in_bin (b : Z) (rows : list (Z * float)) : float :=
  foldl (fun acc kx => if (kx.1 =? b)%Z && negb (F64.isnan kx.2)
                       then kx.2 else acc)
    F64.nan rows.

(** Lines 346-364. *)
Definition agg_dict (df : DataFrame) : list string :=
  (if has_column df "close" then ["close"]
   else if has_column df "Close" then ["Close"] else [])
  ++ (if has_column df "position" then ["position"]
      else if has_column df "Position" then ["Position"] else [])
  ++ (if has_column df "cumulative_return" then ["cumulative_return"] else [])
  ++ (if has_column df "cumulative_return_after_fees"
      then ["cumulative_return_after_fees"] else []).

(** Line 342: the column the frame is indexed by. *)
Definition timestamp_col (df : DataFrame) : string :=
  if has_column df "timestamp" then "timestamp" else "datetime".

(** Lines 341-372: [set_index], [resample(period).agg(agg_dict)],
    [dropna()] and [reset_index], on a frame in time order. [None] is an
    exception: no datetime column to index by, an empty [agg_dict], or a
    column that is not numeric. *)
Definition resample_last (width : Z) (df : DataFrame) : option DataFrame :=
  index ← time_column df (timestamp_col df);
  let names := agg_dict df in
  if bool_decide (names = []) then None else
  columns ← mapM (float_column df) names;
  let keys := bin_of width <$> index in
  let rows := zip keys <$> columns in
  let kept :=
    List.filter
      (fun b => forallb (fun r => negb (F64.isnan (last_in_bin b r))) rows)
      (resample_bins width index) in
  Some (mkDataFrame (length kept)
          (<[timestamp_col df := TimeCol ((fun b => b * width)%Z <$> kept)]>
             (list_to_map
                (zip names
                   ((fun r => FloatCol ((fun b => last_in_bin b r) <$> kept))
                      <$> rows))))).

Definition get_resampled_data (df : DataFrame) (resample_period : option period)
    : option DataFrame :=
  if df_empty df then Some df
  else
    let total_rows := Z.of_nat (df_len df) in
    match resample_period with
    | Some p => resample_last (period_ns p) df
    | None =>
        if (50000 <? total_rows)%Z then resample_last (period_ns P1h) df
        else if (20000 <? total_rows)%Z then resample_last (period_ns P30min) df
        else if (10000 <? total_rows)%Z then resample_last (period_ns P15min) df
        else if (5000 <? total_rows)%Z then resample_last (period_ns P5min) df
        else Some df
    end.

(** A series sampled once a minute from [start] on. *)
Fixpoint minute_timestamps (start : Z) (n : nat) : list Z :=
  match n with
  | O => []
  | S n' => start :: minute_timestamps (start + minute_ns) n'
  end.

(** Sixty thousand one-minute samples whose first sample is half past
    midnight of the first day. *)
Definition sixty_thousand_minutes : DataFrame :=
  mkDataFrame 60000
    (<["timestamp" := TimeCol (minute_timestamps (30 * minute_ns) 60000)]>
       (<["close" := FloatCol (replicate 60000 F64.one)]> ∅)).

(** ** The Summary Aggregator: [get_symbols_summary] *)

Definition day_ns : Z := 1440 * minute_ns.

(** [((last_price - price_ago) / price_ago) * 100] *)
Definition percent_change (last_price price_ago : float) : float :=
  F64.mul (F64.div (F64.sub last_price price_ago) price_ago) F64.hundred.
Global Arguments percent_change : simpl never.

(** [int(x)]: truncation, an exception on NaN and on the infinities. *)
Definition float_to_int (x : float) : option Z :=
  match x with
  | S754_zero _ => Some 0%Z
  | S754_finite s m e =>
      let a := Z.shiftl (Z.pos m) e in Some (if s then - a else a)%Z
  | _ => None
  end.

(** [s.max()], which skips NaN. *)
Definition series_max (s : list float) : float :=
  foldl (fun acc x => if F64.isnan x then acc
                      else if F64.isnan acc then x
                      else if F64.gtb x acc then x else acc)
    F64.nan s.

(** The aggregation ['first'] of one group. *)
Definition first_in_bin (b : Z) (rows : list (Z * float)) : float :=
  foldr (fun kx acc => if (kx.1 =? b)%Z && negb (F64.isnan kx.2)
                       then kx.2 else acc)
    F64.nan rows.

(** Lines 1176-1177: one daily return per calendar date that occurs, in
    date order. *)
Definition daily_returns (dates : list Z) (close : list float) : list float :=
  let rows := zip dates close in
  (fun d => let first := first_in_bin d rows in
            let last := last_in_bin d rows in
            F64.div (F64.sub last first) first)
    <$> List.filter (fun d => existsb (Z.eqb d) dates) (span dates).

(** Lines 1180-1184, on the daily returns from the latest day back. *)
Fixpoint count_positive (latest_first : list float) : nat :=
  match latest_first with
  | r :: older => if F64.gtb r F64.zero then S (count_positive older) else O
  | [] => O
  end.

(** What discovery reports for one data file. *)
Record sym_info := mkSymInfo {
  si_symbol : string;
  si_ts_id : string;
  si_filename : string
}.

Inductive position_text := LONG | SHORT | FLAT.

(** The per-symbol record, with its numbers as they are before the final
    [round(_, 2)]; the fields copied from discovery (pair, freshness, the
    time of the last update) are left out. *)
Record symbol_summary := mkSummary {
  sum_bucket_raw : string;
  sum_symbol : string;
  sum_ts_id : string;
  sum_last_price : float;
  sum_position : position_text;
  sum_position_value : Z;
  sum_cumulative_return : float;
  sum_max_return : float;
  sum_change_24h : float;
  sum_change_7d : float;
  sum_consecutive_positive_days : nat
}.

(** [s.iloc[i]]: a negative position counts from the end; [None] is the
    [IndexError] of a position outside the column. *)
Definition iloc (s : list float) (i : Z) : option float :=
  let n := Z.of_nat (length s) in
  let j := if (i <? 0)%Z then (n + i)%Z else i in
  if (0 <=? j)%Z && (j <? n)%Z then s !! Z.to_nat j else None.

(** Lines 1145-1169: the local variables [last_price], [change_24h],
    [change_7d], [current_position], [cumulative_return], [max_return]. *)
Record symbol_metrics := mkMetrics {
  m_last_price : float;
  m_change_24h : float;
  m_change_7d : float;
  m_current_position : float;
  m_cumulative_return : float;
  m_max_return : float
}.

Definition symbol_metrics_of (df : DataFrame) : option symbol_metrics :=
  close ← float_column df "close";
  last_price ← iloc close (-1);
  change_24h ←
    (if (1440 <? Z.of_nat (df_len df))%Z
     then percent_change last_price <$> iloc close (-1440)
     else Some F64.zero);
  change_7d ←
    (if (10080 <? Z.of_nat (df_len df))%Z
     then percent_change last_price <$> iloc close (-10080)
     else percent_change last_price <$> iloc close 0);
  current_position ←
    (if has_column df "position"
     then float_column df "position" ≫= fun s => iloc s (-1)
     else Some F64.zero);
  net ←
    (if has_column df "cumulative_return_after_fees"
     then Some <$> float_column df "cumulative_return_after_fees"
     else Some None);
  cumulative_return ←
    match net with
    | Some s => (fun x => F64.mul x F64.hundred) <$> iloc s (-1)
    | None => Some F64.zero
    end;
  let max_return :=
    match net with
    | Some s => F64.mul (series_max s) F64.hundred
    | None => F64.zero
    end in
  Some (mkMetrics last_price change_24h change_7d current_position
          cumulative_return max_return).

(** Lines 1189-1209: the returned dictionary; [int(current_position)] can
    raise. *)
Definition build_summary (bucket_name : string) (info : sym_info)
    (m : symbol_metrics) (consecutive_days : nat) : option symbol_summary :=
  position_value ← float_to_int (m_current_position m);
  Some (mkSummary bucket_name (si_symbol info) (si_ts_id info)
          (m_last_price m)
          (if F64.gtb (m_current_position m) F64.zero then LONG
           else if F64.ltb (m_current_position m) F64.zero then SHORT else FLAT)
          position_value (m_cumulative_return m) (m_max_return m)
          (m_change_24h m) (m_change_7d m) consecutive_days).

(** Lines 1143-1209 on the frame [df]. The second component is the frame
    as the call leaves it: line 1175 adds a [date] column to [df] itself. *)
Definition summarize (bucket_name : string) (info : sym_info) (df : DataFrame)
    : option symbol_summary * DataFrame :=
  if negb (df_empty df) && has_column df "close" then
    match symbol_metrics_of df with
    | None => (None, df)
    | Some m =>
        if has_column df "close" && has_column df "timestamp" && (0 <? df_len df)%nat
        then
          match time_column df "timestamp" with
          | None => (None, df)
          | Some timestamps =>
              let dates := (fun t => t / day_ns)%Z <$> timestamps in
              let df := set_column "date" (DateCol dates) df in
              match float_column df "close" with
              | None => (None, df)
              | Some close =>
                  (build_summary bucket_name info m
                     (count_positive (reverse (daily_returns dates close))), df)
              end
          end
        else (build_summary bucket_name info m 0, df)
    end
  else (None, df).

(** [process_symbol] of lines 1125-1212. Its frame is the cached object,
    so the column line 1175 adds shows in [DATA_CACHE]. Any exception ends
    in [return None]. *)
Definition process_symbol (fs : FileSystem) (bucket_name bucket_path : string)
    (info : sym_info) (st : Cache) : option symbol_summary * Cache :=
  let cache_key := bucket_name +:+ "/TS-" +:+ si_ts_id info in
  let locked : option DataFrame * Cache :=
    match DATA_CACHE st !! cache_key with
    | Some df => (Some df, st)
    | None =>
        let csv_path := path_join bucket_path (si_filename info) in
        let df := load_csv_data_from_path fs csv_path in
        let st := record_load csv_path st in
        if negb (df_empty df) then
          let st := set_data cache_key df st in
          match fs_getmtime fs csv_path with
          | None => (None, st)
          | Some mtime => (Some df, set_modified cache_key mtime st)
          end
        else (Some df, st)
    end in
  match locked with
  | (None, st) => (None, st)
  | (Some df, st) =>
      let '(result, df') := summarize bucket_name info df in
      (result, if df_empty df then st else set_data cache_key df' st)
  end.

(** [as_completed(futures)]: the futures in the order they finish, given
    as the list of their positions in [futures]. *)
Definition as_completed {A} (completed : list nat) (futures : list A) : list A :=
  omap (fun i => futures !! i) completed.

(** One bucket of the summary: its normalised name, what discovery found
    in it, and the order in which its symbol workers finish. *)
Record bucket_job := mkBucketJob {
  job_bucket_name : string;
  job_symbols : list sym_info;
  job_completed : list nat
}.

(** Lines 1116-1223. A worker's work is taken to happen when its future
    completes, so the cache is threaded in completion order. *)
Definition process_bucket_summary (fs : FileSystem) (job : bucket_job) (st : Cache)
    : list symbol_summary * Cache :=
  let bucket_path := path_join LOCAL_ROOT (job_bucket_name job) in
  foldl
    (fun acc info =>
       let '(result, st') :=
         process_symbol fs (job_bucket_name job) bucket_path info acc.2 in
       (acc.1 ++ option_list result, st'))
    ([], st)
    (as_completed (job_completed job) (job_symbols job)).

(** Lines 1226-1231 and the ['symbols'] entry of the answer: the list
    [summary_data]. The statistics of lines 1233-1289 read this list and
    leave it as it is. *)
Definition get_symbols_summary (fs : FileSystem) (jobs : list bucket_job)
    (completed : list nat) (st : Cache) : list symbol_summary * Cache :=
  foldl
    (fun acc job =>
       let '(bucket_results, st') := process_bucket_summary fs job acc.2 in
       (acc.1 ++ bucket_results, st'))
    ([], st)
    (as_completed completed jobs).

(** Sample data: two rows, two data files of one bucket. *)
Definition two_rows (first last : Z) : DataFrame :=
  mkDataFrame 2
    (<["timestamp" := TimeCol [0; minute_ns]%Z]>
       (<["close" := FloatCol [F64.of_Z first; F64.of_Z last]]>
          (<["position" := FloatCol [F64.zero; F64.zero]]> ∅))).

Definition btc_file : string := "STGC2OGTrim2Model_TS-1_T-1_BTC.csv".
Definition eth_file : string := "STGC2OGTrim2Model_TS-2_T-1_ETH.csv".

Definition two_symbol_fs : FileSystem :=
  mkFileSystem
    (fun path =>
       if bool_decide (path = "./buckets/demo/" +:+ btc_file) then Some (two_rows 100 110)
       else if bool_decide (path = "./buckets/demo/" +:+ eth_file) then Some (two_rows 50 40)
       else None)
    None
    (fun _ => Some F64.one)
    (fun path => if bool_decide (path = "./buckets/demo")
                 then Some [btc_file; eth_file] else None)
    (fun _ ts_id => if bool_decide (ts_id = "1") then Some "BTC-USDT-SWAP"
                    else if bool_decide (ts_id = "2") then Some "ETH-USDT-SWAP"
                    else None).

(** The same files while [os.path.getmtime] fails. *)
Definition no_mtime_fs : FileSystem :=
  mkFileSystem (fs_read_csv two_symbol_fs) None (fun _ => None)
    (fs_listdir two_symbol_fs) (fs_hedge_symbol two_symbol_fs).

(** The same files when they can no longer be read. *)
Definition emptied_fs : FileSystem :=
  mkFileSystem (fun _ => None) None (fun _ => Some F64.one)
    (fs_listdir two_symbol_fs) (fs_hedge_symbol two_symbol_fs).

Definition demo_job (completed : list nat) : bucket_job :=
  mkBucketJob "demo"
    [mkSymInfo "BTC" "1" btc_file; mkSymInfo "ETH" "2" eth_file] completed.

Definition empty_cache : Cache := mkCache ∅ ∅ 1 [].

Definition btc_path : string := "./buckets/demo/" +:+ btc_file.

(** A cache that holds the first symbol with an older modification time. *)
Definition demo_cache : Cache :=
  mkCache {["demo/TS-1" := two_rows 100 105]} {["demo/TS-1" := F64.zero]} 1 [].

(** A frame that already carries its cumulative return. *)
Definition derived_rows : DataFrame :=
  set_column "cumulative_return" (FloatCol [F64.zero; F64.zero]) (two_rows 100 110).

(** A watermark parser for the sample: every watermark is the epoch. *)
Definition epoch_watermark (last_timestamp : string) : option Z := Some 0%Z.

(** ** Threads: the users of the locks and of the cache, interleaved

    The threads of the request handlers and of their worker pools share
    [CACHE_KEY_LOCKS], [CACHE_LOCK], the per-key locks and the cache. A
    thread advances one line at a time, and one step is one access to a
    shared dictionary, to a lock, to the file system or to a shared frame:
    the interpreter runs each such access of one thread without
    interference from the others. Any thread may take the next step, so a
    run is an arbitrary interleaving. A lock object is known by its
    identity, a number, and so is a frame object that has been put into
    [DATA_CACHE]. *)

Definition lock := nat.
Definition object := nat.

(** Where a thread stands. The lines 69-73 are [get_cache_key_lock];
    966-988 are [get_bucket_data] from the call of [get_cache_key_lock]
    on; 1072 and 1075 are the lookups of [get_bucket_data_since]; 404 and
    405 those of [symbol_detail_modern]; 1133-1175 are [process_symbol] of
    [get_symbols_summary]; 1347-1357 are [process_symbol_returns] of
    [get_all_cumulative_returns]. Local variables that are live at a line
    come with it. *)
Inductive pc :=
  | Line69                      (* if cache_key not in CACHE_KEY_LOCKS: *)
  | Line70                      (* with CACHE_LOCK: wait for the global lock *)
  | Line71                      (* if cache_key not in CACHE_KEY_LOCKS: *)
  | Line72                      (* CACHE_KEY_LOCKS[cache_key] = threading.Lock() *)
  | Line72_exit                 (* end of with CACHE_LOCK: release *)
  | Line73                      (* return CACHE_KEY_LOCKS[cache_key] *)
  | Line966 (l : lock)          (* with cache_key_lock: wait for the lock *)
  | Line967 (l : lock)          (* if cache_key not in DATA_CACHE or ... *)
  | Line969 (l : lock)          (* df = load_csv_data_from_path(csv_path) *)
  | Line970 (l : lock) (df : DataFrame)   (* if df.empty: return ..., 500 *)
  | Line972 (l : lock) (df : DataFrame)   (* DATA_CACHE[cache_key] = df *)
  | Line973 (l : lock)          (* LAST_MODIFIED[cache_key] = getmtime(csv_path) *)
  | Line974 (l : lock)          (* data_version += 1: read *)
  | Line974_store (l : lock) (v : Z)      (* data_version += 1: write *)
  | Line978 (l : lock)          (* current_mtime = os.path.getmtime(csv_path) *)
  | Line979 (l : lock) (current_mtime : float)  (* if current_mtime > LAST_MODIFIED[..] *)
  | Line980 (l : lock) (current_mtime : float)  (* df = load_csv_data_from_path(...) *)
  | Line981 (l : lock) (current_mtime : float) (df : DataFrame)  (* if not df.empty: *)
  | Line982 (l : lock) (current_mtime : float) (df : DataFrame)  (* DATA_CACHE[..] = df *)
  | Line983 (l : lock) (current_mtime : float)  (* LAST_MODIFIED[..] = current_mtime *)
  | Line984 (l : lock)          (* data_version += 1: read *)
  | Line984_store (l : lock) (v : Z)      (* data_version += 1: write *)
  | Exit966 (l : lock) (pending : option (http DataFrame))
                                (* end of with cache_key_lock: release *)
  | Line988                     (* df = DATA_CACHE[cache_key] *)
  | Line1072                    (* if cache_key not in DATA_CACHE: return 404 *)
  | Line1075                    (* df = DATA_CACHE[cache_key] *)
  | Line404                     (* if cache_key in DATA_CACHE: *)
  | Line405                     (* cached_data = DATA_CACHE[cache_key] *)
  | Line1133 (l : lock)         (* with cache_key_lock: wait for the lock *)
  | Line1134 (l : lock)         (* if cache_key in DATA_CACHE: *)
  | Line1135 (l : lock)         (* df = DATA_CACHE[cache_key] *)
  | Line1138 (l : lock)         (* df = load_csv_data_from_path(csv_path) *)
  | Line1139 (l : lock) (df : DataFrame)  (* if not df.empty: *)
  | Line1140 (l : lock) (df : DataFrame)  (* DATA_CACHE[cache_key] = df *)
  | Line1141 (l : lock) (df : object)     (* LAST_MODIFIED[..] = getmtime(csv_path) *)
  | Exit1133 (l : lock) (df : option object)
                                (* end of with cache_key_lock: release *)
  | Line1143 (df : object)      (* if not df.empty and 'close' in df.columns: ... *)
  | Line1175 (df : object)      (* df['date'] = df['timestamp'].dt.date *)
  | Line1347 (l : lock)         (* with lock: wait for the lock *)
  | Line1348 (l : lock)         (* if cache_key in DATA_CACHE: *)
  | Line1349 (l : lock)         (* df = DATA_CACHE[cache_key] *)
  | Line1353 (l : lock)         (* df = load_csv_data_from_path(csv_path) *)
  | Line1354 (l : lock) (df : DataFrame)  (* if df.empty: return None *)
  | Line1357 (l : lock) (df : DataFrame)  (* DATA_CACHE[cache_key] = df *)
  | Exit1347 (l : lock)         (* end of with lock: release *)
  | Returned (r : http DataFrame)   (* the frame the answer is made from *)
  | Finished.                   (* returned, with a page, a summary or a sampled copy *)

(** What a thread may run: the handlers [get_bucket_data],
    [get_bucket_data_since] and [symbol_detail_modern], and the workers
    [process_symbol] and [process_symbol_returns]. These are all the
    places of the file that read or write [DATA_CACHE] or take a lock
    while requests are served; [refresh_data_cache] runs once, before the
    first request. *)
Inductive handler :=
  | GetBucketData
  | GetBucketDataSince
  | SymbolDetail
  | ProcessSymbol
  | ProcessSymbolReturns.

(** A thread: what it runs, the cache key and the data file its request
    resolved to, and where it stands. *)
Record thread := mkThread {
  th_handler : handler;
  th_key : string;
  th_path : string;
  th_pc : pc
}.

(** The shared state. [cache] holds the frame of each key by value, as
    the handlers read it; [ident] tells which object that frame is and
    [objects] holds the frames by identity, so that an assignment to a
    frame a thread has taken from the cache shows under every key that
    refers to the same object. *)
Record shared := mkShared {
  CACHE_KEY_LOCKS : gmap string lock;
  CACHE_LOCK : option nat;       (* the thread that holds the global lock *)
  held : gmap lock nat;          (* the per-key locks that are held, by whom *)
  next_lock : lock;              (* the identity of the next new lock *)
  cache : Cache;
  ident : gmap string object;    (* the object each cached key refers to *)
  objects : gmap object DataFrame;
  next_object : object           (* the identity of the next new object *)
}.

Definition with_cache (c : Cache) (sh : shared) : shared :=
  mkShared (CACHE_KEY_LOCKS sh) (CACHE_LOCK sh) (held sh) (next_lock sh) c
    (ident sh) (objects sh) (next_object sh).

Definition with_table (t : gmap string lock) (n : lock) (sh : shared) : shared :=
  mkShared t (CACHE_LOCK sh) (held sh) n (cache sh)
    (ident sh) (objects sh) (next_object sh).

Definition with_global (g : option nat) (sh : shared) : shared :=
  mkShared (CACHE_KEY_LOCKS sh) g (held sh) (next_lock sh) (cache sh)
    (ident sh) (objects sh) (next_object sh).

Definition with_held (h : gmap lock nat) (sh : shared) : shared :=
  mkShared (CACHE_KEY_LOCKS sh) (CACHE_LOCK sh) h (next_lock sh) (cache sh)
    (ident sh) (objects sh) (next_object sh).

Definition set_version (v : Z) (c : Cache) : Cache :=
  mkCache (DATA_CACHE c) (LAST_MODIFIED c) v (loads c).

(** [DATA_CACHE[cache_key] = df] for a frame the thread has just loaded:
    the key now refers to this frame, an object no other key refers to. *)
Definition store (cache_key : string) (df : DataFrame) (sh : shared) : shared :=
  mkShared (CACHE_KEY_LOCKS sh) (CACHE_LOCK sh) (held sh) (next_lock sh)
    (set_data cache_key df (cache sh))
    (<[cache_key := next_object sh]> (ident sh))
    (<[next_object sh := df]> (objects sh))
    (S (next_object sh)).

(** The object [o] becomes [df]: every key that refers to [o] shows it. *)
Definition set_object (o : object) (df : DataFrame) (sh : shared) : shared :=
  mkShared (CACHE_KEY_LOCKS sh) (CACHE_LOCK sh) (held sh) (next_lock sh)
    (mkCache
       (map_imap
          (fun k old => Some (if bool_decide (ident sh !! k = Some o) then df else old))
          (DATA_CACHE (cache sh)))
       (LAST_MODIFIED (cache sh)) (data_version (cache sh)) (loads (cache sh)))
    (ident sh) (<[o := df]> (objects sh)) (next_object sh).

(** Lines 1143-1173 of [process_symbol], which only read the frame:
    whether the thread comes to the assignment of line 1175. An exception
    on the way ends in [return None]. *)
Definition comes_to_line1175 (df : DataFrame) : bool :=
  negb (df_empty df) && has_column df "close"
  && bool_decide (is_Some (symbol_metrics_of df))
  && (has_column df "close" && has_column df "timestamp" && (0 <? df_len df)%nat).

(** Line 1175, [df['date'] = df['timestamp'].dt.date]: the frame with the
    column; [None] is the exception of [.dt] on a column that holds no
    timestamps. *)
Definition assign_date (df : DataFrame) : option DataFrame :=
  timestamps ← time_column df "timestamp";
  Some (set_column "date" (DateCol ((fun t => t / day_ns)%Z <$> timestamps)) df).

(** Where [get_cache_key_lock] returns to with the lock [l]; the two
    readers do not call it. *)
Definition after_line73 (h : handler) (l : lock) : pc :=
  match h with
  | GetBucketData => Line966 l
  | ProcessSymbol => Line1133 l
  | ProcessSymbolReturns => Line1347 l
  | GetBucketDataSince | SymbolDetail => Finished
  end.

(** A [KeyError]: [get_bucket_data] answers 500, the workers catch it and
    return [None]. *)
Definition key_error (h : handler) : pc :=
  match h with
  | GetBucketData => Returned (ServerError500 "KeyError")
  | _ => Finished
  end.

(** One step of thread [tid]; [None] when the thread waits for a lock that
    is taken, or has returned. *)
Definition step_thread (fs : FileSystem) (tid : nat) (th : thread) (sh : shared)
    : option (shared * pc) :=
  let cache_key := th_key th in
  let csv_path := th_path th in
  match th_pc th with
  | Line69 =>
      Some (sh, if bool_decide (is_Some (CACHE_KEY_LOCKS sh !! cache_key))
                then Line73 else Line70)
  | Line70 =>
      match CACHE_LOCK sh with
      | None => Some (with_global (Some tid) sh, Line71)
      | Some _ => None
      end
  | Line71 =>
      Some (sh, if bool_decide (is_Some (CACHE_KEY_LOCKS sh !! cache_key))
                then Line72_exit else Line72)
  | Line72 =>
      Some (with_table (<[cache_key := next_lock sh]> (CACHE_KEY_LOCKS sh))
              (S (next_lock sh)) sh, Line72_exit)
  | Line72_exit => Some (with_global None sh, Line73)
  | Line73 =>
      match CACHE_KEY_LOCKS sh !! cache_key with
      | Some l => Some (sh, after_line73 (th_handler th) l)
      | None => Some (sh, key_error (th_handler th))
      end
  | Line966 l =>
      match held sh !! l with
      | None => Some (with_held (<[l := tid]> (held sh)) sh, Line967 l)
      | Some _ => None
      end
  | Line967 l =>
      Some (sh, match DATA_CACHE (cache sh) !! cache_key,
                      LAST_MODIFIED (cache sh) !! cache_key with
                | Some _, Some _ => Line978 l
                | _, _ => Line969 l
                end)
  | Line969 l =>
      Some (with_cache (record_load csv_path (cache sh)) sh,
            Line970 l (load_csv_data_from_path fs csv_path))
  | Line970 l df =>
      Some (sh, if df_empty df
                then Exit966 l (Some (ServerError500 "Failed to load data"))
                else Line972 l df)
  | Line972 l df => Some (store cache_key df sh, Line973 l)
  | Line973 l =>
      match fs_getmtime fs csv_path with
      | Some mtime =>
          Some (with_cache (set_modified cache_key mtime (cache sh)) sh, Line974 l)
      | None => Some (sh, Exit966 l (Some (ServerError500 "getmtime")))
      end
  | Line974 l => Some (sh, Line974_store l (data_version (cache sh)))
  | Line974_store l v =>
      Some (with_cache (set_version (v + 1) (cache sh)) sh, Exit966 l None)
  | Line978 l =>
      match fs_getmtime fs csv_path with
      | Some current_mtime => Some (sh, Line979 l current_mtime)
      | None => Some (sh, Exit966 l (Some (ServerError500 "getmtime")))
      end
  | Line979 l current_mtime =>
      match LAST_MODIFIED (cache sh) !! cache_key with
      | Some stored =>
          Some (sh, if F64.gtb current_mtime stored
                    then Line980 l current_mtime else Exit966 l None)
      | None => Some (sh, Exit966 l (Some (ServerError500 "KeyError")))
      end
  | Line980 l current_mtime =>
      Some (with_cache (record_load csv_path (cache sh)) sh,
            Line981 l current_mtime (load_csv_data_from_path fs csv_path))
  | Line981 l current_mtime df =>
      Some (sh, if negb (df_empty df)
                then Line982 l current_mtime df else Exit966 l None)
  | Line982 l current_mtime df => Some (store cache_key df sh, Line983 l current_mtime)
  | Line983 l current_mtime =>
      Some (with_cache (set_modified cache_key current_mtime (cache sh)) sh, Line984 l)
  | Line984 l => Some (sh, Line984_store l (data_version (cache sh)))
  | Line984_store l v =>
      Some (with_cache (set_version (v + 1) (cache sh)) sh, Exit966 l None)
  | Exit966 l pending =>
      Some (with_held (delete l (held sh)) sh,
            match pending with Some r => Returned r | None => Line988 end)
  | Line988 =>
      Some (sh, match DATA_CACHE (cache sh) !! cache_key with
                | Some df => Returned (Ok200 df)
                | None => Returned (ServerError500 "KeyError")
                end)
  | Line1072 =>
      Some (sh, if bool_decide (is_Some (DATA_CACHE (cache sh) !! cache_key))
                then Line1075 else Returned (NotFound404 "not found"))
  | Line1075 =>
      Some (sh, match DATA_CACHE (cache sh) !! cache_key with
                | Some df => Returned (Ok200 df)
                | None => Returned (ServerError500 "KeyError")
                end)
  | Line404 =>
      Some (sh, if bool_decide (is_Some (DATA_CACHE (cache sh) !! cache_key))
                then Line405 else Finished)
  | Line405 => Some (sh, Finished)
  | Line1133 l =>
      match held sh !! l with
      | None => Some (with_held (<[l := tid]> (held sh)) sh, Line1134 l)
      | Some _ => None
      end
  | Line1134 l =>
      Some (sh, if bool_decide (is_Some (DATA_CACHE (cache sh) !! cache_key))
                then Line1135 l else Line1138 l)
  | Line1135 l => Some (sh, Exit1133 l (ident sh !! cache_key))
  | Line1138 l =>
      Some (with_cache (record_load csv_path (cache sh)) sh,
            Line1139 l (load_csv_data_from_path fs csv_path))
  | Line1139 l df =>
      (* an empty frame is not cached and fails the test of line 1143 *)
      Some (sh, if negb (df_empty df) then Line1140 l df else Exit1133 l None)
  | Line1140 l df => Some (store cache_key df sh, Line1141 l (next_object sh))
  | Line1141 l o =>
      match fs_getmtime fs csv_path with
      | Some mtime =>
          Some (with_cache (set_modified cache_key mtime (cache sh)) sh,
                Exit1133 l (Some o))
      | None => Some (sh, Exit1133 l None)
      end
  | Exit1133 l df =>
      Some (with_held (delete l (held sh)) sh,
            match df with Some o => Line1143 o | None => Finished end)
  | Line1143 o =>
      Some (sh, match objects sh !! o with
                | Some df => if comes_to_line1175 df then Line1175 o else Finished
                | None => Finished
                end)
  | Line1175 o =>
      match objects sh !! o ≫= assign_date with
      | Some df => Some (set_object o df sh, Finished)
      | None => Some (sh, Finished)
      end
  | Line1347 l =>
      match held sh !! l with
      | None => Some (with_held (<[l := tid]> (held sh)) sh, Line1348 l)
      | Some _ => None
      end
  | Line1348 l =>
      Some (sh, if bool_decide (is_Some (DATA_CACHE (cache sh) !! cache_key))
                then Line1349 l else Line1353 l)
  | Line1349 l => Some (sh, Exit1347 l)
  | Line1353 l =>
      Some (with_cache (record_load csv_path (cache sh)) sh,
            Line1354 l (load_csv_data_from_path fs csv_path))
  | Line1354 l df =>
      Some (sh, if df_empty df then Exit1347 l else Line1357 l df)
  | Line1357 l df => Some (store cache_key df sh, Exit1347 l)
  | Exit1347 l => Some (with_held (delete l (held sh)) sh, Finished)
  | Returned _ => None
  | Finished => None
  end.

Record state := mkState {
  st_shared : shared;
  st_threads : gmap nat thread
}.

Definition step (fs : FileSystem) (tid : nat) (s : state) : option state :=
  th ← st_threads s !! tid;
  '(sh, pc') ← step_thread fs tid th (st_shared s);
  Some (mkState sh
          (<[tid := mkThread (th_handler th) (th_key th) (th_path th) pc']>
             (st_threads s))).

(** A schedule names the thread that moves at each turn; a turn given to
    a thread that cannot move is lost. *)
Definition run (fs : FileSystem) (schedule : list nat) (s : state) : state :=
  foldl (fun s tid => default s (step fs tid s)) s schedule.

Definition reachable (fs : FileSystem) (s0 s : state) : Prop :=
  ∃ schedule, run fs schedule s0 = s.

(** The first line of a thread's part. *)
Definition entry (h : handler) : pc :=
  match h with
  | GetBucketData | ProcessSymbol | ProcessSymbolReturns => Line69
  | GetBucketDataSince => Line1072
  | SymbolDetail => Line404
  end.

(** Before any thread runs: no lock is held, every lock in the table is
    older than the next new one, and every thread is at the first line of
    its part. *)
Definition initial (s : state) : Prop :=
  CACHE_LOCK (st_shared s) = None
  ∧ held (st_shared s) = ∅
  ∧ map_Forall (fun _ l => l < next_lock (st_shared s)) (CACHE_KEY_LOCKS (st_shared s))
  ∧ map_Forall (fun _ th => th_pc th = entry (th_handler th)) (st_threads s).


(** The per-key lock a thread has obtained from [get_cache_key_lock]. *)
Definition pc_lock (p : pc) : option lock :=
  match p with
  | Line966 l | Line967 l | Line969 l | Line970 l _ | Line972 l _ | Line973 l
  | Line974 l | Line974_store l _ | Line978 l | Line979 l _ | Line980 l _
  | Line981 l _ _ | Line982 l _ _ | Line983 l _ | Line984 l | Line984_store l _
  | Exit966 l _
  | Line1133 l | Line1134 l | Line1135 l | Line1138 l | Line1139 l _
  | Line1140 l _ | Line1141 l _ | Exit1133 l _
  | Line1347 l | Line1348 l | Line1349 l | Line1353 l | Line1354 l _
  | Line1357 l _ | Exit1347 l => Some l
  | _ => None
  end.

(** Inside [with cache_key_lock:], the lock being held. *)
Definition in_section (p : pc) : bool :=
  match p with
  | Line967 _ | Line969 _ | Line970 _ _ | Line972 _ _ | Line973 _
  | Line974 _ | Line974_store _ _ | Line978 _ | Line979 _ _ | Line980 _ _
  | Line981 _ _ _ | Line982 _ _ _ | Line983 _ _ | Line984 _ | Line984_store _ _
  | Exit966 _ _
  | Line1134 _ | Line1135 _ | Line1138 _ | Line1139 _ _
  | Line1140 _ _ | Line1141 _ _ | Exit1133 _ _
  | Line1348 _ | Line1349 _ | Line1353 _ | Line1354 _ _
  | Line1357 _ _ | Exit1347 _ => true
  | _ => false
  end.

(** Waiting at [with cache_key_lock:] for the lock. *)
Definition awaits (p : pc) : option lock :=
  match p with
  | Line966 l | Line1133 l | Line1347 l => Some l
  | _ => None
  end.

(** At the end of [with cache_key_lock:], about to release the lock. *)
Definition releases (p : pc) : option lock :=
  match p with
  | Exit966 l _ | Exit1133 l _ | Exit1347 l => Some l
  | _ => None
  end.


Definition returned (p : pc) : bool :=
  match p with Returned _ | Finished => true | _ => false end.

(** Two refresh requests for the first symbol, a summary worker and a
    reader of the same key, and a refresh of the second symbol. The
    cached frame of the first symbol is the object 0. *)
Definition demo_shared : shared :=
  mkShared ∅ None ∅ 0 demo_cache {["demo/TS-1" := 0]} {[0 := two_rows 100 105]} 1.

Definition two_refreshes : state :=
  mkState demo_shared
    (<[0 := mkThread GetBucketData "demo/TS-1" btc_path Line69]>
       (<[1 := mkThread GetBucketData "demo/TS-1" btc_path Line69]>
          (<[2 := mkThread ProcessSymbol "demo/TS-1" btc_path Line69]>
             (<[3 := mkThread GetBucketDataSince "demo/TS-1" btc_path Line1072]>
                (<[4 := mkThread GetBucketData "demo/TS-2"
                          ("./buckets/demo/" +:+ eth_file) Line69]> ∅))))).







(** *** Invariants of the interleaved runs *)

(** Holding the global lock, inside [with CACHE_LOCK:]. *)
Definition holds_global (p : pc) : bool :=
  match p with Line71 | Line72 | Line72_exit => true | _ => false end.

(** The key has its lock in the table: after the second test of line 71. *)
Definition past_creation (p : pc) : bool :=
  match p with Line72_exit | Line73 => true | _ => false end.

(** The locks: a per-key lock a thread carries is the table's entry for
    its key; a thread inside [with cache_key_lock:] holds the lock it
    carries; a thread at line 72 has found no entry, under the global lock,
    which it holds from line 71 to the end of the block. *)
Record lock_inv (s : state) : Prop := mkLockInv {
  li_table : ∀ tid th l,
    st_threads s !! tid = Some th → pc_lock (th_pc th) = Some l →
    CACHE_KEY_LOCKS (st_shared s) !! th_key th = Some l;
  li_held : ∀ tid th,
    st_threads s !! tid = Some th → in_section (th_pc th) = true →
    ∃ l, pc_lock (th_pc th) = Some l ∧ held (st_shared s) !! l = Some tid;
  li_absent : ∀ tid th,
    st_threads s !! tid = Some th → th_pc th = Line72 →
    CACHE_KEY_LOCKS (st_shared s) !! th_key th = None;
  li_present : ∀ tid th,
    st_threads s !! tid = Some th → past_creation (th_pc th) = true →
    is_Some (CACHE_KEY_LOCKS (st_shared s) !! th_key th);
  li_global : ∀ tid th,
    st_threads s !! tid = Some th → holds_global (th_pc th) = true →
    CACHE_LOCK (st_shared s) = Some tid
}.





(** *** Concurrent refreshes of one key *)

(** Where a refresh stands with respect to the reload: before the test of
    line 979, about to call the loader, between the loader's call and the
    store of the new modification time, and after it. *)
Inductive stage := Before | Deciding | Loaded | After | Astray.

Definition stage_of (p : pc) : stage :=
  match p with
  | Line69 | Line70 | Line71 | Line72 | Line72_exit | Line73
  | Line966 _ | Line967 _ | Line978 _ | Line979 _ _ => Before
  | Line980 _ _ => Deciding
  | Line981 _ _ _ | Line982 _ _ _ | Line983 _ _ => Loaded
  | Line984 _ | Line984_store _ _ | Exit966 _ None | Line988
  | Returned (Ok200 _) => After
  | _ => Astray
  end.






(** ** Further properties: auxiliary notions *)

(** What follows the digits of an id does not start with a digit. *)
Definition no_leading_digit (s : string) : bool :=
  match s with
  | EmptyString => true
  | String c _ => negb (Str.is_digit c)
  end.

(** A text of ASCII characters, code points below 128: on such a text
    Python's [\d] and [str.isdigit] know the digits 0 to 9 only. *)
Fixpoint is_ascii_text (s : string) : bool :=
  match s with
  | EmptyString => true
  | String c s' => (Ascii.N_of_ascii c <? 128)%N && is_ascii_text s'
  end.

(** No cached frame is empty. *)
Definition no_empty_entry (st : Cache) : Prop :=
  map_Forall (fun _ df => df_empty df = false) (DATA_CACHE st).

(** The condition under which lines 267-272 of [refresh_data_cache] run
    for a key: its file is found, is newer than the stored time, and loads
    with rows. *)
Definition updates (fs : FileSystem) (st : Cache) (cache_key : string) : bool :=
  match refresh_source fs cache_key with
  | Some csv_path =>
      match fs_getmtime fs csv_path with
      | Some current_mtime =>
          F64.ltb (default F64.zero (LAST_MODIFIED st !! cache_key)) current_mtime
          && negb (df_empty (load_csv_data_from_path fs csv_path))
      | None => false
      end
  | None => false
  end.

(** The columns lines 174-221 assign. *)
Definition derived_columns : list string :=
  ["returns"; "position_lag"; "strategy_returns"; "cumulative_return";
   "position_change"; "is_trade"; "position_change_abs"; "fee_multiplier";
   "strategy_returns_after_fees"; "cumulative_return_after_fees";
   "transaction_cost"].

(** Who holds the locks: a per-key lock that is held is held by a thread
    inside [with cache_key_lock:] that carries it, the global lock by a
    thread inside [with CACHE_LOCK:]. *)
Record holder_inv (s : state) : Prop := mkHolderInv {
  hi_held : ∀ l tid,
    held (st_shared s) !! l = Some tid →
    ∃ th, st_threads s !! tid = Some th ∧ in_section (th_pc th) = true
          ∧ pc_lock (th_pc th) = Some l;
  hi_global : ∀ tid,
    CACHE_LOCK (st_shared s) = Some tid →
    ∃ th, st_threads s !! tid = Some th ∧ holds_global (th_pc th) = true
}.

(** No two keys share a lock. *)
Definition one_key_per_lock (s : state) : Prop :=
  ∀ k1 k2 l,
    CACHE_KEY_LOCKS (st_shared s) !! k1 = Some l →
    CACHE_KEY_LOCKS (st_shared s) !! k2 = Some l → k1 = k2.

(** Every lock in the table is older than the next new one, and no two
    keys share a lock. *)
Record table_inv (s : state) : Prop := mkTableInv {
  ti_fresh : map_Forall (fun _ l => l < next_lock (st_shared s))
               (CACHE_KEY_LOCKS (st_shared s));
  ti_inj : one_key_per_lock s
}.

(** The steps a thread has left at most before it returns. *)
Definition remaining (p : pc) : nat :=
  match p with
  | Line69 => 18 | Line70 => 17 | Line71 => 16 | Line72 => 15
  | Line72_exit => 14 | Line73 => 13
  | Line966 _ => 12 | Line967 _ => 11 | Line978 _ => 10 | Line979 _ _ => 9
  | Line969 _ | Line980 _ _ => 8
  | Line970 _ _ | Line981 _ _ _ => 7
  | Line972 _ _ | Line982 _ _ _ => 6
  | Line973 _ | Line983 _ _ => 5
  | Line974 _ | Line984 _ => 4
  | Line974_store _ _ | Line984_store _ _ => 3
  | Exit966 _ _ => 2
  | Line988 => 1
  | Line1072 => 2 | Line1075 => 1
  | Line404 => 2 | Line405 => 1
  | Line1133 _ => 9 | Line1134 _ => 8 | Line1138 _ => 7 | Line1139 _ _ => 6
  | Line1140 _ _ => 5 | Line1141 _ _ => 4 | Line1135 _ => 4
  | Exit1133 _ _ => 3 | Line1143 _ => 2 | Line1175 _ => 1
  | Line1347 _ => 6 | Line1348 _ => 5 | Line1353 _ => 4 | Line1354 _ _ => 3
  | Line1357 _ _ => 2 | Line1349 _ => 2 | Exit1347 _ => 1
  | Returned _ | Finished => 0
  end.

(** The steps all threads together have left at most. *)
Definition steps_left (s : state) : nat :=
  map_fold (fun _ th n => remaining (th_pc th) + n) 0 (st_threads s).

(** ** Bucket names *)

Module Py.

(** [s.replace(old, '')] for a non-empty [old]: the occurrences of [old]
    are found from left to right and do not overlap. [skip] counts the
    characters of an occurrence that are still to be dropped. *)
Fixpoint remove_from (old : string) (skip : nat) (s : string) : string :=
  match s with
  | EmptyString => EmptyString
  | String c s' =>
      match skip with
      | S k => remove_from old k s'
      | O =>
          if String.prefix old s then remove_from old (String.length old - 1) s'
          else String c (remove_from old 0 s')
      end
  end.
Definition remove (old s : string) : string := remove_from old 0 s.

(** [s.replace(c, d)] for single characters. *)
Fixpoint replace_char (c d : Ascii.ascii) (s : string) : string :=
  match s with
  | EmptyString => EmptyString
  | String x s' => String (if bool_decide (x = c) then d else x) (replace_char c d s')
  end.

(** [s.rstrip(c)] *)
Fixpoint rstrip (c : Ascii.ascii) (s : string) : string :=
  match s with
  | EmptyString => EmptyString
  | String x s' =>
      match rstrip c s' with
      | EmptyString => if bool_decide (x = c) then EmptyString else String x EmptyString
      | r => String x r
      end
  end.

End Py.

(** [bucket.replace('gs://', '').replace('/', '_').rstrip('_')], the name
    of the directory of a configured bucket (lines 454, 504, 1117, 1415). *)
Definition bucket_name_of (bucket : string) : string :=
  Py.rstrip "_" (Py.replace_char "/" "_" (Py.remove "gs://" bucket)).

(** ** [discover_symbols_in_bucket] *)

(** What discovery reports for one data file. [freshness] is the constant
    ['fresh']; the wall-clock fields [last_update] and [minutes_ago] are
    left out. *)
Record discovered := mkDiscovered {
  d_symbol : string;
  d_pair : string;
  d_ts_id : string;
  d_t_id : string;
  d_filename : string
}.

(** [parts[1]] when [hedge_symbol.split('-')] has at least two parts. *)
Definition quote_symbol (hedge_symbol : string) : option string :=
  match Str.split_once "-"%char hedge_symbol with
  | Some (_, rest) => Some (base_symbol rest)
  | None => None
  end.

(** Lines 664-681: the part of the hedge symbol before the first dash, or,
    when there is no hedge symbol or that part is empty, the entry of the
    id in [ts_id_mapping] of [config.json], [TS-<id>] by default. The
    mapping is empty when the file cannot be read. *)
Definition discovered_symbol (fs : FileSystem) (ts_id_mapping : gmap string string)
    (bucket_path ts_id : string) : string :=
  match truthy (base_symbol <$> truthy (fs_hedge_symbol fs bucket_path ts_id)) with
  | Some symbol_name => symbol_name
  | None => default ("TS-" +:+ ts_id) (ts_id_mapping !! ts_id)
  end.

(** Lines 695-699. *)
Definition discovered_pair (fs : FileSystem) (bucket_path ts_id : string) : string :=
  default "USD" (truthy (fs_hedge_symbol fs bucket_path ts_id) ≫= quote_symbol).

(** The data files of a listing: lines 657-659. *)
Definition data_files (filenames : list string) : list (string * (string * string)) :=
  omap (fun filename =>
          if is_data_csv filename
          then pair filename <$> pattern_match filename else None)
    filenames.

(** Lines 656-712. [None] is the exception of [os.listdir] or of [os.stat],
    which the function does not catch. *)
Definition discover_symbols_in_bucket (fs : FileSystem)
    (ts_id_mapping : gmap string string) (bucket_path : string)
    : option (list discovered) :=
  filenames ← fs_listdir fs bucket_path;
  mapM (fun '(filename, (ts_id, t_id)) =>
          _ ← fs_getmtime fs (path_join bucket_path filename);
          Some (mkDiscovered
                  (discovered_symbol fs ts_id_mapping bucket_path ts_id)
                  (discovered_pair fs bucket_path ts_id) ts_id t_id filename))
    (data_files filenames).

(** The part of a discovered entry that [process_symbol] reads. *)
Definition sym_info_of (d : discovered) : sym_info :=
  mkSymInfo (d_symbol d) (d_ts_id d) (d_filename d).

(** ** [get_bucket_symbols] *)

(** [list.sort(key=...)]: a stable sort, here by insertion from the right;
    [leb] compares the keys. *)
Fixpoint insert_sorted {A} (leb : A → A → bool) (x : A) (l : list A) : list A :=
  match l with
  | [] => [x]
  | y :: l' => if leb x y then x :: l else y :: insert_sorted leb x l'
  end.
Definition stable_sort {A} (leb : A → A → bool) (l : list A) : list A :=
  foldr (insert_sorted leb) [] l.

Inductive freshness := Fresh | Stale | VeryStale.

(** The literals [1.167] and [2.167]. *)
Definition lit_1_167 : float := Eval vm_compute in F64.div (F64.of_Z 1167) (F64.of_Z 1000).
Definition lit_2_167 : float := Eval vm_compute in F64.div (F64.of_Z 2167) (F64.of_Z 1000).

(** Lines 806-811. *)
Definition freshness_of (hours_old : float) : freshness :=
  if F64.leb hours_old lit_1_167 then Fresh
  else if F64.leb hours_old lit_2_167 then Stale else VeryStale.

(** One entry of the answer; the size of the file and the time of its last
    modification are left out. *)
Record bucket_symbol := mkBucketSymbol {
  bs_symbol : string;
  bs_display_name : string;
  bs_pair : option string;
  bs_ts_id : string;
  bs_t_id : string;
  bs_filename : string;
  bs_status : freshness
}.

(** Lines 775-839 for one file name of the listing. [hours_old] is the age
    of a file in hours by [os.stat] and the clock, [None] when [os.stat]
    raises, in which case the file is skipped. *)
Definition bucket_symbol_of (fs : FileSystem) (hours_old : string → option float)
    (bucket_path filename : string) : option bucket_symbol :=
  if is_data_csv filename then
    '(ts_id, t_id) ← pattern_match filename;
    let hedge_symbol := truthy (fs_hedge_symbol fs bucket_path ts_id) in
    let symbol_name := symbol_name_of fs bucket_path ts_id in
    age ← hours_old (path_join bucket_path filename);
    let pair := hedge_symbol ≫= quote_symbol in
    let display_name :=
      match pair with
      | Some p => symbol_name +:+ " (" +:+ p +:+ ")"
      | None => symbol_name
      end in
    Some (mkBucketSymbol symbol_name display_name pair ts_id t_id filename
            (freshness_of age))
  else None.

(** Lines 718-844. [fs_listdir] answers [None] exactly when the directory
    does not exist, so the retry of lines 765-773 has nothing to retry. *)
Definition get_bucket_symbols (fs : FileSystem) (hours_old : string → option float)
    (bucket : string) : http (list bucket_symbol) :=
  let bucket_path := path_join LOCAL_ROOT bucket in
  match fs_listdir fs bucket_path with
  | None => NotFound404 "Bucket not found"
  | Some filenames =>
      Ok200 (stable_sort (fun x y => bool_decide (String.le (bs_symbol x) (bs_symbol y)))
               (omap (bucket_symbol_of fs hours_old bucket_path) filenames))
  end.

(** ** [calculate_metrics] and the answer of [get_bucket_data] *)

(** The dictionary [calculate_metrics] fills for a frame with rows; the
    last timestamp is held as a timestamp, not as its text. *)
Record metrics := mkMetricsDict {
  mt_last_price : float;
  mt_last_position : float;
  mt_cumulative_return : float;
  mt_max_return : float;
  mt_cumulative_return_after_fees : float;
  mt_max_return_after_fees : float;
  mt_total_fees : float;
  mt_total_points : nat;
  mt_displayed_points : nat;
  mt_last_timestamp : Z
}.

(** [x * 100] on a column. *)
Definition percent (s : list float) : list float :=
  (fun x => F64.mul x F64.hundred) <$> s.

(** Lines 278-314. The outer [None] is an exception (a missing or
    non-numeric column), [Some None] the empty dictionary of a frame
    without rows. *)
Definition calculate_metrics (df : DataFrame) : option (option metrics) :=
  if (0 <? df_len df)%nat then
    last_price ←
      float_column df (if has_column df "close" then "close" else "Close")
      ≫= fun s => iloc s (-1);
    last_position ←
      (if has_column df "position"
       then float_column df "position" ≫= fun s => iloc s (-1)
       else if has_column df "Position"
       then float_column df "Position" ≫= fun s => iloc s (-1)
       else Some F64.zero);
    '(cumulative_return, max_return) ←
      (if has_column df "cumulative_return" then
         s ← float_column df "cumulative_return";
         x ← iloc s (-1);
         Some (F64.mul x F64.hundred, F64.mul (series_max s) F64.hundred)
       else Some (F64.zero, F64.zero));
    '(after_fees, max_after_fees, total_fees) ←
      (if has_column df "cumulative_return_after_fees" then
         s ← float_column df "cumulative_return_after_fees";
         x ← iloc s (-1);
         let after_fees := F64.mul x F64.hundred in
         Some (after_fees, F64.mul (series_max s) F64.hundred,
               F64.sub cumulative_return after_fees)
       else Some (cumulative_return, max_return, F64.zero));
    last_timestamp ← time_column df (timestamp_col df) ≫= last;
    Some (Some (mkMetricsDict last_price last_position cumulative_return max_return
                  after_fees max_after_fees total_fees
                  (df_len df) (df_len df `min` 5000) last_timestamp))
  else Some None.

(** [request.args.get('resolution', 'hourly')]: ['minutely'], or anything
    else. *)
Inductive resolution := Minutely | Hourly.

(** The lists of the answer with its metrics; the fields that repeat the
    request or are constant are left out. *)
Record chart := mkChart {
  ch_timestamps : list Z;
  ch_prices : list float;
  ch_positions : list float;
  ch_cumulative_returns : list float;
  ch_cumulative_returns_after_fees : list float;
  ch_metrics : option metrics
}.

(** Lines 990-1021 on the cached frame; [None] is an exception. *)
Definition chart_of (df : DataFrame) (res : resolution) : option chart :=
  metrics ← calculate_metrics df;
  df_display ←
    match res with
    | Minutely => Some df
    | Hourly => get_resampled_data df (Some P1h)
    end;
  let close_col := if has_column df_display "close" then "close" else "Close" in
  let position_col :=
    if has_column df_display "position" then "position" else "Position" in
  timestamps ← time_column df_display (timestamp_col df_display);
  prices ← float_column df_display close_col;
  positions ←
    (if has_column df_display position_col
     then float_column df_display position_col else Some []);
  cumulative_returns ←
    (if has_column df_display "cumulative_return"
     then percent <$> float_column df_display "cumulative_return" else Some []);
  cumulative_returns_after_fees ←
    (if has_column df_display "cumulative_return_after_fees"
     then percent <$> float_column df_display "cumulative_return_after_fees"
     else Some []);
  Some (mkChart timestamps prices positions cumulative_returns
          cumulative_returns_after_fees metrics).

(** [get_bucket_data] with its answer: an exception while the answer is
    built is answered with 500. *)
Definition get_bucket_data_chart (fs : FileSystem) (bucket symbol : string)
    (res : resolution) (st : Cache) : http chart * Cache :=
  match get_bucket_data fs bucket symbol st with
  | (Ok200 df, st') =>
      match chart_of df res with
      | Some c => (Ok200 c, st')
      | None => (ServerError500 "Internal Server Error", st')
      end
  | (NotFound404 e, st') => (NotFound404 e, st')
  | (ServerError500 e, st') => (ServerError500 e, st')
  end.

(** ** [get_all_cumulative_returns] *)

(** Line 1341: the key of the aggregate chart, with an underscore where
    the other handlers have a slash. *)
Definition returns_cache_key (bucket_name ts_id : string) : string :=
  bucket_name +:+ "_TS-" +:+ ts_id.

(** Lines 1341-1357, under the lock of the key: the frame of a symbol, and
    [None] when its file loads without rows. *)
Definition load_for_returns (fs : FileSystem) (bucket_name : string)
    (d : discovered) (st : Cache) : option DataFrame * Cache :=
  let cache_key := returns_cache_key bucket_name (d_ts_id d) in
  match DATA_CACHE st !! cache_key with
  | Some df => (Some df, st)
  | None =>
      let csv_path := path_join (path_join LOCAL_ROOT bucket_name) (d_filename d) in
      let df := load_csv_data_from_path fs csv_path in
      let st := record_load csv_path st in
      if df_empty df then (None, st) else (Some df, set_data cache_key df st)
  end.

(** [s.iloc[::step]]: the rows 0, [step], 2 [step], ...; [wait] counts
    the rows to pass over before the next one that is taken. *)
Fixpoint every_nth {A} (step wait : nat) (l : list A) : list A :=
  match l with
  | [] => []
  | x :: l' =>
      match wait with
      | O => x :: every_nth step (step - 1) l'
      | S w => every_nth step w l'
      end
  end.
Definition iloc_step {A} (step : nat) (l : list A) : list A := every_nth step 0 l.

Definition max_points : nat := 500.

(** Lines 1374-1380 on one column. *)
Definition sample_rows {A} (l : list A) : list A :=
  if (max_points <? length l)%nat then iloc_step (length l / max_points) l else l.


(** * Properties *)

(** ** Frames and columns *)

Lemma float_column_length df name xs :
  well_formed df → float_column df name = Some xs → length xs = df_len df.
Proof.
  intros Hwf H. unfold float_column in H.
  destruct (df_columns df !! name) as [[]|] eqn:E; simplify_eq. by apply (Hwf _ _ E).
Qed.

Lemma time_column_length df name ts :
  well_formed df → time_column df name = Some ts → length ts = df_len df.
Proof.
  intros Hwf H. unfold time_column in H.
  destruct (df_columns df !! name) as [[]|] eqn:E; simplify_eq. by apply (Hwf _ _ E).
Qed.

Lemma float_column_set_eq name xs df :
  float_column (set_column name (FloatCol xs) df) name = Some xs.
Proof. unfold float_column, set_column; simpl. by rewrite lookup_insert_eq. Qed.

Lemma float_column_set_ne name name' c df :
  name ≠ name' → float_column (set_column name c df) name' = float_column df name'.
Proof. intros. unfold float_column, set_column; simpl. by rewrite lookup_insert_ne. Qed.

Lemma has_column_set_eq name c df : has_column (set_column name c df) name = true.
Proof.
  unfold has_column, set_column; simpl. rewrite lookup_insert_eq.
  by apply bool_decide_eq_true.
Qed.

Lemma has_column_set_ne name name' c df :
  name ≠ name' → has_column (set_column name c df) name' = has_column df name'.
Proof. intros. unfold has_column, set_column; simpl. by rewrite lookup_insert_ne. Qed.

(** A concrete frame is well formed by evaluation. *)
Ltac well_formed_by_eval :=
  unfold well_formed; apply (bool_decide_unpack _); vm_compute; exact I.

(** ** Series operations keep the row count *)

Lemma shift_length (s : list float) : length (Series.shift s) = length s.
Proof. unfold Series.shift. rewrite length_take. simpl. lia. Qed.

Lemma ffill_from_length v (s : list float) :
  length (Series.ffill_from v s) = length s.
Proof. revert v. induction s as [|x s IH]; intros v; simpl; [done|]. by rewrite IH. Qed.

Lemma pct_change_length (s : list float) : length (Series.pct_change s) = length s.
Proof.
  unfold Series.pct_change, Series.ffill.
  rewrite length_zip_with, shift_length, !ffill_from_length. lia.
Qed.

Lemma diff_length (s : list float) : length (Series.diff s) = length s.
Proof. unfold Series.diff. rewrite length_zip_with, shift_length. lia. Qed.

Lemma cumprod_from_length acc (s : list float) :
  length (Series.cumprod_from acc s) = length s.
Proof.
  revert acc. induction s as [|x s IH]; intros acc; simpl; [done|]. by rewrite IH.
Qed.

Lemma capped_cumulative_length (s : list float) :
  length (capped_cumulative s) = length s.
Proof.
  unfold capped_cumulative, Series.fillna, Series.clip, Series.sub_scalar,
    Series.cumprod, Series.radd.
  by rewrite !length_fmap, cumprod_from_length, length_fmap.
Qed.

Lemma loc_assign_length mask (old new : list float) :
  length (Series.loc_assign mask old new) = length old.
Proof.
  revert old new.
  induction mask as [|m mask IH]; intros [|o old] [|n new]; simpl; try done.
  by rewrite IH.
Qed.

Lemma derive_lengths fee (close position : list float) n :
  length close = n → length position = n →
  length (cumulative_return (derive fee close position)) = n
  ∧ length (cumulative_return_after_fees (derive fee close position)) = n
  ∧ length (transaction_cost (derive fee close position)) = n.
Proof.
  intros Hc Hp. unfold derive;
    cbn [cumulative_return cumulative_return_after_fees transaction_cost].
  rewrite !capped_cumulative_length.
  unfold Series.sub, Series.mul, Series.fillna, Series.replace_inf.
  rewrite ?length_zip_with, ?length_fmap, ?length_zip_with, ?length_fmap,
    ?loc_assign_length, ?length_replicate, ?pct_change_length, ?shift_length, ?Hc, ?Hp.
  lia.
Qed.

(** ** The cap on cumulative returns *)

(** Whatever the running product is (a number, an infinity or NaN),
    clipping it and filling NaN with 0 lands inside the cap. *)
Lemma clip1_fillna_in_cap (x : float) :
  in_cap (let y := Series.clip1 clip_lower clip_upper x in
          if F64.isnan y then F64.zero else y).
Proof.
  unfold Series.clip1.
  destruct (F64.isnan x) eqn:Hnan.
  - destruct x; try discriminate. simpl. split; reflexivity.
  - simpl orb.
    destruct (F64.geb x clip_lower) eqn:Hge, (F64.leb x clip_upper) eqn:Hle;
      cbn zeta; rewrite ?Hnan;
      try (split; [assumption || reflexivity | assumption || reflexivity]).
Qed.

Lemma capped_cumulative_in_cap (s : list float) :
  Forall in_cap (capped_cumulative s).
Proof.
  unfold capped_cumulative, Series.fillna, Series.clip.
  rewrite <- list_fmap_compose. apply Forall_fmap, Forall_forall.
  intros x _. apply clip1_fillna_in_cap.
Qed.

(** The block of lines 171-223 runs on a frame with numeric [close] and
    [position] columns, and stores the columns of [derive]. *)
Lemma calculate_cumulative_returns_derive fee df close position :
  needs_derived df = true →
  float_column df "close" = Some close →
  float_column df "position" = Some position →
  ∃ df', calculate_cumulative_returns fee df = Some df'
    ∧ float_column df' "cumulative_return"
      = Some (cumulative_return (derive fee close position))
    ∧ float_column df' "cumulative_return_after_fees"
      = Some (cumulative_return_after_fees (derive fee close position))
    ∧ float_column df' "transaction_cost"
      = Some (transaction_cost (derive fee close position))
    ∧ float_column df' "strategy_returns"
      = Some (strategy_returns (derive fee close position))
    ∧ float_column df' "strategy_returns_after_fees"
      = Some (strategy_returns_after_fees (derive fee close position)).
Proof.
  intros Hg Hc Hp. unfold calculate_cumulative_returns.
  rewrite Hg, Hc, Hp. simpl. eexists. split; [reflexivity|].
  repeat split;
    repeat first [ apply float_column_set_eq
                 | rewrite float_column_set_ne by done ].
Qed.

(** C1: whenever [load_csv_data_from_path] computes the derived columns
    (no [cumulative_return] column in the file, [position] and [close]
    present), the frame it returns has a [cumulative_return] and a
    [cumulative_return_after_fees] value for every sample, and each of
    these values lies between -0.99 and 1.00, bounds included. *)
Theorem C1_cumulative_returns_clamped fs csv_path df close position :
  fs_read_csv fs csv_path = Some df →
  well_formed df →
  needs_derived df = true →
  float_column df "close" = Some close →
  float_column df "position" = Some position →
  ∃ cr cra,
    float_column (load_csv_data_from_path fs csv_path) "cumulative_return" = Some cr
    ∧ float_column (load_csv_data_from_path fs csv_path)
        "cumulative_return_after_fees" = Some cra
    ∧ length cr = df_len df ∧ length cra = df_len df
    ∧ Forall in_cap cr ∧ Forall in_cap cra.
Proof.
  intros Hread Hwf Hg Hc Hp.
  destruct (calculate_cumulative_returns_derive (fee_percent_of fs) df close position)
    as (df' & Hcalc & Hcr & Hcra & _); [done..|].
  unfold load_csv_data_from_path. rewrite Hread, Hcalc. simpl.
  pose proof (float_column_length _ _ _ Hwf Hc) as Hlc.
  pose proof (float_column_length _ _ _ Hwf Hp) as Hlp.
  destruct (derive_lengths (fee_percent_of fs) close position _ Hlc Hlp) as (L1 & L2 & _).
  eexists _, _. repeat split; [exact Hcr | exact Hcra | done | done | |];
    apply capped_cumulative_in_cap.
Qed.

Lemma C1_cumulative_returns_clamped_witness :
  ∃ cr cra,
    float_column (load_csv_data_from_path two_symbol_fs btc_path) "cumulative_return"
      = Some cr
    ∧ float_column (load_csv_data_from_path two_symbol_fs btc_path)
        "cumulative_return_after_fees" = Some cra
    ∧ length cr = df_len (two_rows 100 110) ∧ length cra = df_len (two_rows 100 110)
    ∧ Forall in_cap cr ∧ Forall in_cap cra.
Proof.
  apply (C1_cumulative_returns_clamped two_symbol_fs btc_path (two_rows 100 110)
           [F64.of_Z 100; F64.of_Z 110] [F64.zero; F64.zero]).
  - vm_compute; reflexivity.
  - well_formed_by_eval.
  - vm_compute; reflexivity.
  - vm_compute; reflexivity.
  - vm_compute; reflexivity.
Defined.

(** ** Transaction costs *)

(** The first row of every series is flagged as a trade: [diff] leaves NaN
    there, and [NaN != 0] holds. Its cost is therefore NaN, whatever the
    fee. *)
Lemma transaction_cost_first_row fee c close p position :
  head (transaction_cost (derive fee (c :: close) (p :: position))) = Some F64.nan
  ∧ head (is_trade (derive fee (c :: close) (p :: position))) = Some true.
Proof.
  unfold derive; cbn [transaction_cost is_trade].
  unfold Series.diff, Series.shift. cbn [length take zip_with].
  assert (F64.sub p F64.nan = F64.nan) as -> by (by destruct p).
  unfold Series.ne, Series.abs, Series.rmul. cbn [fmap list_fmap replicate].
  cbn [Series.loc_assign head].
  split; [|reflexivity].
  change (F64.neb F64.nan F64.zero) with true. cbn iota.
  f_equal. change (F64.abs F64.nan) with F64.nan.
  by destruct (F64.div fee F64.hundred).
Qed.

(** A row that is not flagged as a trade costs nothing. *)
Lemma loc_assign_unflagged (mask : list bool) (old new : list float) t o :
  mask !! t = Some false → old !! t = Some o →
  Series.loc_assign mask old new !! t = Some o.
Proof.
  revert old new t.
  induction mask as [|m mask IH]; intros [|x old] [|n new] t Hm Ho;
    destruct t; simplify_eq/=; try done.
  by apply IH.
Qed.

Lemma transaction_cost_without_trade fee close position t :
  is_trade (derive fee close position) !! t = Some false →
  t < length close →
  transaction_cost (derive fee close position) !! t = Some F64.zero.
Proof.
  intros Hflag Ht. unfold derive in *; cbn [transaction_cost is_trade] in *.
  apply loc_assign_unflagged; [done|]. by apply lookup_replicate_2.
Qed.

(** C3: on a series of two samples whose position never changes, with the
    default fee of 0.05, the derived-column computation leaves NaN as the
    transaction cost of the first sample (so the cost is neither 0 nor
    [>= 0] there) and NaN as its strategy return after fees, which differs
    from its strategy return 0. The claim asks for cost 0 and equal returns
    at every sample. *)
Theorem C3_first_sample_cost_is_nan :
  let out := calculate_cumulative_returns F64.lit_0_05 (two_rows 100 110) in
  out ≫= (fun df => float_column df "position") = Some [F64.zero; F64.zero]
  ∧ out ≫= (fun df => float_column df "transaction_cost") = Some [F64.nan; F64.zero]
  ∧ out ≫= (fun df => float_column df "strategy_returns") = Some [F64.zero; F64.zero]
  ∧ out ≫= (fun df => float_column df "strategy_returns_after_fees")
    = Some [F64.nan; F64.zero]
  ∧ F64.geb F64.nan F64.zero = false
  ∧ F64.eqb F64.zero F64.nan = false.
Proof. vm_compute. repeat split; reflexivity. Qed.

(** ** Idempotence of the Metrics Engine *)

(** C4: a frame that already carries [cumulative_return] comes back from
    the derived-column computation exactly as it went in, and running the
    computation on its own output changes nothing: twice is the same as
    once, also when the block raises. *)
Theorem C4_metrics_engine_idempotent fee fee' df :
  (has_column df "cumulative_return" = true →
     calculate_cumulative_returns fee df = Some df)
  ∧ calculate_cumulative_returns fee df ≫= calculate_cumulative_returns fee'
    = calculate_cumulative_returns fee df.
Proof.
  split.
  - intros H. unfold calculate_cumulative_returns, needs_derived. by rewrite H.
  - unfold calculate_cumulative_returns at 2 3.
    destruct (needs_derived df) eqn:Hg.
    + destruct (float_column df "close") as [close|]; [|done].
      destruct (float_column df "position") as [position|]; [|done].
      simpl. unfold calculate_cumulative_returns, needs_derived.
      rewrite !has_column_set_ne by done. by rewrite has_column_set_eq.
    + simpl. unfold calculate_cumulative_returns. by rewrite Hg.
Qed.

Lemma C4_metrics_engine_idempotent_witness :
  has_column derived_rows "cumulative_return" = true
  ∧ calculate_cumulative_returns F64.lit_0_05 derived_rows = Some derived_rows
  ∧ calculate_cumulative_returns F64.lit_0_05 (two_rows 100 110)
      ≫= calculate_cumulative_returns F64.lit_0_05
    = calculate_cumulative_returns F64.lit_0_05 (two_rows 100 110).
Proof.
  split; [vm_compute; reflexivity|]. split.
  - apply (proj1 (C4_metrics_engine_idempotent F64.lit_0_05 F64.lit_0_05 derived_rows)).
    vm_compute; reflexivity.
  - apply (proj2 (C4_metrics_engine_idempotent F64.lit_0_05 F64.lit_0_05
                    (two_rows 100 110))).
Defined.

(** ** Staleness and reload *)

(** C5: for a cached key with a stored modification time, the locked
    section of [get_bucket_data] and the body of [refresh_data_cache] call
    the loader exactly when the modification time they observe is
    strictly newer than the stored one, and never otherwise. When the
    loader then yields an empty frame, the cached frame, the stored
    modification time and the version stay as they were, and
    [get_bucket_data] serves the cached frame instead of an error.
    A cached key without a stored modification time (the state
    [os.path.getmtime] leaves when it fails after the store of line 972 or
    1140) is reloaded by [get_bucket_data] without a comparison (line
    967), and an empty frame is then answered with the error of line 971,
    the cache staying as it was; [refresh_data_cache] compares with 0
    (line 265). The claim has the first part for every cached key. *)
Theorem C5_reload_only_when_newer fs cache_key csv_path st df_old current_mtime :
  DATA_CACHE st !! cache_key = Some df_old →
  fs_getmtime fs csv_path = Some current_mtime →
  let after_get := refresh_if_stale fs cache_key csv_path st in
  let after_refresh := refresh_entry fs cache_key csv_path st in
  match LAST_MODIFIED st !! cache_key with
  | Some stored =>
      loads (snd after_get)
        = (if F64.gtb current_mtime stored then loads st ++ [csv_path] else loads st)
      ∧ loads after_refresh
        = (if F64.ltb stored current_mtime then loads st ++ [csv_path] else loads st)
      ∧ (df_empty (load_csv_data_from_path fs csv_path) = true →
           fst after_get = Ok200 df_old
           ∧ DATA_CACHE (snd after_get) = DATA_CACHE st
           ∧ LAST_MODIFIED (snd after_get) = LAST_MODIFIED st
           ∧ data_version (snd after_get) = data_version st
           ∧ DATA_CACHE after_refresh = DATA_CACHE st
           ∧ LAST_MODIFIED after_refresh = LAST_MODIFIED st
           ∧ data_version after_refresh = data_version st)
  | None =>
      loads (snd after_get) = loads st ++ [csv_path]
      ∧ loads after_refresh
        = (if F64.ltb F64.zero current_mtime then loads st ++ [csv_path] else loads st)
      ∧ (df_empty (load_csv_data_from_path fs csv_path) = true →
           fst after_get = ServerError500 "Failed to load data"
           ∧ DATA_CACHE (snd after_get) = DATA_CACHE st
           ∧ LAST_MODIFIED (snd after_get) = LAST_MODIFIED st
           ∧ data_version (snd after_get) = data_version st
           ∧ DATA_CACHE after_refresh = DATA_CACHE st
           ∧ LAST_MODIFIED after_refresh = LAST_MODIFIED st
           ∧ data_version after_refresh = data_version st)
  end.
Proof.
  intros Hd Ht. cbn zeta.
  unfold refresh_if_stale, refresh_entry, serve. rewrite Hd, Ht.
  destruct (LAST_MODIFIED st !! cache_key) as [stored|]; simpl.
  - rewrite lookup_insert_eq, Hd.
    destruct (F64.gtb current_mtime stored), (F64.ltb stored current_mtime),
      (df_empty (load_csv_data_from_path fs csv_path)); simpl;
      repeat split; done.
  - destruct (F64.ltb F64.zero current_mtime),
      (df_empty (load_csv_data_from_path fs csv_path)); simpl;
      rewrite ?lookup_insert_eq; simpl; repeat split; done.
Qed.

Lemma C5_reload_only_when_newer_witness :
  let after_get := refresh_if_stale two_symbol_fs "demo/TS-1" btc_path demo_cache in
  let after_refresh := refresh_entry two_symbol_fs "demo/TS-1" btc_path demo_cache in
  loads (snd after_get)
    = (if F64.gtb F64.one F64.zero then loads demo_cache ++ [btc_path]
       else loads demo_cache)
  ∧ loads after_refresh
    = (if F64.ltb F64.zero F64.one then loads demo_cache ++ [btc_path]
       else loads demo_cache)
  ∧ (df_empty (load_csv_data_from_path two_symbol_fs btc_path) = true →
       fst after_get = Ok200 (two_rows 100 105)
       ∧ DATA_CACHE (snd after_get) = DATA_CACHE demo_cache
       ∧ LAST_MODIFIED (snd after_get) = LAST_MODIFIED demo_cache
       ∧ data_version (snd after_get) = data_version demo_cache
       ∧ DATA_CACHE after_refresh = DATA_CACHE demo_cache
       ∧ LAST_MODIFIED after_refresh = LAST_MODIFIED demo_cache
       ∧ data_version after_refresh = data_version demo_cache).
Proof.
  apply (C5_reload_only_when_newer two_symbol_fs "demo/TS-1" btc_path demo_cache
           (two_rows 100 105) F64.one).
  - vm_compute; reflexivity.
  - vm_compute; reflexivity.
Defined.

(** A first request while [os.path.getmtime] fails caches the frame of
    the first symbol without a modification time and is answered with an
    error; a second request, when the file no longer loads, is a request
    for a cached key: it calls the loader without any comparison of
    times and is answered with an error, where the claim has the cached
    frame served. *)
Lemma C5_counterexample :
  let first := get_bucket_data no_mtime_fs "demo" "TS-1" empty_cache in
  let second := get_bucket_data emptied_fs "demo" "TS-1" first.2 in
  DATA_CACHE first.2 !! "demo/TS-1"
    = Some (load_csv_data_from_path no_mtime_fs btc_path)
  ∧ df_empty (load_csv_data_from_path no_mtime_fs btc_path) = false
  ∧ LAST_MODIFIED first.2 !! "demo/TS-1" = None
  ∧ fs_getmtime emptied_fs btc_path = Some F64.one
  ∧ df_empty (load_csv_data_from_path emptied_fs btc_path) = true
  ∧ loads second.2 = loads first.2 ++ [btc_path]
  ∧ second.1 = ServerError500 "Failed to load data"
  ∧ DATA_CACHE second.2 = DATA_CACHE first.2.
Proof. repeat split; vm_compute; reflexivity. Qed.

(** ** The incremental endpoint *)

(** On a column in time order, the mask [timestamp > last_dt] is a run of
    [false] followed by a run of [true]. *)
Lemma newer_mask_sorted (last_dt : Z) (ts : list Z) :
  Sorted Z.le ts →
  ∃ n, (n ≤ length ts)%nat
    ∧ newer_mask last_dt ts = replicate n false ++ replicate (length ts - n) true
    ∧ Forall (fun t => (t ≤ last_dt)%Z) (take n ts)
    ∧ Forall (fun t => (last_dt < t)%Z) (drop n ts).
Proof.
  intros Hs. apply Sorted_StronglySorted in Hs; [|intros x y z; apply Z.le_trans].
  induction Hs as [|t ts Hs IH Hall].
  - exists 0%nat. simpl. repeat split; constructor.
  - destruct (decide (last_dt < t)%Z) as [Hlt|Hge].
    + exists 0%nat. simpl. split; [lia|]. split; [|split].
      * rewrite bool_decide_eq_true_2 by done. f_equal.
        unfold newer_mask. clear IH Hs.
        induction ts as [|u ts IHts]; [done|]. simpl.
        apply Forall_cons in Hall as [Htu Hall].
        rewrite bool_decide_eq_true_2 by lia. f_equal. by apply IHts.
      * constructor.
      * constructor; [done|]. eapply Forall_impl; [exact Hall|]. simpl. intros; lia.
    + destruct IH as (n & Hn & Hmask & Htake & Hdrop).
      exists (S n). simpl. split; [lia|]. split; [|split].
      * rewrite bool_decide_eq_false_2 by done. f_equal. exact Hmask.
      * constructor; [lia|done].
      * done.
Qed.

Lemma select_run {A} (n m : nat) (xs : list A) :
  length xs = (n + m)%nat →
  Series.select (replicate n false ++ replicate m true) xs = drop n xs.
Proof.
  revert xs. induction n as [|n IH]; intros xs Hl; simpl.
  - revert xs Hl. induction m as [|m IHm]; intros [|x xs] Hl; simpl in *; try done.
    f_equal. apply IHm. lia.
  - destruct xs as [|x xs]; simpl in *; [done|]. apply IH. lia.
Qed.

Lemma select_newer_filter (last_dt : Z) (ts : list Z) :
  Series.select (newer_mask last_dt ts) ts = filter (fun t => (last_dt < t)%Z) ts.
Proof.
  induction ts as [|t ts IH]; [done|]. simpl.
  rewrite filter_cons. destruct (decide (last_dt < t)%Z).
  - rewrite bool_decide_eq_true_2 by done. by rewrite IH.
  - rewrite bool_decide_eq_false_2 by done. done.
Qed.

Lemma optional_column_select df name mask n m :
  well_formed df → numeric_or_absent df name →
  mask = replicate n false ++ replicate m true → df_len df = (n + m)%nat →
  (if has_column df name
   then Series.select mask <$> float_column df name else Some [])
  = Some (from_option (drop n) [] (float_column df name)).
Proof.
  intros Hwf [Habs|[xs Hxs]] -> Hlen.
  - unfold has_column, float_column. rewrite Habs.
    rewrite bool_decide_eq_false_2; [done|]. by intros [? ?].
  - assert (float_column df name = Some xs) as Hf by (unfold float_column; by rewrite Hxs).
    unfold has_column. rewrite Hxs, bool_decide_eq_true_2 by eauto.
    rewrite Hf. simpl. f_equal. apply select_run.
    rewrite (float_column_length df name xs Hwf Hf). done.
Qed.

(** C6: for a cached series (timestamps in order, a price column, optional
    numeric position and cumulative-return columns) and a watermark [t0],
    the incremental endpoint answers with exactly the rows whose timestamp
    is greater than [t0]. These rows are the rows from some position [n]
    on: every row before [n] is at or before the watermark, every row from
    [n] on is after it. When no row is newer, in particular when [t0] is
    the timestamp of the last row, the answer is "no new data", not an
    error. The cache is left as it was. *)
Theorem C6_since_is_newer_suffix fs to_datetime bucket symbol last_timestamp
    st df t0 ts close :
  DATA_CACHE st !! since_cache_key fs bucket symbol = Some df →
  to_datetime last_timestamp = Some t0 →
  well_formed df →
  time_column df "timestamp" = Some ts →
  float_column df "close" = Some close →
  numeric_or_absent df "position" →
  numeric_or_absent df "cumulative_return" →
  Sorted Z.le ts →
  ∃ n,
    Forall (fun t => (t ≤ t0)%Z) (take n ts)
    ∧ Forall (fun t => (t0 < t)%Z) (drop n ts)
    ∧ drop n ts = filter (fun t => (t0 < t)%Z) ts
    ∧ get_bucket_data_since fs to_datetime bucket symbol last_timestamp st
      = (Ok200 (suffix_result df ts close n), st)
    ∧ (last ts = Some t0 → suffix_result df ts close n = NoNewData).
Proof.
  intros Hcache Hparse Hwf Hts Hclose Hpos Hcr Hsorted.
  destruct (newer_mask_sorted t0 ts Hsorted) as (n & Hn & Hmask & Htake & Hdrop).
  assert (length ts = df_len df) as Hlts by (by eapply time_column_length).
  assert (length close = df_len df) as Hlc by (by eapply float_column_length).
  assert (Series.select (newer_mask t0 ts) ts = drop n ts) as Hsel.
  { rewrite Hmask. apply select_run. lia. }
  exists n. split; [done|]. split; [done|]. split.
  { rewrite <- Hsel. apply select_newer_filter. }
  split.
  - unfold get_bucket_data_since. rewrite Hcache, Hparse. simpl.
    unfold filter_since. rewrite Hts. simpl. rewrite Hsel.
    unfold suffix_result.
    destruct (drop n ts) as [|t ts'] eqn:Hd; [done|].
    simpl. rewrite Hclose. simpl.
    rewrite (optional_column_select df "position" _ n (length ts - n)); [|done..|lia].
    simpl.
    assert ((if has_column df "cumulative_return"
             then Series.rmul F64.hundred ∘ Series.select (newer_mask t0 ts)
                    <$> float_column df "cumulative_return"
             else Some [])
            = Some (from_option (fun c => Series.rmul F64.hundred (drop n c)) []
                      (float_column df "cumulative_return"))) as ->.
    { destruct Hcr as [Habs|[xs Hxs]].
      - unfold has_column, float_column. rewrite Habs.
        rewrite bool_decide_eq_false_2; [done|]. by intros [? ?].
      - assert (float_column df "cumulative_return" = Some xs) as Hf
          by (unfold float_column; by rewrite Hxs).
        unfold has_column. rewrite Hxs, bool_decide_eq_true_2 by eauto.
        rewrite Hf. simpl. do 2 f_equal. rewrite Hmask. apply select_run.
        rewrite (float_column_length _ _ _ Hwf Hf). lia. }
    simpl. do 4 f_equal. rewrite Hmask. apply select_run. lia.
  - intros Hlast. unfold suffix_result.
    destruct (drop n ts) as [|t ts'] eqn:Hd; [done|]. exfalso.
    assert (last (drop n ts) = Some t0) as Hl.
    { rewrite <- Hlast. rewrite <- (take_drop n ts) at 2.
      rewrite last_app. rewrite Hd.
      by destruct (last (t :: ts')) eqn:E; [|apply last_None in E]. }
    apply last_Some_elem_of in Hl. rewrite Hd in Hl.
    rewrite Forall_forall in Hdrop. specialize (Hdrop _ Hl). lia.
Qed.

Lemma C6_since_is_newer_suffix_witness :
  ∃ n,
    Forall (fun t => (t ≤ 0)%Z) (take n [0; minute_ns]%Z)
    ∧ Forall (fun t => (0 < t)%Z) (drop n [0; minute_ns]%Z)
    ∧ drop n [0; minute_ns]%Z = filter (fun t => (0 < t)%Z) [0; minute_ns]%Z
    ∧ get_bucket_data_since two_symbol_fs epoch_watermark "demo" "TS-1"
        "1970-01-01 00:00:00" demo_cache
      = (Ok200 (suffix_result (two_rows 100 105) [0; minute_ns]%Z
                  [F64.of_Z 100; F64.of_Z 105] n), demo_cache)
    ∧ (last [0; minute_ns]%Z = Some 0%Z →
         suffix_result (two_rows 100 105) [0; minute_ns]%Z
           [F64.of_Z 100; F64.of_Z 105] n = NoNewData).
Proof.
  apply (C6_since_is_newer_suffix two_symbol_fs epoch_watermark "demo" "TS-1"
           "1970-01-01 00:00:00" demo_cache (two_rows 100 105) 0%Z).
  - vm_compute; reflexivity.
  - reflexivity.
  - well_formed_by_eval.
  - vm_compute; reflexivity.
  - vm_compute; reflexivity.
  - right. eexists. vm_compute; reflexivity.
  - left. vm_compute; reflexivity.
  - apply (bool_decide_unpack _). vm_compute; exact I.
Defined.

(** C10: when [DATA_CACHE] has no entry under the key the incremental
    endpoint resolves, the answer is the 404 "not found" error whatever
    the file system holds, the watermark is not even parsed, and the cache
    (its frames, modification times, version and log of loader calls) is
    returned untouched: nothing is loaded and nothing is cached. *)
Theorem C10_since_requires_cached_entry fs to_datetime bucket symbol last_timestamp st :
  DATA_CACHE st !! since_cache_key fs bucket symbol = None →
  get_bucket_data_since fs to_datetime bucket symbol last_timestamp st
  = (NotFound404 ("Symbol " +:+ symbol +:+ " not found in bucket " +:+ bucket), st).
Proof. intros H. unfold get_bucket_data_since. by rewrite H. Qed.

(** The data file of the first symbol is on disk, the cache is empty. *)
Lemma C10_since_requires_cached_entry_witness :
  is_Some (fs_read_csv two_symbol_fs btc_path)
  ∧ get_bucket_data_since two_symbol_fs epoch_watermark "demo" "BTC"
      "1970-01-01 00:00:00" empty_cache
    = (NotFound404 ("Symbol " +:+ "BTC" +:+ " not found in bucket " +:+ "demo"),
       empty_cache).
Proof.
  split; [vm_compute; eauto|].
  apply (C10_since_requires_cached_entry two_symbol_fs epoch_watermark "demo" "BTC"
           "1970-01-01 00:00:00" empty_cache).
  vm_compute; reflexivity.
Defined.

(** ** The resampler *)

(** A bucket with a value holds a row. *)

Lemma last_in_bin_from (b : Z) (rows : list (Z * float)) (acc : float) :
  F64.isnan
    (foldl (fun acc kx => if (kx.1 =? b)%Z && negb (F64.isnan kx.2)
                          then kx.2 else acc) acc rows) = false →
  F64.isnan acc = false ∨ ∃ x, (b, x) ∈ rows.
Proof.
  revert acc. induction rows as [|[k x] rows IH]; intros acc H; simpl in *; [by left|].
  destruct (IH _ H) as [Hacc|[y Hy]].
  - destruct (k =? b)%Z eqn:Hk; simpl in Hacc.
    + apply Z.eqb_eq in Hk as ->. right. exists x. by left.
    + by left.
  - right. exists y. by right.
Qed.

Lemma last_in_bin_elem (b : Z) (rows : list (Z * float)) :
  F64.isnan (last_in_bin b rows) = false → ∃ x, (b, x) ∈ rows.
Proof. intros H. by destruct (last_in_bin_from b rows F64.nan H). Qed.

Lemma seqZ_strongly_sorted (m n : Z) : StronglySorted Z.lt (seqZ m n).
Proof.
  destruct (decide (n ≤ 0)%Z) as [Hn|Hn]; [rewrite seqZ_nil by done; constructor|].
  rewrite <- (Z2Nat.id n) by lia. generalize (Z.to_nat n) as k. clear.
  intros k. revert m. induction k as [|k IH]; intros m.
  - rewrite seqZ_nil by done. constructor.
  - rewrite seqZ_cons by lia. replace (Z.pred (Z.of_nat (S k))) with (Z.of_nat k) by lia.
    constructor; [apply IH|]. apply Forall_seqZ. intros; lia.
Qed.

Lemma span_strongly_sorted (keys : list Z) : StronglySorted Z.lt (span keys).
Proof. destruct keys; [constructor|apply seqZ_strongly_sorted]. Qed.

Lemma span_NoDup (keys : list Z) : NoDup (span keys).
Proof. destruct keys; [constructor|apply NoDup_seqZ]. Qed.

Lemma StronglySorted_filter {A} (R : relation A) (f : A → bool) (l : list A) :
  StronglySorted R l → StronglySorted R (List.filter f l).
Proof.
  induction 1 as [|x l Hs IH Hall]; simpl; [constructor|].
  destruct (f x); [|done]. constructor; [done|].
  rewrite Forall_forall in Hall |- *. intros y Hy.
  apply list_elem_of_In, filter_In in Hy as [Hy _]. by apply Hall, list_elem_of_In.
Qed.

Lemma NoDup_filter_bool {A} (f : A → bool) (l : list A) :
  NoDup l → NoDup (List.filter f l).
Proof.
  induction 1 as [|x l Hx Hl IH]; simpl; [constructor|].
  destruct (f x); [|done]. constructor; [|done].
  intros Hin. apply Hx. by apply list_elem_of_In, filter_In in Hin as [?%list_elem_of_In _].
Qed.

Lemma filter_bool_length {A} (f : A → bool) (l : list A) :
  length (List.filter f l) ≤ length l.
Proof. induction l as [|x l IH]; simpl; [done|]. destruct (f x); simpl; lia. Qed.

Lemma foldr_min_bounds (lo hi k : Z) (l : list Z) :
  Forall (fun x => lo ≤ x ≤ hi)%Z (k :: l) → (lo ≤ foldr Z.min k l ≤ hi)%Z.
Proof.
  intros H. apply Forall_cons in H as [Hk Hl].
  induction Hl as [|x l Hx Hl IH]; simpl; lia.
Qed.

Lemma foldr_max_bounds (lo hi k : Z) (l : list Z) :
  Forall (fun x => lo ≤ x ≤ hi)%Z (k :: l) → (lo ≤ foldr Z.max k l ≤ hi)%Z.
Proof.
  intros H. apply Forall_cons in H as [Hk Hl].
  induction Hl as [|x l Hx Hl IH]; simpl; lia.
Qed.

Lemma span_length_bound (lo hi : Z) (keys : list Z) :
  Forall (fun x => lo ≤ x ≤ hi)%Z keys →
  (Z.of_nat (length (span keys)) ≤ Z.max 0 (hi - lo + 1))%Z.
Proof.
  destruct keys as [|k l]; intros H; simpl; [lia|].
  rewrite length_seqZ.
  pose proof (foldr_min_bounds _ _ _ _ H). pose proof (foldr_max_bounds _ _ _ _ H). lia.
Qed.

(** One-minute series. *)

Lemma minute_timestamps_length start n : length (minute_timestamps start n) = n.
Proof. revert start. induction n as [|n IH]; intros start; simpl; [done|]. by rewrite IH. Qed.

Lemma minute_timestamps_bounds start n :
  Forall (fun t => start ≤ t ≤ start + (Z.of_nat n - 1) * minute_ns)%Z
    (minute_timestamps start n).
Proof.
  revert start. induction n as [|n IH]; intros start; simpl; [constructor|].
  constructor.
  - unfold minute_ns. lia.
  - eapply Forall_impl; [apply IH|]. unfold minute_ns. simpl. intros t. lia.
Qed.

(** The resampled frame: it exists, its timestamps increase, and it has
    at most one row per input row and per bucket. *)

Lemma resample_last_spec (width : Z) (df : DataFrame) (ts : list Z) :
  (0 < width)%Z →
  time_column df (timestamp_col df) = Some ts →
  agg_dict df ≠ [] →
  Forall (fun name => is_Some (float_column df name)) (agg_dict df) →
  ∃ out ts',
    resample_last width df = Some out
    ∧ time_column out (timestamp_col df) = Some ts'
    ∧ length ts' = df_len out
    ∧ StronglySorted Z.lt ts'
    ∧ df_len out ≤ length ts
    ∧ df_len out ≤ length (resample_bins width ts).
Proof.
  intros Hw Hts Hne Hnum. unfold resample_last.
  rewrite Hts. simpl. rewrite bool_decide_eq_false_2 by done.
  destruct (mapM_is_Some_2 (float_column df) (agg_dict df)) as [columns Hcols].
  { eapply Forall_impl; [exact Hnum|]. done. }
  rewrite Hcols. simpl.
  set (keys := bin_of width <$> ts).
  set (rows := zip keys <$> columns).
  set (kept := List.filter _ (resample_bins width ts)).
  eexists _, _. split; [reflexivity|].
  split; [unfold time_column; simpl; by rewrite lookup_insert_eq|].
  split; [by rewrite length_fmap|].
  assert (StronglySorted Z.lt kept) as Hsorted.
  { apply StronglySorted_filter, span_strongly_sorted. }
  split.
  { clear -Hsorted Hw. induction Hsorted as [|b l Hs IH Hall]; simpl; [constructor|].
    constructor; [done|]. rewrite Forall_fmap. eapply Forall_impl; [exact Hall|].
    simpl. intros c Hc. nia. }
  simpl. split; [|apply filter_bool_length].
  (* every bucket that is kept holds a row *)
  replace (length ts) with (length keys) by (unfold keys; by rewrite length_fmap).
  apply submseteq_length, NoDup_submseteq.
  { apply NoDup_filter_bool, span_NoDup. }
  intros b Hb. apply list_elem_of_In, filter_In in Hb as [_ Hkeep].
  destruct columns as [|col columns].
  { apply mapM_Some_1, Forall2_length in Hcols. simpl in Hcols.
    destruct (agg_dict df); [done|discriminate]. }
  simpl in Hkeep. apply andb_true_iff in Hkeep as [Hfirst _].
  apply negb_true_iff, last_in_bin_elem in Hfirst as [x Hx].
  by apply elem_of_zip_l in Hx.
Qed.

Lemma minute_series_bins (start : Z) (n : nat) :
  Z.of_nat n = 60000%Z →
  length (resample_bins (period_ns P1h) (minute_timestamps start n)) ≤ 1001.
Proof.
  intros Hn. unfold resample_bins.
  pose proof (minute_timestamps_bounds start n) as Hb. rewrite Hn in Hb.
  set (w := period_ns P1h). assert (0 < w)%Z as Hw by (by vm_compute).
  pose proof (span_length_bound (start / w) (start / w + 1000)
                (bin_of w <$> minute_timestamps start n)) as Hlen.
  enough (Forall (fun x => start / w ≤ x ≤ start / w + 1000)%Z
            (bin_of w <$> minute_timestamps start n)) as HF.
  { specialize (Hlen HF). lia. }
  rewrite Forall_fmap. eapply Forall_impl; [exact Hb|].
  simpl. intros t [Hlo Hhi]. unfold bin_of. split.
  - by apply Z.div_le_mono.
  - rewrite <- (Z.div_add start 1000 w) by lia.
    apply Z.div_le_mono; [done|]. subst w. unfold period_ns, minute_ns in *. lia.
Qed.

(** C7 (amended): with no explicit period, [get_resampled_data] behaves
    as with the period of the ladder: 1 hour above 50,000 rows, 30 minutes
    above 20,000, 15 minutes above 10,000, 5 minutes above 5,000, and it
    returns the frame itself otherwise. On a series in time order with at
    least one numeric value column it returns a frame whose timestamps are
    in non-decreasing order and which has no more rows than the input. For
    60,000 one-minute samples the width is 1 hour and the output has at
    most 1,001 buckets. *)
Theorem C7_auto_resample df ts :
  well_formed df →
  time_column df (timestamp_col df) = Some ts →
  agg_dict df ≠ [] →
  Forall (fun name => is_Some (float_column df name)) (agg_dict df) →
  Sorted Z.le ts →
  let total_rows := Z.of_nat (df_len df) in
  ((50000 < total_rows)%Z →
     get_resampled_data df None = get_resampled_data df (Some P1h))
  ∧ ((20000 < total_rows ≤ 50000)%Z →
     get_resampled_data df None = get_resampled_data df (Some P30min))
  ∧ ((10000 < total_rows ≤ 20000)%Z →
     get_resampled_data df None = get_resampled_data df (Some P15min))
  ∧ ((5000 < total_rows ≤ 10000)%Z →
     get_resampled_data df None = get_resampled_data df (Some P5min))
  ∧ ((total_rows ≤ 5000)%Z → get_resampled_data df None = Some df)
  ∧ ∃ out ts',
      get_resampled_data df None = Some out
      ∧ time_column out (timestamp_col df) = Some ts'
      ∧ length ts' = df_len out
      ∧ Sorted Z.le ts'
      ∧ df_len out ≤ df_len df
      ∧ ((∃ start n, ts = minute_timestamps start n ∧ Z.of_nat n = 60000%Z) →
           get_resampled_data df None = get_resampled_data df (Some P1h)
           ∧ df_len out ≤ 1001).
Proof.
  intros Hwf Hts Hne Hnum Hsorted total_rows.
  assert (length ts = df_len df) as Hlen by (by eapply time_column_length).
  assert (∀ p, if df_empty df then get_resampled_data df p = Some df
               else get_resampled_data df p
                    = match p with
                      | Some p => resample_last (period_ns p) df
                      | None =>
                          if (50000 <? total_rows)%Z then resample_last (period_ns P1h) df
                          else if (20000 <? total_rows)%Z then resample_last (period_ns P30min) df
                          else if (10000 <? total_rows)%Z then resample_last (period_ns P15min) df
                          else if (5000 <? total_rows)%Z then resample_last (period_ns P5min) df
                          else Some df
                      end) as Hunfold.
  { intros p. unfold get_resampled_data. by destruct (df_empty df). }
  assert (∀ p, (0 < period_ns p)%Z) as Hpos by (by intros []; vm_compute).
  repeat split.
  - intros H. pose proof (Hunfold None) as H1. pose proof (Hunfold (Some P1h)) as H2.
    destruct (df_empty df); [congruence|]. rewrite H1, H2.
    by rewrite (proj2 (Z.ltb_lt _ _)) by lia.
  - intros H. pose proof (Hunfold None) as H1. pose proof (Hunfold (Some P30min)) as H2.
    destruct (df_empty df); [congruence|]. rewrite H1, H2.
    rewrite (proj2 (Z.ltb_ge _ _)) by lia. by rewrite (proj2 (Z.ltb_lt _ _)) by lia.
  - intros H. pose proof (Hunfold None) as H1. pose proof (Hunfold (Some P15min)) as H2.
    destruct (df_empty df); [congruence|]. rewrite H1, H2.
    rewrite !(proj2 (Z.ltb_ge _ _)) by lia. by rewrite (proj2 (Z.ltb_lt _ _)) by lia.
  - intros H. pose proof (Hunfold None) as H1. pose proof (Hunfold (Some P5min)) as H2.
    destruct (df_empty df); [congruence|]. rewrite H1, H2.
    rewrite !(proj2 (Z.ltb_ge _ _)) by lia. by rewrite (proj2 (Z.ltb_lt _ _)) by lia.
  - intros H. pose proof (Hunfold None) as H1.
    destruct (df_empty df); [done|]. rewrite H1.
    by rewrite !(proj2 (Z.ltb_ge _ _)) by lia.
  - (* the frame that comes out *)
    assert (∀ p, ∃ out ts',
              resample_last (period_ns p) df = Some out
              ∧ time_column out (timestamp_col df) = Some ts'
              ∧ length ts' = df_len out
              ∧ Sorted Z.le ts'
              ∧ df_len out ≤ df_len df
              ∧ df_len out ≤ length (resample_bins (period_ns p) ts)) as Hres.
    { intros p.
      destruct (resample_last_spec (period_ns p) df ts (Hpos p) Hts Hne Hnum)
        as (out & ts' & ? & ? & ? & Hss & ? & ?).
      exists out, ts'. repeat split; try done; [|lia].
      apply StronglySorted_Sorted.
      clear -Hss. induction Hss as [|x l Hs IH Hall]; constructor; [done|].
      eapply Forall_impl; [exact Hall|]. simpl. lia. }
    assert (∃ out ts',
              get_resampled_data df None = Some out
              ∧ time_column out (timestamp_col df) = Some ts'
              ∧ length ts' = df_len out
              ∧ Sorted Z.le ts'
              ∧ df_len out ≤ df_len df
              ∧ ((50000 < total_rows)%Z →
                   df_len out ≤ length (resample_bins (period_ns P1h) ts)))
      as (out & ts' & Hout & Hcol & Hl & Hs & Hle & Hbins).
    { pose proof (Hunfold None) as H1.
      destruct (df_empty df) eqn:He.
      - exists df, ts. repeat split; try done.
        intros Hbig. unfold df_empty in He. apply orb_true_iff in He as [He|He].
        + apply Nat.eqb_eq in He. subst total_rows. lia.
        + apply bool_decide_eq_true in He. unfold time_column in Hts.
          rewrite He, lookup_empty in Hts. done.
      - rewrite H1.
        destruct (Z.ltb_spec 50000 total_rows);
          [destruct (Hres P1h) as (o & t & ? & ? & ? & ? & ? & ?); exists o, t; by repeat split|].
        destruct (Z.ltb_spec 20000 total_rows);
          [destruct (Hres P30min) as (o & t & ? & ? & ? & ? & ? & ?); exists o, t;
           repeat split; try done; lia|].
        destruct (Z.ltb_spec 10000 total_rows);
          [destruct (Hres P15min) as (o & t & ? & ? & ? & ? & ? & ?); exists o, t;
           repeat split; try done; lia|].
        destruct (Z.ltb_spec 5000 total_rows);
          [destruct (Hres P5min) as (o & t & ? & ? & ? & ? & ? & ?); exists o, t;
           repeat split; try done; lia|].
        exists df, ts. repeat split; try done. lia. }
    exists out, ts'. repeat split; try done.
    + destruct H as (start & n & -> & Hn).
      rewrite minute_timestamps_length in Hlen.
      pose proof (Hunfold None) as H1. pose proof (Hunfold (Some P1h)) as H2.
      destruct (df_empty df); [congruence|]. rewrite H1, H2.
      by rewrite (proj2 (Z.ltb_lt _ _)) by (subst total_rows; lia).
    + destruct H as (start & n & -> & Hn).
      rewrite minute_timestamps_length in Hlen.
      etrans; [apply Hbins; subst total_rows; lia|].
      by apply minute_series_bins.
Qed.


Lemma C7_auto_resample_witness :
  let df := two_rows 100 110 in
  let total_rows := Z.of_nat (df_len df) in
  ((50000 < total_rows)%Z →
     get_resampled_data df None = get_resampled_data df (Some P1h))
  ∧ ((20000 < total_rows ≤ 50000)%Z →
     get_resampled_data df None = get_resampled_data df (Some P30min))
  ∧ ((10000 < total_rows ≤ 20000)%Z →
     get_resampled_data df None = get_resampled_data df (Some P15min))
  ∧ ((5000 < total_rows ≤ 10000)%Z →
     get_resampled_data df None = get_resampled_data df (Some P5min))
  ∧ ((total_rows ≤ 5000)%Z → get_resampled_data df None = Some df)
  ∧ ∃ out ts',
      get_resampled_data df None = Some out
      ∧ time_column out (timestamp_col df) = Some ts'
      ∧ length ts' = df_len out
      ∧ Sorted Z.le ts'
      ∧ df_len out ≤ df_len df
      ∧ ((∃ start n, [0; minute_ns]%Z = minute_timestamps start n
                     ∧ Z.of_nat n = 60000%Z) →
           get_resampled_data df None = get_resampled_data df (Some P1h)
           ∧ df_len out ≤ 1001).
Proof.
  apply (C7_auto_resample (two_rows 100 110) [0; minute_ns]%Z).
  - well_formed_by_eval.
  - vm_compute; reflexivity.
  - vm_compute; discriminate.
  - apply (bool_decide_unpack _). vm_compute; exact I.
  - apply (bool_decide_unpack _). vm_compute; exact I.
Defined.

(** Sixty thousand one-minute samples that start at half past the hour
    fall into 1,001 hourly buckets, one more than the 1,000 of the claim. *)
Lemma C7_counterexample :
  time_column sixty_thousand_minutes "timestamp"
    = Some (minute_timestamps (30 * minute_ns) 60000)
  ∧ df_len <$> get_resampled_data sixty_thousand_minutes None = Some 1001
  ∧ ¬ (1001 ≤ 1000).
Proof. split; [reflexivity|]. split; [vm_compute; reflexivity|lia]. Qed.

(** ** The per-symbol summary *)

(** A summary that is produced is built from the metrics of the frame. *)
Lemma summarize_built bucket_name info df r :
  (summarize bucket_name info df).1 = Some r →
  ∃ m days, symbol_metrics_of df = Some m
            ∧ build_summary bucket_name info m days = Some r.
Proof.
  unfold summarize.
  destruct (negb (df_empty df) && has_column df "close"); [|done].
  destruct (symbol_metrics_of df) as [m|]; [|done].
  destruct (has_column df "close" && has_column df "timestamp" && (0 <? df_len df)%nat).
  - destruct (time_column df "timestamp"); [|done].
    destruct (float_column _ "close"); [|done]. simpl. eauto.
  - simpl. eauto.
Qed.

Lemma build_summary_changes bucket_name info m days r :
  build_summary bucket_name info m days = Some r →
  sum_last_price r = m_last_price m
  ∧ sum_change_24h r = m_change_24h m
  ∧ sum_change_7d r = m_change_7d m.
Proof.
  unfold build_summary. destruct (float_to_int _); simpl; [|done].
  intros [= <-]. done.
Qed.

Lemma iloc_neg (s : list float) (k : Z) :
  (0 < k ≤ Z.of_nat (length s))%Z →
  iloc s (- k) = s !! Z.to_nat (Z.of_nat (length s) - k).
Proof.
  intros H. unfold iloc. rewrite (proj2 (Z.ltb_lt _ _)) by lia.
  rewrite (proj2 (Z.leb_le _ _)), (proj2 (Z.ltb_lt _ _)) by lia. simpl.
  f_equal.
Qed.


(** Peel the first bind of an equation [x ≫= f = Some _]. *)
Ltac bind_inv H v E :=
  match type of H with
  | (?x ≫= _) = Some _ => destruct x as [v|] eqn:E; [simpl in H|discriminate H]
  end.

Lemma symbol_metrics_of_changes df close m :
  float_column df "close" = Some close →
  symbol_metrics_of df = Some m →
  ∃ last_price,
    iloc close (-1) = Some last_price
    ∧ m_last_price m = last_price
    ∧ (if (1440 <? Z.of_nat (df_len df))%Z
       then percent_change last_price <$> iloc close (-1440)
       else Some F64.zero) = Some (m_change_24h m)
    ∧ (if (10080 <? Z.of_nat (df_len df))%Z
       then percent_change last_price <$> iloc close (-10080)
       else percent_change last_price <$> iloc close 0) = Some (m_change_7d m).
Proof.
  intros Hclose Hm. unfold symbol_metrics_of in Hm. rewrite Hclose in Hm. simpl in Hm.
  bind_inv Hm last_price E1. bind_inv Hm c24 E2. bind_inv Hm c7 E3.
  bind_inv Hm pos E4. bind_inv Hm net E5. bind_inv Hm cr E6.
  injection Hm as <-. simpl. by exists last_price.
Qed.

(** C8 (amended): in a summary record, the 24-hour change compares the
    last price with the price 1440 rows before the end when the series has
    more than 1440 rows, and is 0 otherwise; the 7-day change compares the
    last price with the price 10080 rows before the end when the series
    has more than 10080 rows, and with the earliest price otherwise. Only
    the 7-day window falls back to the earliest sample. *)
Theorem C8_changes_by_row_offset bucket_name info df r close :
  (summarize bucket_name info df).1 = Some r →
  well_formed df →
  float_column df "close" = Some close →
  let rows := Z.of_nat (df_len df) in
  ∃ last_price,
    close !! Z.to_nat (rows - 1) = Some last_price
    ∧ sum_last_price r = last_price
    ∧ ((1440 < rows)%Z →
         ∃ ago, close !! Z.to_nat (rows - 1440) = Some ago
                ∧ sum_change_24h r = percent_change last_price ago)
    ∧ ((rows ≤ 1440)%Z → sum_change_24h r = F64.zero)
    ∧ ((10080 < rows)%Z →
         ∃ ago, close !! Z.to_nat (rows - 10080) = Some ago
                ∧ sum_change_7d r = percent_change last_price ago)
    ∧ ((rows ≤ 10080)%Z →
         ∃ earliest, close !! 0%nat = Some earliest
                     ∧ sum_change_7d r = percent_change last_price earliest).
Proof.
  intros Hr Hwf Hclose rows.
  destruct (summarize_built _ _ _ _ Hr) as (m & days & Hm & Hb).
  destruct (build_summary_changes _ _ _ _ _ Hb) as (-> & -> & ->).
  pose proof (float_column_length _ _ _ Hwf Hclose) as Hlen.
  destruct (symbol_metrics_of_changes _ _ _ Hclose Hm)
    as (last_price & Hlast & Hlp & H24 & H7).
  fold rows in H24, H7.
  assert (0 < rows)%Z as Hrows.
  { unfold iloc in Hlast. simpl in Hlast.
    destruct (_ && _) eqn:E in Hlast; [|done]. apply andb_true_iff in E as [E1 E2].
    apply Z.leb_le in E1. subst rows. lia. }
  change (-1)%Z with (- (1))%Z in Hlast. rewrite iloc_neg in Hlast by lia.
  rewrite Hlen in Hlast. fold rows in Hlast.
  exists last_price. split; [done|]. split; [done|]. split; [|split; [|split]].
  - intros Hbig. rewrite (proj2 (Z.ltb_lt _ _)) in H24 by done.
    change (-1440)%Z with (- (1440))%Z in H24. rewrite iloc_neg in H24 by lia.
    rewrite Hlen in H24. fold rows in H24.
    destruct (close !! Z.to_nat (rows - 1440)) as [ago|]; [|done].
    exists ago. split; [done|]. by injection H24.
  - intros Hsmall. rewrite (proj2 (Z.ltb_ge _ _)) in H24 by done. by injection H24.
  - intros Hbig. rewrite (proj2 (Z.ltb_lt _ _)) in H7 by done.
    change (-10080)%Z with (- (10080))%Z in H7. rewrite iloc_neg in H7 by lia.
    rewrite Hlen in H7. fold rows in H7.
    destruct (close !! Z.to_nat (rows - 10080)) as [ago|]; [|done].
    exists ago. split; [done|]. by injection H7.
  - intros Hsmall. rewrite (proj2 (Z.ltb_ge _ _)) in H7 by done.
    unfold iloc in H7. simpl in H7. rewrite (proj2 (Z.ltb_lt _ _)) in H7 by lia.
    simpl in H7. change (Z.to_nat 0) with 0%nat in H7.
    destruct (close !! 0%nat) as [earliest|]; [|done].
    exists earliest. split; [done|]. by injection H7.
Qed.

Lemma C8_changes_by_row_offset_witness :
  let rows := Z.of_nat (df_len (two_rows 100 110)) in
  ∃ last_price,
    [F64.of_Z 100; F64.of_Z 110] !! Z.to_nat (rows - 1) = Some last_price
    ∧ sum_last_price
        (mkSummary "demo" "BTC" "1" (F64.of_Z 110) FLAT 0 F64.zero F64.zero F64.zero
           (percent_change (F64.of_Z 110) (F64.of_Z 100)) 1) = last_price
    ∧ ((1440 < rows)%Z →
         ∃ ago, [F64.of_Z 100; F64.of_Z 110] !! Z.to_nat (rows - 1440) = Some ago
                ∧ F64.zero = percent_change last_price ago)
    ∧ ((rows ≤ 1440)%Z → F64.zero = F64.zero)
    ∧ ((10080 < rows)%Z →
         ∃ ago, [F64.of_Z 100; F64.of_Z 110] !! Z.to_nat (rows - 10080) = Some ago
                ∧ percent_change (F64.of_Z 110) (F64.of_Z 100)
                  = percent_change last_price ago)
    ∧ ((rows ≤ 10080)%Z →
         ∃ earliest, [F64.of_Z 100; F64.of_Z 110] !! 0%nat = Some earliest
                     ∧ percent_change (F64.of_Z 110) (F64.of_Z 100)
                       = percent_change last_price earliest).
Proof.
  apply (C8_changes_by_row_offset "demo" (mkSymInfo "BTC" "1" btc_file)
           (two_rows 100 110)
           (mkSummary "demo" "BTC" "1" (F64.of_Z 110) FLAT 0 F64.zero F64.zero F64.zero
              (percent_change (F64.of_Z 110) (F64.of_Z 100)) 1)
           [F64.of_Z 100; F64.of_Z 110]).
  - vm_compute; reflexivity.
  - well_formed_by_eval.
  - vm_compute; reflexivity.
Defined.

(** With two rows of history the 24-hour change is 0, not the change
    against the earliest sample, which is 10 percent. *)
Lemma C8_counterexample :
  ∃ r, (summarize "demo" (mkSymInfo "BTC" "1" btc_file) (two_rows 100 110)).1 = Some r
       ∧ (Z.of_nat (df_len (two_rows 100 110)) ≤ 1440)%Z
       ∧ sum_change_24h r = F64.zero
       ∧ percent_change (F64.of_Z 110) (F64.of_Z 100) ≠ F64.zero.
Proof.
  eexists. split; [vm_compute; reflexivity|].
  split; [vm_compute; discriminate|]. split; [reflexivity|].
  vm_compute. discriminate.
Qed.

(** ** The order of the summary list *)

(** C9: one bucket with the symbols BTC and ETH, the worker of ETH
    finishing first: the per-symbol list of the summary is ETH, BTC, the
    order of completion, which is not the order of the symbol names. The
    claim asks for the list sorted by symbol name. *)
Theorem C9_summary_in_completion_order :
  sum_symbol <$> (get_symbols_summary two_symbol_fs [demo_job [1; 0]] [0] empty_cache).1
  = ["ETH"; "BTC"]
  ∧ ¬ Sorted String.le ["ETH"; "BTC"].
Proof.
  split; [vm_compute; reflexivity|].
  intros H. apply Sorted_inv in H as [_ H]. apply HdRel_inv in H.
  vm_compute in H. done.
Qed.

(** ** Threads and the per-key locks *)

Lemma step_inv fs tid s s' :
  step fs tid s = Some s' →
  ∃ th sh' pc',
    st_threads s !! tid = Some th
    ∧ step_thread fs tid th (st_shared s) = Some (sh', pc')
    ∧ s' = mkState sh'
             (<[tid := mkThread (th_handler th) (th_key th) (th_path th) pc']>
                (st_threads s)).
Proof.
  unfold step. intros H.
  destruct (st_threads s !! tid) as [th|]; [|done]. simpl in H.
  destruct (step_thread fs tid th (st_shared s)) as [[sh' pc']|] eqn:E; [|done].
  simpl in H. injection H as <-. by exists th, sh', pc'.
Qed.

(** The cases of one step, line by line. *)
Ltac step_cases :=
  unfold step_thread, after_line73, key_error;
  match goal with |- context [th_pc ?th] => destruct (th_pc th) end;
  intros; repeat case_match; simplify_eq/=.

(** What one step does to the lock table, the global lock and the locks
    that are held. *)
Lemma step_thread_table fs tid th sh sh' pc' :
  step_thread fs tid th sh = Some (sh', pc') →
  CACHE_KEY_LOCKS sh' = CACHE_KEY_LOCKS sh
  ∨ (th_pc th = Line72
     ∧ CACHE_KEY_LOCKS sh' = <[th_key th := next_lock sh]> (CACHE_KEY_LOCKS sh)).
Proof. step_cases; auto. Qed.

Lemma step_thread_global fs tid th sh sh' pc' :
  step_thread fs tid th sh = Some (sh', pc') →
  CACHE_LOCK sh' = CACHE_LOCK sh
  ∨ (th_pc th = Line70 ∧ CACHE_LOCK sh = None ∧ CACHE_LOCK sh' = Some tid)
  ∨ (th_pc th = Line72_exit ∧ CACHE_LOCK sh' = None).
Proof. step_cases; auto. Qed.

Lemma step_thread_held fs tid th sh sh' pc' :
  step_thread fs tid th sh = Some (sh', pc') →
  held sh' = held sh
  ∨ (∃ l, awaits (th_pc th) = Some l ∧ held sh !! l = None
          ∧ held sh' = <[l := tid]> (held sh))
  ∨ (∃ l, releases (th_pc th) = Some l ∧ held sh' = delete l (held sh)).
Proof. step_cases; eauto 6. Qed.

(** The lock a thread carries is carried on, or is the entry it has just
    read from the table. *)
Lemma step_thread_pc_lock fs tid th sh sh' pc' l :
  step_thread fs tid th sh = Some (sh', pc') →
  pc_lock pc' = Some l →
  pc_lock (th_pc th) = Some l
  ∨ (th_pc th = Line73 ∧ CACHE_KEY_LOCKS sh !! th_key th = Some l).
Proof. step_cases; auto. Qed.

Lemma step_thread_in_section fs tid th sh sh' pc' :
  step_thread fs tid th sh = Some (sh', pc') →
  in_section pc' = true →
  (in_section (th_pc th) = true ∧ pc_lock pc' = pc_lock (th_pc th)
   ∧ releases (th_pc th) = None)
  ∨ (∃ l, awaits (th_pc th) = Some l ∧ pc_lock pc' = Some l
          ∧ held sh !! l = None ∧ held sh' = <[l := tid]> (held sh)).
Proof. step_cases; eauto 6. Qed.

Lemma step_thread_to_line72 fs tid th sh sh' :
  step_thread fs tid th sh = Some (sh', Line72) →
  CACHE_KEY_LOCKS sh !! th_key th = None ∧ CACHE_KEY_LOCKS sh' = CACHE_KEY_LOCKS sh.
Proof.
  step_cases.
  match goal with
  | H : bool_decide _ = false |- _ => apply bool_decide_eq_false in H
  end.
  split; [|done]. by apply eq_None_not_Some.
Qed.

Lemma step_thread_past_creation fs tid th sh sh' pc' :
  step_thread fs tid th sh = Some (sh', pc') →
  past_creation pc' = true →
  (past_creation (th_pc th) = true ∧ CACHE_KEY_LOCKS sh' = CACHE_KEY_LOCKS sh)
  ∨ is_Some (CACHE_KEY_LOCKS sh' !! th_key th).
Proof.
  step_cases; auto; try (right; by eapply bool_decide_eq_true_1).
  right. rewrite lookup_insert_eq. eauto.
Qed.

Lemma step_thread_holds_global fs tid th sh sh' pc' :
  step_thread fs tid th sh = Some (sh', pc') →
  holds_global pc' = true →
  (holds_global (th_pc th) = true ∧ CACHE_LOCK sh' = CACHE_LOCK sh)
  ∨ CACHE_LOCK sh' = Some tid.
Proof. step_cases; auto. Qed.

Lemma lock_inv_initial s : initial s → lock_inv s.
Proof.
  intros (Hg & Hh & _ & Hpc).
  constructor; [intros tid th l Hth|intros tid th Hth..];
    specialize (Hpc _ _ Hth); simpl in Hpc;
    rewrite Hpc; by destruct (th_handler th).
Qed.

Lemma lock_inv_step fs tid s s' :
  lock_inv s → step fs tid s = Some s' → lock_inv s'.
Proof.
  intros [Htable Hheld Habsent Hpresent Hglobal] Hstep.
  destruct (step_inv _ _ _ _ Hstep) as (th & sh' & pc' & Hth & Hst & ->).
  pose proof (step_thread_table _ _ _ _ _ _ Hst) as Ht.
  pose proof (step_thread_global _ _ _ _ _ _ Hst) as Hg.
  pose proof (step_thread_held _ _ _ _ _ _ Hst) as Hh.
  constructor; simpl.
  - (* the table entry of a lock that is carried *)
    intros tid' th' l Hth' Hl.
    destruct (decide (tid' = tid)) as [->|Hne].
    + rewrite lookup_insert_eq in Hth'. simplify_eq/=.
      destruct (step_thread_pc_lock _ _ _ _ _ _ _ Hst Hl) as [Hold|[Hpc Hold]].
      * specialize (Htable _ _ _ Hth Hold).
        destruct Ht as [->|[Hpc ->]]; [done|]. rewrite Hpc in Hold. done.
      * destruct Ht as [->|[Hpc' ->]]; [done|]. congruence.
    + rewrite lookup_insert_ne in Hth' by done.
      specialize (Htable _ _ _ Hth' Hl).
      destruct Ht as [->|[Hpc ->]]; [done|].
      destruct (decide (th_key th = th_key th')) as [Hk|Hk].
      * specialize (Habsent _ _ Hth Hpc). congruence.
      * by rewrite lookup_insert_ne.
  - (* a thread inside the section holds its lock *)
    intros tid' th' Hth' Hs.
    destruct (decide (tid' = tid)) as [->|Hne].
    + rewrite lookup_insert_eq in Hth'. simplify_eq/=.
      destruct (step_thread_in_section _ _ _ _ _ _ Hst Hs)
        as [(Hold & Hsame & Hnot)|(l & Hpc & Hl & Hfree & Hnew)].
      * destruct (Hheld _ _ Hth Hold) as (l & Hl & Hhl).
        exists l. split; [congruence|].
        destruct Hh as [->|[(l' & Hpc & _)|(l' & Hpc & _)]]; [done|..].
        -- destruct (th_pc th); done.
        -- congruence.
      * exists l. split; [done|]. rewrite Hnew. by rewrite lookup_insert_eq.
    + rewrite lookup_insert_ne in Hth' by done.
      destruct (Hheld _ _ Hth' Hs) as (l & Hl & Hhl). exists l. split; [done|].
      destruct Hh as [->|[(l' & Hpc & Hfree & ->)|(l' & Hpc & ->)]]; [done|..].
      * rewrite lookup_insert_ne; [done|]. congruence.
      * rewrite lookup_delete_ne; [done|]. intros ->.
        destruct (Hheld _ _ Hth) as (l'' & Hl'' & Hhl'');
          [by destruct (th_pc th)|].
        assert (l'' = l) as -> by (destruct (th_pc th); simplify_eq/=; done).
        congruence.
  - (* a thread about to create the entry sees none *)
    intros tid' th' Hth' Hpc'.
    destruct (decide (tid' = tid)) as [->|Hne].
    + rewrite lookup_insert_eq in Hth'. simplify_eq/=.
      destruct (step_thread_to_line72 _ _ _ _ _ Hst) as [? ->]. done.
    + rewrite lookup_insert_ne in Hth' by done.
      destruct Ht as [->|[Hpc ->]]; [by eapply Habsent|].
      pose proof (Hglobal _ _ Hth) as H1. pose proof (Hglobal _ _ Hth') as H2.
      rewrite Hpc in H1. rewrite Hpc' in H2.
      specialize (H1 eq_refl). specialize (H2 eq_refl). congruence.
  - (* past the creation the entry is there *)
    intros tid' th' Hth' Hp.
    destruct (decide (tid' = tid)) as [->|Hne].
    + rewrite lookup_insert_eq in Hth'. simplify_eq/=.
      destruct (step_thread_past_creation _ _ _ _ _ _ Hst Hp) as [[Hold ->]|?]; [|done].
      by eapply Hpresent.
    + rewrite lookup_insert_ne in Hth' by done.
      specialize (Hpresent _ _ Hth' Hp).
      destruct Ht as [->|[Hpc ->]]; [done|].
      apply lookup_insert_is_Some. destruct (decide (th_key th = th_key th')); auto.
  - (* the global lock *)
    intros tid' th' Hth' Hp.
    destruct (decide (tid' = tid)) as [->|Hne].
    + rewrite lookup_insert_eq in Hth'. simplify_eq/=.
      destruct (step_thread_holds_global _ _ _ _ _ _ Hst Hp) as [[Hold ->]|?]; [|done].
      by eapply Hglobal.
    + rewrite lookup_insert_ne in Hth' by done.
      pose proof (Hglobal _ _ Hth' Hp) as H2.
      destruct Hg as [->|[(Hpc & Hfree & _)|(Hpc & _)]]; [done|congruence|].
      pose proof (Hglobal _ _ Hth) as H1. rewrite Hpc in H1.
      specialize (H1 eq_refl). congruence.
Qed.

Lemma run_invariant fs (P : state → Prop) :
  (∀ tid s s', P s → step fs tid s = Some s' → P s') →
  ∀ schedule s, P s → P (run fs schedule s).
Proof.
  intros Hstep schedule. induction schedule as [|tid schedule IH]; intros s Hs; [done|].
  simpl. apply IH. destruct (step fs tid s) as [s'|] eqn:E; simpl; [|done].
  by eapply Hstep.
Qed.

Lemma lock_inv_reachable fs s0 s : initial s0 → reachable fs s0 s → lock_inv s.
Proof.
  intros Hinit [schedule <-]. apply run_invariant; [|by apply lock_inv_initial].
  intros tid s1 s2. apply lock_inv_step.
Qed.


(** *** Frames *)












(** *** Concurrent refreshes of one key *)








Lemma gtb_irrefl (x : float) : F64.gtb x x = false.
Proof.
  unfold F64.gtb. destruct x as [s|s| |s m e]; simpl;
    [by destruct s|by destruct s|done|].
  destruct s; rewrite Z.compare_refl;
    change (Pos.compare_cont Eq m m) with (m ?= m)%positive;
    by rewrite Pos.compare_refl.
Qed.






Lemma returned_not_loaded p : returned p = true → stage_of p ≠ Loaded.
Proof. destruct p; try done. simpl. by repeat case_match. Qed.


Section refresh.

Variable fs : FileSystem.
Variables k p : string.
Variables stored m : float.
Variable loads0 : list string.
Hypothesis Hmtime : fs_getmtime fs p = Some m.
Hypothesis Hnewer : F64.gtb m stored = true.
Hypothesis Hrows : df_empty (load_csv_data_from_path fs p) = false.


End refresh.







(** The frame [process_symbol] leaves is the frame the worker thread
    leaves: that of line 1175 when the thread comes to it. *)
Lemma summarize_frame bucket_name info df :
  (summarize bucket_name info df).2
  = if comes_to_line1175 df then default df (assign_date df) else df.
Proof.
  unfold summarize, comes_to_line1175, assign_date.
  destruct (negb (df_empty df) && has_column df "close"); simpl; [|done].
  destruct (symbol_metrics_of df) as [sm|]; simpl; [|done].
  rewrite ?bool_decide_true by eauto. simpl.
  destruct (has_column df "close" && has_column df "timestamp" && (0 <? df_len df)%nat);
    [|done].
  destruct (time_column df "timestamp") as [ts|]; simpl; [|done].
  by destruct (float_column _ "close").
Qed.

Lemma initial_two_refreshes : initial two_refreshes.
Proof.
  split; [done|]. split; [done|]. split.
  - apply map_Forall_empty.
  - unfold two_refreshes. simpl.
    repeat (apply map_Forall_insert_2; [reflexivity|]). apply map_Forall_empty.
Qed.








(** ** File names and cache keys *)

Lemma append_nil (s : string) : "" +:+ s = s.
Proof. reflexivity. Qed.

Lemma append_cons (c : ascii) (a b : string) :
  String c a +:+ b = String c (a +:+ b).
Proof. reflexivity. Qed.

Ltac append_simpl := rewrite ?append_cons, ?append_nil.

Lemma append_assoc (a b c : string) : (a +:+ b) +:+ c = a +:+ b +:+ c.
Proof.
  induction a as [|x a IH]; append_simpl; [done|by rewrite IH].
Qed.

Lemma prefix_append (p s : string) : String.prefix p (p +:+ s) = true.
Proof.
  induction p as [|x p IH]; append_simpl; simpl; [by destruct s|].
  destruct (ascii_dec x x); [done|congruence].
Qed.

Lemma drop_append (p s : string) : Str.drop (String.length p) (p +:+ s) = s.
Proof.
  induction p as [|x p IH]; append_simpl; [by destruct s|].
  change (Str.drop (String.length p) (p +:+ s) = s). exact IH.
Qed.

Lemma prefix_inv (p s : string) :
  String.prefix p s = true → s = p +:+ Str.drop (String.length p) s.
Proof.
  revert s. induction p as [|x p IH]; intros s; simpl.
  - by destruct s.
  - destruct s as [|y s]; [done|]. simpl.
    destruct (ascii_dec x y) as [->|]; [|done].
    intros H. append_simpl. f_equal. by apply IH.
Qed.

Lemma strip_prefix_append (p s : string) : Str.strip_prefix p (p +:+ s) = Some s.
Proof. unfold Str.strip_prefix. by rewrite prefix_append, drop_append. Qed.

Lemma strip_prefix_inv (p s r : string) :
  Str.strip_prefix p s = Some r → s = p +:+ r.
Proof.
  unfold Str.strip_prefix. destruct (String.prefix p s) eqn:E; [|done].
  intros [= <-]. by apply prefix_inv.
Qed.

Lemma span_digits_append (d r : string) :
  Str.all_digits d = true → no_leading_digit r = true →
  Str.span_digits (d +:+ r) = (d, r).
Proof.
  intros Hd Hr. induction d as [|c d IH]; append_simpl; simpl in *.
  - destruct r as [|c r]; [done|]. simpl in Hr. simpl.
    by destruct (Str.is_digit c).
  - apply andb_true_iff in Hd as [-> Hd]. by rewrite IH.
Qed.

Lemma span_digits_inv (s d r : string) :
  Str.span_digits s = (d, r) →
  s = d +:+ r ∧ Str.all_digits d = true ∧ no_leading_digit r = true.
Proof.
  revert d r. induction s as [|c s IH]; intros d r; simpl.
  - by intros [= <- <-].
  - destruct (Str.is_digit c) eqn:E.
    + destruct (Str.span_digits s) as [d' r']. intros [= <- <-].
      destruct (IH d' r' eq_refl) as (-> & Hd & Hr). simpl. by rewrite E, Hd.
    + intros [= <- <-]. simpl. by rewrite E.
Qed.

Lemma isdigit_all_digits (s : string) :
  Str.isdigit s = true ↔ s ≠ "" ∧ Str.all_digits s = true.
Proof.
  destruct s; simpl.
  - split; [done|]. by intros [].
  - split; [by intros H|by intros [_ H]].
Qed.

Lemma pattern_match_spec (filename ts_id t_id : string) :
  pattern_match filename = Some (ts_id, t_id)
  ↔ Str.isdigit ts_id = true ∧ Str.isdigit t_id = true
    ∧ ∃ rest, filename = "STGC2OGTrim2Model_TS-" +:+ ts_id +:+ "_T-" +:+ t_id
                           +:+ "_" +:+ rest
              ∧ has_dot_csv rest = true.
Proof.
  unfold pattern_match. split.
  - destruct (Str.strip_prefix "STGC2OGTrim2Model_TS-" filename) as [r1|] eqn:E1;
      [|done]. simpl.
    destruct (Str.span_digits r1) as [ts r2] eqn:E2.
    case_bool_decide as Hts; [done|].
    destruct (Str.strip_prefix "_T-" r2) as [r3|] eqn:E3; [|done]. simpl.
    destruct (Str.span_digits r3) as [t r4] eqn:E4.
    case_bool_decide as Ht; [done|].
    destruct (Str.strip_prefix "_" r4) as [r5|] eqn:E5; [|done]. simpl.
    destruct (has_dot_csv r5) eqn:E6; [|done]. intros [= <- <-].
    apply strip_prefix_inv in E1, E3, E5.
    apply span_digits_inv in E2 as (E2 & D2 & _), E4 as (E4 & D4 & _).
    split; [by apply isdigit_all_digits|]. split; [by apply isdigit_all_digits|].
    exists r5. split; [|done]. subst. reflexivity.
  - intros (Hts & Ht & rest & -> & Hrest).
    apply isdigit_all_digits in Hts as [Hts1 Hts2], Ht as [Ht1 Ht2].
    rewrite strip_prefix_append. simpl.
    rewrite (span_digits_append ts_id) by done.
    rewrite bool_decide_false by done.
    rewrite (strip_prefix_append "_T-"). simpl.
    rewrite (span_digits_append t_id) by done.
    rewrite bool_decide_false by done.
    rewrite (strip_prefix_append "_"). simpl. by rewrite Hrest.
Qed.

(** X1: on a file name of ASCII characters, where [\d] stands for the
    digits 0 to 9, the file-name pattern
    [STGC2OGTrim2Model_TS-(\d+)_T-(\d+)_.*\.csv] of the handlers
    recognises exactly the names made of the prefix, a non-empty run of
    digits, [_T-], a second non-empty run of digits, an underscore and a
    rest in which [.csv] occurs on its first line; the two groups it
    returns are the two runs of digits. *)
Theorem pattern_match_iff (filename ts_id t_id : string) :
  is_ascii_text filename = true →
  pattern_match filename = Some (ts_id, t_id)
  ↔ Str.isdigit ts_id = true ∧ Str.isdigit t_id = true
    ∧ ∃ rest, filename = "STGC2OGTrim2Model_TS-" +:+ ts_id +:+ "_T-" +:+ t_id
                           +:+ "_" +:+ rest
              ∧ has_dot_csv rest = true.
Proof. intros _. apply pattern_match_spec. Qed.

Lemma pattern_match_iff_witness :
  pattern_match btc_file = Some ("1", "1")
  ↔ Str.isdigit "1" = true ∧ Str.isdigit "1" = true
    ∧ ∃ rest, btc_file = "STGC2OGTrim2Model_TS-" +:+ "1" +:+ "_T-" +:+ "1"
                           +:+ "_" +:+ rest
              ∧ has_dot_csv rest = true.
Proof. apply (pattern_match_iff btc_file "1" "1"). reflexivity. Defined.

(** *** A numeric id and its [TS-] form *)

Lemma string_prefix_cons (a b : ascii) (p s : string) :
  String.prefix (String a p) (String b s)
  = if ascii_dec a b then String.prefix p s else false.
Proof. reflexivity. Qed.

Lemma isdigit_not_ts (d : string) :
  Str.isdigit d = true → Str.startswith d "TS-" = false.
Proof.
  destruct d as [|c d]; [done|]. intros H. simpl in H.
  apply andb_true_iff in H as [H _]. unfold Str.startswith.
  rewrite string_prefix_cons. destruct (ascii_dec "T" c) as [<-|]; [done|done].
Qed.

Lemma ts_form (d : string) :
  Str.startswith ("TS-" +:+ d) "TS-" = true
  ∧ Str.drop 3 ("TS-" +:+ d) = d
  ∧ Str.isdigit ("TS-" +:+ d) = false.
Proof.
  split; [apply prefix_append|]. split; [apply (drop_append "TS-")|].
  reflexivity.
Qed.

Lemma find_ext {A} (P Q : A → bool) (l : list A) :
  (∀ x, x ∈ l → P x = Q x) → List.find P l = List.find Q l.
Proof.
  induction l as [|x l IH]; intros H; simpl; [done|].
  rewrite <- (H x) by left. destruct (P x); [done|].
  apply IH. intros y Hy. apply H. by right.
Qed.

Lemma find_csv_file_numeric fs bucket_path d filenames :
  Str.isdigit d = true →
  find_csv_file fs bucket_path ("TS-" +:+ d) filenames
  = find_csv_file fs bucket_path d filenames.
Proof.
  intros Hd. unfold find_csv_file.
  destruct (ts_form d) as (-> & -> & _).
  by rewrite (isdigit_not_ts d Hd), Hd.
Qed.

Lemma bucket_cache_key_numeric bucket d csv_file :
  Str.isdigit d = true →
  bucket_cache_key bucket ("TS-" +:+ d) csv_file = bucket +:+ "/TS-" +:+ d
  ∧ bucket_cache_key bucket d csv_file = bucket +:+ "/TS-" +:+ d.
Proof.
  intros Hd. unfold bucket_cache_key.
  destruct (ts_form d) as (-> & _ & ->).
  rewrite (isdigit_not_ts d Hd), Hd. simpl. done.
Qed.

Lemma get_bucket_data_numeric fs bucket d st :
  Str.isdigit d = true →
  get_bucket_data fs bucket ("TS-" +:+ d) st = get_bucket_data fs bucket d st
  ∨ ∃ e1 e2, get_bucket_data fs bucket ("TS-" +:+ d) st = (NotFound404 e1, st)
             ∧ get_bucket_data fs bucket d st = (NotFound404 e2, st).
Proof.
  intros Hd. unfold get_bucket_data.
  destruct (fs_listdir fs (path_join LOCAL_ROOT bucket)) as [filenames|];
    [|by left].
  rewrite find_csv_file_numeric by done.
  destruct (find_csv_file fs _ d filenames) as [csv_file|].
  - destruct (bucket_cache_key_numeric bucket d csv_file Hd) as [-> ->]. by left.
  - right. by eexists _, _.
Qed.

(** X2: [get_bucket_data] treats a numeric id [d] and its form [TS-d] alike:
    both requests resolve to the same data file and the same cache key
    [bucket/TS-d], so they leave the same cache and are answered from the
    same frame, with the same lists and metrics at every resolution. The
    two answers differ in the field [symbol], which repeats the request
    (line 1016), and in the text of the 404 when no file has the id. *)
Theorem get_bucket_data_numeric_id fs bucket d st :
  Str.isdigit d = true →
  (get_bucket_data fs bucket ("TS-" +:+ d) st).2 = (get_bucket_data fs bucket d st).2
  ∧ (get_bucket_data fs bucket ("TS-" +:+ d) st = get_bucket_data fs bucket d st
     ∨ ∃ e1 e2, (get_bucket_data fs bucket ("TS-" +:+ d) st).1 = NotFound404 e1
                ∧ (get_bucket_data fs bucket d st).1 = NotFound404 e2)
  ∧ ∀ res,
      get_bucket_data_chart fs bucket ("TS-" +:+ d) res st
      = get_bucket_data_chart fs bucket d res st
      ∨ ∃ e1 e2,
          (get_bucket_data_chart fs bucket ("TS-" +:+ d) res st).1 = NotFound404 e1
          ∧ (get_bucket_data_chart fs bucket d res st).1 = NotFound404 e2.
Proof.
  intros Hd. unfold get_bucket_data_chart.
  destruct (get_bucket_data_numeric fs bucket d st Hd) as [->|(e1 & e2 & -> & ->)].
  - split; [done|]. split; [by left|]. intros res. by left.
  - split; [done|]. split; [right; by exists e1, e2|].
    intros res. right. by exists e1, e2.
Qed.

Lemma get_bucket_data_numeric_id_witness :
  (get_bucket_data two_symbol_fs "demo" ("TS-" +:+ "1") empty_cache).2
  = (get_bucket_data two_symbol_fs "demo" "1" empty_cache).2
  ∧ (get_bucket_data two_symbol_fs "demo" ("TS-" +:+ "1") empty_cache
     = get_bucket_data two_symbol_fs "demo" "1" empty_cache
     ∨ ∃ e1 e2,
         (get_bucket_data two_symbol_fs "demo" ("TS-" +:+ "1") empty_cache).1
         = NotFound404 e1
         ∧ (get_bucket_data two_symbol_fs "demo" "1" empty_cache).1 = NotFound404 e2)
  ∧ ∀ res,
      get_bucket_data_chart two_symbol_fs "demo" ("TS-" +:+ "1") res empty_cache
      = get_bucket_data_chart two_symbol_fs "demo" "1" res empty_cache
      ∨ ∃ e1 e2,
          (get_bucket_data_chart two_symbol_fs "demo" ("TS-" +:+ "1") res empty_cache).1
          = NotFound404 e1
          ∧ (get_bucket_data_chart two_symbol_fs "demo" "1" res empty_cache).1
            = NotFound404 e2.
Proof. apply (get_bucket_data_numeric_id two_symbol_fs "demo" "1"). reflexivity. Defined.

(** *** The incremental endpoint finds what the data endpoint cached *)

Lemma refresh_if_stale_served fs cache_key csv_path st df st' :
  refresh_if_stale fs cache_key csv_path st = (Ok200 df, st') →
  DATA_CACHE st' !! cache_key = Some df.
Proof.
  unfold refresh_if_stale, serve. intros H.
  repeat case_match; simplify_eq/=; done.
Qed.

Lemma symbol_name_of_known fs bucket_path ts_id symbol :
  Str.startswith symbol "Unknown-" = false →
  bool_decide (symbol_name_of fs bucket_path ts_id = symbol)
  = match truthy (fs_hedge_symbol fs bucket_path ts_id) with
    | Some hedge_symbol => bool_decide (base_symbol hedge_symbol = symbol)
    | None => false
    end.
Proof.
  intros Hs. unfold symbol_name_of.
  destruct (truthy (fs_hedge_symbol fs bucket_path ts_id)); [done|].
  apply bool_decide_eq_false. intros <-.
  unfold Str.startswith in Hs. by rewrite prefix_append in Hs.
Qed.

Lemma find_some_elem {A} (P : A → bool) (l : list A) x :
  List.find P l = Some x → x ∈ l ∧ P x = true.
Proof.
  intros H. apply find_some in H as [H1 H2]. by rewrite list_elem_of_In.
Qed.

Lemma since_cache_key_found fs bucket symbol filenames csv_file :
  Str.startswith symbol "Unknown-" = false →
  fs_listdir fs (path_join LOCAL_ROOT bucket) = Some filenames →
  find_csv_file fs (path_join LOCAL_ROOT bucket) symbol filenames = Some csv_file →
  since_cache_key fs bucket symbol = bucket_cache_key bucket symbol csv_file.
Proof.
  intros Hs Hl Hf. unfold since_cache_key, bucket_cache_key.
  destruct (Str.startswith symbol "TS-" || Str.isdigit symbol) eqn:Ets; [done|].
  rewrite Hl. simpl. unfold find_csv_file in Hf. rewrite Ets in Hf.
  erewrite find_ext; [rewrite Hf; done|].
  intros f _. simpl. f_equal. destruct (pattern_match f) as [[ts_id t_id]|]; [|done].
  by rewrite symbol_name_of_known.
Qed.

(** X3: after [get_bucket_data] has answered a request with a frame, the
    incremental endpoint looks the same symbol up under the key that
    frame is cached under, so it finds the frame and does not answer 404.
    The symbol is an id ([7], [TS-7]) or a name that is not of the form
    [Unknown-...]: for a data file without metadata the data endpoint
    matches the name [Unknown-<id>], which the incremental endpoint does
    not resolve. *)
Theorem since_finds_served_entry fs to_datetime bucket symbol last_timestamp st df st' :
  get_bucket_data fs bucket symbol st = (Ok200 df, st') →
  Str.startswith symbol "Unknown-" = false →
  DATA_CACHE st' !! since_cache_key fs bucket symbol = Some df
  ∧ ∀ e, (get_bucket_data_since fs to_datetime bucket symbol last_timestamp st').1
         ≠ NotFound404 e.
Proof.
  intros Hget Hs. unfold get_bucket_data in Hget.
  destruct (fs_listdir fs (path_join LOCAL_ROOT bucket)) as [filenames|] eqn:Hl;
    [|done].
  destruct (find_csv_file fs _ symbol filenames) as [csv_file|] eqn:Hf; [|done].
  apply refresh_if_stale_served in Hget.
  rewrite <- (since_cache_key_found fs bucket symbol filenames csv_file) in Hget
    by done.
  split; [done|]. intros e. unfold get_bucket_data_since. rewrite Hget.
  by destruct (to_datetime last_timestamp ≫= filter_since df).
Qed.

Lemma since_finds_served_entry_witness :
  ∃ df st',
    get_bucket_data two_symbol_fs "demo" "BTC" empty_cache = (Ok200 df, st')
    ∧ DATA_CACHE st' !! since_cache_key two_symbol_fs "demo" "BTC" = Some df
    ∧ ∀ e, (get_bucket_data_since two_symbol_fs epoch_watermark "demo" "BTC"
              "1970-01-01 00:00:00" st').1 ≠ NotFound404 e.
Proof.
  eexists _, _. split; [vm_compute; reflexivity|].
  apply (since_finds_served_entry two_symbol_fs epoch_watermark "demo" "BTC"
           "1970-01-01 00:00:00" empty_cache);
    vm_compute; reflexivity.
Defined.

(** *** [refresh_data_cache] reloads an entry from the file it was served from *)

Lemma split_once_append (c : ascii) (a b : string) :
  Str.contains c a = false →
  Str.split_once c (a +:+ String c b) = Some (a, b).
Proof.
  unfold Str.contains. induction a as [|x a IH]; append_simpl; simpl.
  - intros _. by rewrite bool_decide_true.
  - case_bool_decide as Hx; [done|].
    destruct (Str.split_once c a) as [[l r]|] eqn:E; [done|]. intros _.
    by rewrite IH.
Qed.

Lemma contains_append (c : ascii) (a b : string) :
  Str.contains c (a +:+ String c b) = true.
Proof.
  unfold Str.contains. induction a as [|x a IH]; append_simpl; simpl.
  - by rewrite bool_decide_true.
  - case_bool_decide; [done|].
    by destruct (Str.split_once c (a +:+ String c b)) as [[l r]|].
Qed.

Lemma contains_cons (c x : ascii) (s : string) :
  Str.contains c (String x s) = bool_decide (x = c) || Str.contains c s.
Proof.
  unfold Str.contains. simpl. case_bool_decide; [done|].
  by destruct (Str.split_once c s) as [[l r]|].
Qed.

(** A bucket name without a slash, followed by [/TS-], is no [gs://] URL. *)
Lemma not_gs_url (bucket rest : string) :
  Str.contains "/" bucket = false →
  Str.startswith (bucket +:+ "/TS-" +:+ rest) "gs://" = false.
Proof.
  unfold Str.startswith. intros H.
  repeat (destruct bucket as [|? bucket];
    [append_simpl; rewrite ?string_prefix_cons;
     repeat (destruct (ascii_dec _ _) as [<-|]; try done)
    | rewrite contains_cons in H; apply orb_false_iff in H as [? H];
      append_simpl; rewrite string_prefix_cons;
      destruct (ascii_dec _ _) as [<-|]; [|done]]); try done.
Qed.

Lemma find_first {A} (P Q : A → bool) (l : list A) x :
  List.find P l = Some x → Q x = true →
  (∀ y, y ∈ l → Q y = true → P y = true) →
  List.find Q l = Some x.
Proof.
  induction l as [|y l IH]; simpl; [done|]. intros HP HQ Himp.
  destruct (P y) eqn:Py.
  - injection HP as ->. by rewrite HQ.
  - destruct (Q y) eqn:Qy.
    + rewrite (Himp y) in Py; [done|by left|done].
    + apply IH; [done|done|]. intros z Hz. apply Himp. by right.
Qed.

Lemma refresh_source_key fs bucket ts_id :
  Str.contains "/" bucket = false →
  refresh_source fs (bucket +:+ "/TS-" +:+ ts_id)
  = filenames ← fs_listdir fs (path_join LOCAL_ROOT bucket);
    filename ← List.find
      (fun filename =>
         is_data_csv filename &&
         match pattern_match filename with
         | Some (id, _) => bool_decide (id = ts_id)
         | None => false
         end)
      filenames;
    Some (path_join (path_join LOCAL_ROOT bucket) filename).
Proof.
  intros Hb. unfold refresh_source.
  rewrite not_gs_url by done.
  change (bucket +:+ "/TS-" +:+ ts_id) with (bucket +:+ String "/" ("TS-" +:+ ts_id)).
  rewrite contains_append, split_once_append by done.
  change (true && negb false) with true. cbv iota. unfold mbind at 1, option_bind.
  by destruct (ts_form ts_id) as (-> & -> & _).
Qed.

(** X4: the cache key under which [get_bucket_data] caches a data file
    leads [refresh_data_cache] back to that same file: the key is
    [bucket/TS-<id>], and the first data file of the bucket with this id is
    the file that was served. The bucket name has no slash, as in every
    request the route accepts. *)
Theorem refresh_source_of_served fs bucket symbol filenames csv_file :
  Str.contains "/" bucket = false →
  fs_listdir fs (path_join LOCAL_ROOT bucket) = Some filenames →
  find_csv_file fs (path_join LOCAL_ROOT bucket) symbol filenames = Some csv_file →
  refresh_source fs (bucket_cache_key bucket symbol csv_file)
  = Some (path_join (path_join LOCAL_ROOT bucket) csv_file).
Proof.
  intros Hb Hl Hf. pose proof Hf as Hf'. unfold find_csv_file in Hf.
  apply find_some_elem in Hf' as [_ Hcsv]. unfold find_csv_file in Hcsv.
  apply andb_true_iff in Hcsv as [Hdata Hcsv].
  destruct (pattern_match csv_file) as [[ts_id t_id]|] eqn:Hpm; [|done].
  assert (bucket_cache_key bucket symbol csv_file = bucket +:+ "/TS-" +:+ ts_id
          ∧ List.find
              (fun filename =>
                 is_data_csv filename &&
                 match pattern_match filename with
                 | Some (id, _) => bool_decide (id = ts_id)
                 | None => false
                 end) filenames = Some csv_file) as [-> Hfind].
  { unfold bucket_cache_key.
    destruct (Str.startswith symbol "TS-" || Str.isdigit symbol) eqn:Ets.
    - apply bool_decide_eq_true in Hcsv.
      assert (bucket +:+ "/TS-" +:+ ts_id
              = (if Str.isdigit symbol then bucket +:+ "/TS-" +:+ symbol
                 else bucket +:+ "/" +:+ symbol)
              ∧ (if Str.startswith symbol "TS-" then Some (Str.drop 3 symbol)
                 else if Str.isdigit symbol then Some symbol else None)
                = Some ts_id) as [<- Htarget].
      { destruct (Str.startswith symbol "TS-") eqn:E1.
        - assert (ts_id = Str.drop 3 symbol) as Hts by congruence.
          unfold Str.startswith in E1.
          apply prefix_inv in E1. change (String.length "TS-") with 3 in E1.
          rewrite <- Hts in E1. rewrite E1.
          destruct (ts_form ts_id) as (_ & -> & ->). done.
        - simpl in Ets. rewrite Ets in Hcsv |- *. by injection Hcsv as <-. }
      split; [done|]. rewrite <- Hf. apply find_ext. intros f _. f_equal.
      destruct (pattern_match f) as [[id t]|]; [|done]. rewrite Htarget.
      apply bool_decide_ext. split; [by intros ->|by intros [= ->]].
    - rewrite Hpm. split; [done|].
      apply bool_decide_eq_true in Hcsv.
      eapply find_first; [exact Hf| |].
      + by rewrite Hdata, Hpm, bool_decide_true.
      + intros f _ Hq. apply andb_true_iff in Hq as [-> Hq]. simpl.
        destruct (pattern_match f) as [[id t]|]; [|done].
        apply bool_decide_eq_true in Hq as ->. by rewrite bool_decide_true. }
  rewrite refresh_source_key by done. rewrite Hl. simpl. by rewrite Hfind.
Qed.

Lemma refresh_source_of_served_witness :
  refresh_source two_symbol_fs (bucket_cache_key "demo" "BTC" btc_file)
  = Some (path_join (path_join LOCAL_ROOT "demo") btc_file).
Proof.
  apply (refresh_source_of_served two_symbol_fs "demo" "BTC" [btc_file; eth_file]);
    vm_compute; reflexivity.
Defined.

(** ** The cache under the handlers *)

Lemma df_empty_set_column name c df :
  df_empty df = false → df_empty (set_column name c df) = false.
Proof.
  unfold df_empty, set_column. simpl. intros H.
  apply orb_false_iff in H as [-> _]. simpl.
  apply bool_decide_eq_false. apply insert_non_empty.
Qed.

Lemma no_empty_entry_set_data k df st :
  no_empty_entry st → df_empty df = false → no_empty_entry (set_data k df st).
Proof. intros H Hd. by apply map_Forall_insert_2. Qed.

Lemma refresh_if_stale_no_empty fs cache_key csv_path st :
  no_empty_entry st → no_empty_entry (refresh_if_stale fs cache_key csv_path st).2.
Proof.
  intros H. unfold refresh_if_stale, serve.
  destruct (df_empty (load_csv_data_from_path fs csv_path)) eqn:E;
    repeat case_match; simplify_eq/=; try done;
    by apply (no_empty_entry_set_data _ _ (record_load csv_path st)).
Qed.

Lemma refresh_entry_no_empty fs cache_key csv_path st :
  no_empty_entry st → no_empty_entry (refresh_entry fs cache_key csv_path st).
Proof.
  intros H. unfold refresh_entry.
  destruct (df_empty (load_csv_data_from_path fs csv_path)) eqn:E;
    repeat case_match; simplify_eq/=; try done;
    by apply (no_empty_entry_set_data _ _ (record_load csv_path st)).
Qed.

Lemma foldl_invariant {A B} (P : A → Prop) (f : A → B → A) (l : list B) a :
  (∀ a b, b ∈ l → P a → P (f a b)) → P a → P (foldl f a l).
Proof.
  revert a. induction l as [|b l IH]; intros a Hf Ha; simpl; [done|].
  apply IH; [|apply Hf; [by left|done]].
  intros a' b' Hb'. apply Hf. by right.
Qed.

Lemma refresh_data_cache_no_empty fs st :
  no_empty_entry st → no_empty_entry (refresh_data_cache fs st).
Proof.
  intros H. unfold refresh_data_cache. apply foldl_invariant; [|done].
  intros st' k _ H'. unfold refresh_key.
  destruct (refresh_source fs k); [|done]. by apply refresh_entry_no_empty.
Qed.

Lemma summarize_not_empty bucket_name info df :
  df_empty df = false → df_empty (summarize bucket_name info df).2 = false.
Proof.
  intros H. unfold summarize.
  repeat case_match; simpl; try done; by apply df_empty_set_column.
Qed.

Lemma process_symbol_no_empty fs bucket_name bucket_path info st :
  no_empty_entry st → no_empty_entry (process_symbol fs bucket_name bucket_path info st).2.
Proof.
  intros H. unfold process_symbol.
  set (cache_key := bucket_name +:+ "/TS-" +:+ si_ts_id info).
  destruct (DATA_CACHE st !! cache_key) as [df|] eqn:Hk.
  - pose proof (summarize_not_empty bucket_name info df) as Hs.
    destruct (summarize bucket_name info df) as [result df']. simpl in *.
    destruct (df_empty df) eqn:E; [done|].
    apply no_empty_entry_set_data; [done|by apply Hs].
  - set (csv_path := path_join bucket_path (si_filename info)).
    destruct (df_empty (load_csv_data_from_path fs csv_path)) eqn:E; simpl.
    + destruct (summarize _ _ _) as [result df']. simpl. rewrite ?E. exact H.
    + assert (no_empty_entry (set_data cache_key (load_csv_data_from_path fs csv_path)
                               (record_load csv_path st))) as H1
        by by apply (no_empty_entry_set_data _ _ (record_load csv_path st)).
      destruct (fs_getmtime fs csv_path) as [mtime|]; [|done].
      pose proof (summarize_not_empty bucket_name info _ E) as Hs.
      destruct (summarize _ _ _) as [result df']. simpl in *. rewrite E.
      by apply (no_empty_entry_set_data _ _ (set_modified _ _ _)).
Qed.

Lemma process_bucket_summary_no_empty fs job st :
  no_empty_entry st → no_empty_entry (process_bucket_summary fs job st).2.
Proof.
  intros H. unfold process_bucket_summary.
  apply (foldl_invariant (fun acc => no_empty_entry acc.2)); [|done].
  intros [results st'] info _ H'. simpl in *.
  pose proof (process_symbol_no_empty fs (job_bucket_name job)
                (path_join LOCAL_ROOT (job_bucket_name job)) info st' H') as Hp.
  by destruct (process_symbol _ _ _ _ _).
Qed.

Lemma get_symbols_summary_no_empty fs jobs completed st :
  no_empty_entry st → no_empty_entry (get_symbols_summary fs jobs completed st).2.
Proof.
  intros H. unfold get_symbols_summary.
  apply (foldl_invariant (fun acc => no_empty_entry acc.2)); [|done].
  intros [results st'] job _ H'. simpl in *.
  pose proof (process_bucket_summary_no_empty fs job st' H') as Hp.
  by destruct (process_bucket_summary _ _ _).
Qed.

(** X5: no handler caches an empty frame. When no cached frame is empty,
    this is so again after [get_bucket_data], after [refresh_data_cache]
    and after [get_symbols_summary], whatever the files hold, and every
    frame [get_bucket_data] answers with has rows and columns. *)
Theorem handlers_cache_no_empty_frame fs st :
  no_empty_entry st →
  (∀ bucket symbol,
     no_empty_entry (get_bucket_data fs bucket symbol st).2
     ∧ ∀ df, (get_bucket_data fs bucket symbol st).1 = Ok200 df → df_empty df = false)
  ∧ no_empty_entry (refresh_data_cache fs st)
  ∧ (∀ jobs completed, no_empty_entry (get_symbols_summary fs jobs completed st).2).
Proof.
  intros H. split; [|split].
  - intros bucket symbol.
    assert (no_empty_entry (get_bucket_data fs bucket symbol st).2) as Hn.
    { unfold get_bucket_data. repeat case_match; try done.
      by apply refresh_if_stale_no_empty. }
    split; [done|]. intros df Hdf.
    destruct (get_bucket_data fs bucket symbol st) as [r st'] eqn:Hget.
    simpl in *. subst r. unfold get_bucket_data in Hget.
    repeat case_match; try done.
    unfold refresh_if_stale, serve in Hget.
    assert (DATA_CACHE st' !! bucket_cache_key bucket symbol s = Some df) as Hlook
      by (repeat case_match; simplify_eq/=; done).
    exact (Hn _ _ Hlook).
  - by apply refresh_data_cache_no_empty.
  - intros jobs completed. by apply get_symbols_summary_no_empty.
Qed.

Lemma handlers_cache_no_empty_frame_witness :
  (∀ bucket symbol,
     no_empty_entry (get_bucket_data two_symbol_fs bucket symbol demo_cache).2
     ∧ ∀ df, (get_bucket_data two_symbol_fs bucket symbol demo_cache).1 = Ok200 df →
             df_empty df = false)
  ∧ no_empty_entry (refresh_data_cache two_symbol_fs demo_cache)
  ∧ (∀ jobs completed,
       no_empty_entry (get_symbols_summary two_symbol_fs jobs completed demo_cache).2).
Proof.
  apply (handlers_cache_no_empty_frame two_symbol_fs demo_cache).
  unfold no_empty_entry. apply (bool_decide_unpack _). vm_compute. exact I.
Defined.

(** *** [refresh_data_cache] *)

Lemma refresh_key_cases fs st k :
  (updates fs st k = false
   ∧ DATA_CACHE (refresh_key fs st k) = DATA_CACHE st
   ∧ LAST_MODIFIED (refresh_key fs st k) = LAST_MODIFIED st
   ∧ data_version (refresh_key fs st k) = data_version st)
  ∨ (updates fs st k = true
     ∧ ∃ csv_path current_mtime,
         refresh_source fs k = Some csv_path
         ∧ fs_getmtime fs csv_path = Some current_mtime
         ∧ df_empty (load_csv_data_from_path fs csv_path) = false
         ∧ DATA_CACHE (refresh_key fs st k)
           = <[k := load_csv_data_from_path fs csv_path]> (DATA_CACHE st)
         ∧ LAST_MODIFIED (refresh_key fs st k)
           = <[k := current_mtime]> (LAST_MODIFIED st)
         ∧ data_version (refresh_key fs st k) = (data_version st + 1)%Z).
Proof.
  unfold updates, refresh_key, refresh_entry.
  destruct (refresh_source fs k) as [csv_path|]; [|by left].
  destruct (fs_getmtime fs csv_path) as [m|] eqn:Hm; [|by left].
  destruct (F64.ltb _ m); [|by left]. simpl.
  destruct (df_empty (load_csv_data_from_path fs csv_path)) eqn:E; [by left|].
  right. split; [done|]. by exists csv_path, m.
Qed.

Lemma refresh_fold_invariant fs st l :
  (∀ k, k ∈ l → k ∈ dom (DATA_CACHE st)) →
  let st' := foldl (refresh_key fs) st l in
  dom (DATA_CACHE st') = dom (DATA_CACHE st)
  ∧ (∀ k df,
       DATA_CACHE st' !! k = Some df →
       DATA_CACHE st !! k = Some df
       ∨ ∃ csv_path, refresh_source fs k = Some csv_path
                     ∧ df = load_csv_data_from_path fs csv_path)
  ∧ (data_version st ≤ data_version st')%Z.
Proof.
  intros Hl. cbn zeta.
  apply (foldl_invariant
           (fun st' =>
              dom (DATA_CACHE st') = dom (DATA_CACHE st)
              ∧ (∀ k df,
                   DATA_CACHE st' !! k = Some df →
                   DATA_CACHE st !! k = Some df
                   ∨ ∃ csv_path, refresh_source fs k = Some csv_path
                                 ∧ df = load_csv_data_from_path fs csv_path)
              ∧ (data_version st ≤ data_version st')%Z));
    [|by auto with lia].
  intros st' k Hk (Hdom & Hframes & Hv). apply Hl in Hk.
  destruct (refresh_key_cases fs st' k)
    as [(_ & -> & _ & ->)|(_ & p & m & Hp & _ & _ & -> & _ & ->)]; [done|].
  split; [|split; [|lia]].
  - rewrite dom_insert_L, Hdom. apply subseteq_union_1_L.
    by apply singleton_subseteq_l.
  - intros k' df. destruct (decide (k' = k)) as [->|Hne].
    + rewrite lookup_insert_eq. intros [= <-]. right. by exists p.
    + rewrite lookup_insert_ne by done. apply Hframes.
Qed.

(** X6: [refresh_data_cache] keeps the set of cached keys: it replaces
    frames of keys that are cached and adds or removes none. A frame it
    leaves under a key is the frame that was there or the frame the loader
    yields for the file of the key, and the version does not decrease. *)
Theorem refresh_data_cache_keeps_keys fs st :
  dom (DATA_CACHE (refresh_data_cache fs st)) = dom (DATA_CACHE st)
  ∧ (∀ k df,
       DATA_CACHE (refresh_data_cache fs st) !! k = Some df →
       DATA_CACHE st !! k = Some df
       ∨ ∃ csv_path, refresh_source fs k = Some csv_path
                     ∧ df = load_csv_data_from_path fs csv_path)
  ∧ (data_version st ≤ data_version (refresh_data_cache fs st))%Z.
Proof.
  apply (refresh_fold_invariant fs st (elements (dom (DATA_CACHE st)))).
  intros k. apply elem_of_elements.
Qed.

Lemma ltb_irrefl (x : float) : F64.ltb x x = false.
Proof.
  unfold F64.ltb, SFltb. destruct x as [s|s| |s m e]; simpl; try done.
  - by destruct s.
  - destruct s; rewrite Z.compare_refl, Pos.compare_refl; done.
Qed.

Lemma updates_lookup fs st st' k :
  LAST_MODIFIED st' !! k = LAST_MODIFIED st !! k →
  updates fs st' k = updates fs st k.
Proof. intros H. unfold updates. by rewrite H. Qed.

Lemma refresh_key_settles fs st k k' :
  (k' = k ∨ updates fs st k' = false) →
  updates fs (refresh_key fs st k) k' = false.
Proof.
  intros Hk'.
  destruct (refresh_key_cases fs st k)
    as [(Hu & _ & Hlm & _)|(Hu & p & m & Hp & Hm & _ & _ & Hlm & _)].
  - rewrite (updates_lookup fs st) by by rewrite Hlm.
    by destruct Hk' as [->|].
  - destruct (decide (k' = k)) as [->|Hne].
    + unfold updates. rewrite Hp, Hm, Hlm, lookup_insert_eq. simpl.
      by rewrite ltb_irrefl.
    + rewrite (updates_lookup fs st) by by rewrite Hlm, lookup_insert_ne.
      by destruct Hk' as [->|].
Qed.

Lemma refresh_pass_settles fs l st :
  (∀ k, k ∈ l → updates fs (foldl (refresh_key fs) st l) k = false)
  ∧ (∀ k, updates fs st k = false →
          updates fs (foldl (refresh_key fs) st l) k = false).
Proof.
  revert st. induction l as [|k l IH]; intros st; simpl.
  - split; [by intros k Hk; apply elem_of_nil in Hk|done].
  - destruct (IH (refresh_key fs st k)) as [IH1 IH2]. split.
    + intros k' Hk'. apply elem_of_cons in Hk' as [->|Hk'].
      * apply IH2. apply refresh_key_settles. by left.
      * by apply IH1.
    + intros k' Hk'. apply IH2. apply refresh_key_settles. by right.
Qed.

Lemma refresh_pass_settled fs l st :
  (∀ k, k ∈ l → updates fs st k = false) →
  DATA_CACHE (foldl (refresh_key fs) st l) = DATA_CACHE st
  ∧ LAST_MODIFIED (foldl (refresh_key fs) st l) = LAST_MODIFIED st
  ∧ data_version (foldl (refresh_key fs) st l) = data_version st.
Proof.
  revert st. induction l as [|k l IH]; intros st Hl; simpl; [done|].
  destruct (refresh_key_cases fs st k) as [(_ & Hd & Hlm & Hv)|(Hu & _)].
  - destruct (IH (refresh_key fs st k)) as (-> & -> & ->); [|done].
    intros k' Hk'. rewrite (updates_lookup fs st) by by rewrite Hlm.
    apply Hl. by right.
  - rewrite Hl in Hu; [done|by left].
Qed.

(** X7: a second [refresh_data_cache] over unchanged files changes nothing
    that a request can see: the cached frames, the stored modification
    times and the version are those the first refresh left. *)
Theorem refresh_data_cache_twice fs st :
  let st1 := refresh_data_cache fs st in
  let st2 := refresh_data_cache fs st1 in
  DATA_CACHE st2 = DATA_CACHE st1
  ∧ LAST_MODIFIED st2 = LAST_MODIFIED st1
  ∧ data_version st2 = data_version st1.
Proof.
  cbn zeta.
  destruct (refresh_fold_invariant fs st (elements (dom (DATA_CACHE st))))
    as [Hdom _]; [intros k; apply elem_of_elements|].
  change (foldl (refresh_key fs) st (elements (dom (DATA_CACHE st))))
    with (refresh_data_cache fs st) in Hdom.
  assert (refresh_data_cache fs (refresh_data_cache fs st)
          = foldl (refresh_key fs) (refresh_data_cache fs st)
              (elements (dom (DATA_CACHE st)))) as ->
    by (unfold refresh_data_cache at 1; by rewrite Hdom).
  apply refresh_pass_settled. intros k Hk. unfold refresh_data_cache.
  by apply (proj1 (refresh_pass_settles fs (elements (dom (DATA_CACHE st))) st)).
Qed.

(** *** A repeated request *)

Ltac cache_simpl :=
  cbn [DATA_CACHE LAST_MODIFIED data_version loads record_load set_data
       set_modified bump_version negb].

Lemma refresh_if_stale_again fs cache_key csv_path st df st' :
  refresh_if_stale fs cache_key csv_path st = (Ok200 df, st') →
  ∃ st'', refresh_if_stale fs cache_key csv_path st' = (Ok200 df, st'')
          ∧ DATA_CACHE st'' = DATA_CACHE st'
          ∧ LAST_MODIFIED st'' = LAST_MODIFIED st'
          ∧ data_version st'' = data_version st'.
Proof.
  assert (∀ m st0,
            fs_getmtime fs csv_path = Some m →
            refresh_if_stale fs cache_key csv_path
              (bump_version (set_modified cache_key m
                 (set_data cache_key (load_csv_data_from_path fs csv_path) st0)))
            = (Ok200 (load_csv_data_from_path fs csv_path),
               bump_version (set_modified cache_key m
                 (set_data cache_key (load_csv_data_from_path fs csv_path) st0))))
    as Hfresh.
  { intros m st0 Hm. unfold refresh_if_stale, serve. cache_simpl.
    by rewrite !lookup_insert_eq, Hm, gtb_irrefl. }
  unfold refresh_if_stale at 1. unfold serve.
  destruct (DATA_CACHE st !! cache_key) as [df0|] eqn:Hd;
    [destruct (LAST_MODIFIED st !! cache_key) as [stored|] eqn:Hl|].
  - destruct (fs_getmtime fs csv_path) as [m|] eqn:Hm; [|done].
    destruct (F64.gtb m stored) eqn:Hgt;
      [destruct (df_empty (load_csv_data_from_path fs csv_path)) eqn:He|];
      cache_simpl.
    + rewrite Hd. intros [= <- <-]. eexists. split.
      { unfold refresh_if_stale, serve. cache_simpl.
        rewrite Hd, Hl, Hm, Hgt, He. reflexivity. }
      done.
    + rewrite lookup_insert_eq. intros [= <- <-].
      eexists. split.
    { apply (Hfresh m (record_load csv_path st) eq_refl). }
    done.
    + rewrite ?Hd. intros [= <- <-]. eexists. split.
      { unfold refresh_if_stale, serve. rewrite Hd, Hl, Hm, Hgt. reflexivity. }
      done.
  - destruct (df_empty (load_csv_data_from_path fs csv_path)) eqn:He;
      [by intros [=]|].
    destruct (fs_getmtime fs csv_path) as [m|] eqn:Hm; [|by intros [=]].
    cache_simpl.
    rewrite lookup_insert_eq. intros [= <- <-].
    eexists. split.
    { apply (Hfresh m (record_load csv_path st) eq_refl). }
    done.
  - destruct (df_empty (load_csv_data_from_path fs csv_path)) eqn:He;
      [by intros [=]|].
    destruct (fs_getmtime fs csv_path) as [m|] eqn:Hm; [|by intros [=]].
    cache_simpl.
    rewrite lookup_insert_eq. intros [= <- <-].
    eexists. split.
    { apply (Hfresh m (record_load csv_path st) eq_refl). }
    done.
Qed.

(** X8: when [get_bucket_data] has answered a request with a frame, the
    same request over unchanged files is answered with the same frame and
    leaves the cached frames, the stored modification times and the
    version as they are. *)
Theorem get_bucket_data_again fs bucket symbol st df st' :
  get_bucket_data fs bucket symbol st = (Ok200 df, st') →
  ∃ st'', get_bucket_data fs bucket symbol st' = (Ok200 df, st'')
          ∧ DATA_CACHE st'' = DATA_CACHE st'
          ∧ LAST_MODIFIED st'' = LAST_MODIFIED st'
          ∧ data_version st'' = data_version st'.
Proof.
  unfold get_bucket_data.
  destruct (fs_listdir fs (path_join LOCAL_ROOT bucket)) as [filenames|]; [|done].
  destruct (find_csv_file fs _ symbol filenames) as [csv_file|]; [|done].
  intros H. apply refresh_if_stale_again in H as (st'' & H & H1 & H2 & H3).
  by exists st''.
Qed.

Lemma get_bucket_data_again_witness :
  ∃ df st' st'',
    get_bucket_data two_symbol_fs "demo" "BTC" demo_cache = (Ok200 df, st')
    ∧ get_bucket_data two_symbol_fs "demo" "BTC" st' = (Ok200 df, st'')
    ∧ DATA_CACHE st'' = DATA_CACHE st'
    ∧ LAST_MODIFIED st'' = LAST_MODIFIED st'
    ∧ data_version st'' = data_version st'.
Proof.
  assert (∃ df st',
            get_bucket_data two_symbol_fs "demo" "BTC" demo_cache = (Ok200 df, st'))
    as (df & st' & H) by (eexists _, _; vm_compute; reflexivity).
  destruct (get_bucket_data_again two_symbol_fs "demo" "BTC" demo_cache df st' H)
    as (st'' & H').
  exists df, st', st''. split; [exact H|exact H'].
Defined.

(** ** The derived columns *)

Lemma mul_nan_r (x : float) : F64.mul x F64.nan = F64.nan.
Proof. by destruct x. Qed.

Lemma sub_nan_r (x : float) : F64.sub x F64.nan = F64.nan.
Proof. by destruct x. Qed.

Lemma div_nan_r (x : float) : F64.div x F64.nan = F64.nan.
Proof. by destruct x. Qed.

Lemma ffill_from_head v c close :
  head (Series.ffill_from v (c :: close)) = Some (if F64.isnan c then v else c).
Proof. reflexivity. Qed.

Lemma pct_change_head c close :
  head (Series.pct_change (c :: close)) = Some F64.nan.
Proof.
  unfold Series.pct_change, Series.ffill, Series.shift.
  cbn [Series.ffill_from length take zip_with head].
  by rewrite div_nan_r.
Qed.

Lemma head_fmap {A B} (f : A → B) (l : list A) : head (f <$> l) = f <$> head l.
Proof. by destruct l. Qed.

Lemma head_zip_with {A B C} (f : A → B → C) l k a b :
  head l = Some a → head k = Some b → head (zip_with f l k) = Some (f a b).
Proof. destruct l, k; simpl; congruence. Qed.

Lemma derive_first_strategy_return fee c close p position :
  head (returns (derive fee (c :: close) (p :: position))) = Some F64.zero
  ∧ head (position_lag (derive fee (c :: close) (p :: position))) = Some F64.zero
  ∧ head (strategy_returns (derive fee (c :: close) (p :: position)))
    = Some F64.zero.
Proof.
  unfold derive; cbn [returns position_lag strategy_returns].
  assert (head (Series.fillna F64.zero (Series.pct_change (c :: close)))
          = Some F64.zero) as H1.
  { unfold Series.fillna. by rewrite head_fmap, pct_change_head. }
  assert (head (Series.fillna F64.zero (Series.shift (p :: position)))
          = Some F64.zero) as H2 by reflexivity.
  split; [done|]. split; [done|].
  unfold Series.fillna at 1. unfold Series.replace_inf, Series.mul.
  rewrite !head_fmap, (head_zip_with _ _ _ _ _ H1 H2). reflexivity.
Qed.

Lemma capped_cumulative_head_zero s :
  head s = Some F64.zero → head (capped_cumulative s) = Some F64.zero.
Proof. destruct s as [|x s]; [done|]. intros [= ->]. reflexivity. Qed.

Lemma capped_cumulative_head_nan s :
  head s = Some F64.nan → head (capped_cumulative s) = Some F64.zero.
Proof. destruct s as [|x s]; [done|]. intros [= ->]. reflexivity. Qed.

(** X9: on every series with at least one sample, the first sample has
    return 0, lagged position 0, strategy return 0 and cumulative return 0,
    before and after fees, whatever the prices, the positions and the fee
    are. *)
Theorem derive_first_row_zero fee c close p position :
  let d := derive fee (c :: close) (p :: position) in
  head (returns d) = Some F64.zero
  ∧ head (position_lag d) = Some F64.zero
  ∧ head (strategy_returns d) = Some F64.zero
  ∧ head (cumulative_return d) = Some F64.zero
  ∧ head (cumulative_return_after_fees d) = Some F64.zero.
Proof.
  cbn zeta.
  destruct (derive_first_strategy_return fee c close p position) as (H1 & H2 & H3).
  split; [done|]. split; [done|]. split; [done|].
  destruct (transaction_cost_first_row fee c close p position) as [Hfee _].
  unfold derive in *;
    cbn [strategy_returns cumulative_return cumulative_return_after_fees
         transaction_cost] in *.
  split; [by apply capped_cumulative_head_zero|].
  apply capped_cumulative_head_nan. unfold Series.sub.
  by rewrite (head_zip_with _ _ _ _ _ H3 Hfee).
Qed.

(** *** No NaN and no infinity in the strategy returns *)

Lemma fillna_no_nan (s : list float) :
  Forall (fun x => F64.isnan x = false) (Series.fillna F64.zero s).
Proof.
  unfold Series.fillna. apply Forall_fmap, Forall_forall. intros x _. simpl.
  by destruct (F64.isnan x) eqn:E.
Qed.

(** X10: the columns [returns], [position_lag] and [strategy_returns] never
    hold NaN, and [strategy_returns] never holds an infinity: line 183
    replaces both by 0. *)
Theorem derive_strategy_returns_finite fee close position :
  let d := derive fee close position in
  Forall (fun x => F64.isnan x = false) (returns d)
  ∧ Forall (fun x => F64.isnan x = false) (position_lag d)
  ∧ Forall (fun x => F64.isnan x = false ∧ F64.isinf x = false) (strategy_returns d).
Proof.
  cbn zeta. unfold derive; cbn [returns position_lag strategy_returns].
  split; [apply fillna_no_nan|]. split; [apply fillna_no_nan|].
  unfold Series.fillna at 1. unfold Series.replace_inf.
  rewrite <- list_fmap_compose. apply Forall_fmap, Forall_forall.
  intros x _. simpl. by destruct x.
Qed.

(** *** A flat strategy *)

Lemma shift_replicate_zero n :
  Series.fillna F64.zero (Series.shift (replicate n F64.zero)) = replicate n F64.zero.
Proof.
  unfold Series.shift. rewrite length_replicate.
  destruct n as [|n]; [done|]. cbn [take].
  rewrite take_replicate. replace (n `min` S n) with n by lia.
  unfold Series.fillna. cbn [fmap list_fmap]. rewrite fmap_replicate. reflexivity.
Qed.

Lemma diff_replicate_zero n :
  Series.diff (replicate (S n) F64.zero) = F64.nan :: replicate n F64.zero.
Proof.
  unfold Series.diff, Series.shift. rewrite length_replicate.
  cbn [take]. rewrite take_replicate.
  replace (n `min` S n) with n by lia. cbn [replicate zip_with]. f_equal.
  rewrite zip_with_replicate. reflexivity.
Qed.

(** A return multiplied by a flat position, after line 183: a zero. *)
Lemma flat_strategy_return (x : float) :
  let y := F64.mul x F64.zero in
  let z := if F64.isinf y then F64.zero else y in
  F64.add F64.one (if F64.isnan z then F64.zero else z) = F64.one.
Proof. by destruct x as [[]|[]| |[] m e]. Qed.

Lemma flat_strategy_return_after_fees (x : float) :
  let y := F64.mul x F64.zero in
  let z := if F64.isinf y then F64.zero else y in
  F64.add F64.one (F64.sub (if F64.isnan z then F64.zero else z) F64.zero)
  = F64.one.
Proof. by destruct x as [[]|[]| |[] m e]. Qed.

Lemma cumprod_from_ones acc n :
  (acc = None ∨ acc = Some F64.one) →
  Series.cumprod_from acc (replicate n F64.one) = replicate n F64.one.
Proof.
  revert acc. induction n as [|n IH]; intros acc Hacc; [done|].
  cbn [replicate Series.cumprod_from]. change (F64.isnan F64.one) with false.
  cbn iota. destruct Hacc as [->| ->].
  - f_equal. apply IH. by right.
  - change (F64.mul F64.one F64.one) with F64.one. f_equal. apply IH. by right.
Qed.

Lemma capped_cumulative_flat (s : list float) :
  Series.radd F64.one s = replicate (length s) F64.one →
  capped_cumulative s = replicate (length s) F64.zero.
Proof.
  intros H. unfold capped_cumulative, Series.cumprod. rewrite H.
  rewrite cumprod_from_ones by by left.
  unfold Series.sub_scalar, Series.clip, Series.fillna.
  rewrite !fmap_replicate. reflexivity.
Qed.

Lemma capped_cumulative_flat_nan (s : list float) :
  Series.radd F64.one s = replicate (length s) F64.one →
  capped_cumulative (F64.nan :: s) = replicate (S (length s)) F64.zero.
Proof.
  intros H. unfold capped_cumulative, Series.cumprod, Series.radd in *.
  cbn [fmap list_fmap Series.cumprod_from]. rewrite H.
  change (F64.isnan (F64.add F64.one F64.nan)) with true. cbn iota.
  rewrite cumprod_from_ones by by right.
  unfold Series.sub_scalar, Series.clip, Series.fillna.
  cbn [fmap list_fmap replicate]. rewrite !fmap_replicate. reflexivity.
Qed.

Lemma fmap_constant {A B} (f : A → B) (l : list A) y :
  (∀ x, f x = y) → f <$> l = replicate (length l) y.
Proof.
  intros H. induction l as [|x l IH]; [done|]. cbn [fmap list_fmap length replicate].
  rewrite H. f_equal. exact IH.
Qed.

Lemma zip_with_replicate_right {A B C} (f : A → B → C) (l : list A) n y :
  length l = n → zip_with f l (replicate n y) = (fun x => f x y) <$> l.
Proof.
  revert n. induction l as [|x l IH]; intros [|n] Hn; simplify_eq/=; [done|].
  f_equal. by apply IH.
Qed.

(** X11: a strategy that is flat at every sample (position 0 throughout) has
    cumulative return 0 at every sample, before and after fees, whatever
    the prices and the fee are. *)
Theorem derive_flat_strategy fee close n :
  length close = n →
  let d := derive fee close (replicate n F64.zero) in
  cumulative_return d = replicate n F64.zero
  ∧ cumulative_return_after_fees d = replicate n F64.zero.
Proof.
  intros Hn. cbn zeta. unfold derive;
    cbn [cumulative_return cumulative_return_after_fees].
  rewrite shift_replicate_zero.
  set (r := Series.fillna F64.zero (Series.pct_change close)).
  assert (length r = n) as Hr.
  { unfold r, Series.fillna. by rewrite length_fmap, pct_change_length. }
  unfold Series.mul. rewrite (zip_with_replicate_right _ r n) by done.
  set (s := Series.fillna F64.zero (Series.replace_inf F64.zero
                                      ((fun x => F64.mul x F64.zero) <$> r))).
  assert (length s = n) as Hs.
  { unfold s, Series.fillna, Series.replace_inf. by rewrite !length_fmap. }
  split.
  - rewrite <- Hs. apply capped_cumulative_flat.
    unfold s, Series.fillna, Series.replace_inf, Series.radd.
    rewrite <- !list_fmap_compose, !length_fmap.
    apply fmap_constant. intros x. apply flat_strategy_return.
  - destruct n as [|n].
    { destruct close; [|done]. reflexivity. }
    rewrite diff_replicate_zero.
    destruct close as [|c close]; [done|].
    unfold Series.ne, Series.abs, Series.rmul.
    cbn [length replicate fmap list_fmap Series.loc_assign].
    change (F64.neb F64.nan F64.zero) with true. cbn iota.
    rewrite !fmap_replicate. change (F64.neb F64.zero F64.zero) with false.
    assert (∀ (old new : list float),
              Series.loc_assign (replicate n false) old new = old) as Hloc.
    { clear. induction n as [|n IH]; intros [|o old] [|x new]; simpl; try done.
      by rewrite IH. }
    rewrite Hloc. change (F64.abs F64.nan) with F64.nan. rewrite mul_nan_r.
    destruct s as [|s0 s'] eqn:Es; [done|]. unfold Series.sub.
    cbn [zip_with]. rewrite sub_nan_r.
    injection Hs as Hs. injection Hn as Hn. rewrite Hn.
    rewrite (zip_with_replicate_right _ s' n) by done.
    change (F64.zero :: replicate n F64.zero) with (replicate (S n) F64.zero).
    rewrite <- Hs.
    rewrite <- (length_fmap (fun x => F64.sub x F64.zero) s').
    apply capped_cumulative_flat_nan.
    assert (Forall (fun y => ∃ x, y = (let y := F64.mul x F64.zero in
                                     let z := if F64.isinf y then F64.zero else y in
                                     if F64.isnan z then F64.zero else z)) s') as Hs'.
    { assert (Forall (fun y => ∃ x, y = (let y := F64.mul x F64.zero in
                                     let z := if F64.isinf y then F64.zero else y in
                                     if F64.isnan z then F64.zero else z)) s) as HF.
      { unfold s, Series.fillna, Series.replace_inf.
        rewrite <- !list_fmap_compose. apply Forall_fmap, Forall_forall.
        intros x _. by exists x. }
      rewrite Es in HF. by apply Forall_cons in HF as [_ HF]. }
    unfold Series.radd. rewrite <- list_fmap_compose, !length_fmap.
    clear -Hs'. induction Hs' as [|y l [x ->] _ IH]; [done|].
    cbn [fmap list_fmap length replicate]. f_equal; [|exact IH].
    apply flat_strategy_return_after_fees.
Qed.

Lemma derive_flat_strategy_witness :
  let d := derive F64.lit_0_05 [F64.of_Z 100; F64.of_Z 110] (replicate 2 F64.zero) in
  cumulative_return d = replicate 2 F64.zero
  ∧ cumulative_return_after_fees d = replicate 2 F64.zero.
Proof.
  apply (derive_flat_strategy F64.lit_0_05 [F64.of_Z 100; F64.of_Z 110] 2).
  reflexivity.
Defined.

(** *** The derived block and the columns it reads *)

Lemma derive_all_lengths fee (close position : list float) n :
  length close = n → length position = n →
  let d := derive fee close position in
  length (returns d) = n ∧ length (position_lag d) = n
  ∧ length (strategy_returns d) = n ∧ length (cumulative_return d) = n
  ∧ length (position_change d) = n ∧ length (is_trade d) = n
  ∧ length (position_change_abs d) = n ∧ length (fee_multiplier d) = n
  ∧ length (strategy_returns_after_fees d) = n
  ∧ length (cumulative_return_after_fees d) = n
  ∧ length (transaction_cost d) = n.
Proof.
  intros Hc Hp. cbn zeta. unfold derive;
    cbn [returns position_lag strategy_returns cumulative_return position_change
         is_trade position_change_abs fee_multiplier strategy_returns_after_fees
         cumulative_return_after_fees transaction_cost].
  rewrite !capped_cumulative_length.
  unfold Series.sub, Series.mul, Series.fillna, Series.replace_inf, Series.ne,
    Series.abs, Series.rmul.
  rewrite ?length_zip_with, ?length_fmap, ?length_zip_with, ?length_fmap,
    ?loc_assign_length, ?length_replicate, ?pct_change_length, ?shift_length,
    ?diff_length, ?Hc, ?Hp.
  repeat split; lia.
Qed.

Lemma well_formed_set_column name c df :
  well_formed df → column_length c = df_len df → well_formed (set_column name c df).
Proof. intros H Hc. by apply map_Forall_insert_2. Qed.

Lemma lookup_set_column_ne name name' c df :
  name ≠ name' → df_columns (set_column name c df) !! name' = df_columns df !! name'.
Proof. intros. unfold set_column. simpl. by rewrite lookup_insert_ne. Qed.

(** X12: the derived block of the loader adds columns and changes nothing
    else: the frame keeps its row count and every column that is not one
    of the eleven derived ones ([close], [position] and [timestamp] among
    them), and when every column of the frame read from the file has one
    value per row, so has every column of the frame returned. *)
Theorem calculate_cumulative_returns_keeps_inputs fee df df' :
  calculate_cumulative_returns fee df = Some df' →
  df_len df' = df_len df
  ∧ (∀ name, name ∉ derived_columns → df_columns df' !! name = df_columns df !! name)
  ∧ (well_formed df → well_formed df').
Proof.
  unfold calculate_cumulative_returns.
  destruct (needs_derived df); [|by intros [= <-]].
  destruct (float_column df "close") as [close|] eqn:Hc; [|done].
  destruct (float_column df "position") as [position|] eqn:Hp; [|done].
  cbn [mbind option_bind]. intros [= <-]. split; [done|]. split.
  - intros name Hname. unfold derived_columns in Hname.
    repeat (rewrite lookup_set_column_ne;
            [|intros <-; apply Hname; repeat first [by left|right]]).
    done.
  - intros Hwf.
    destruct (derive_all_lengths fee close position (df_len df))
      as (L1 & L2 & L3 & L4 & L5 & L6 & L7 & L8 & L9 & L10 & L11);
      [by eapply float_column_length..|].
    repeat (apply well_formed_set_column; [|done]). done.
Qed.

Lemma calculate_cumulative_returns_keeps_inputs_witness :
  ∃ df',
    calculate_cumulative_returns F64.lit_0_05 (two_rows 100 110) = Some df'
    ∧ df_len df' = df_len (two_rows 100 110)
    ∧ (∀ name, name ∉ derived_columns →
               df_columns df' !! name = df_columns (two_rows 100 110) !! name)
    ∧ (well_formed (two_rows 100 110) → well_formed df').
Proof.
  eexists. split; [reflexivity|].
  apply (calculate_cumulative_returns_keeps_inputs F64.lit_0_05 (two_rows 100 110)).
  reflexivity.
Defined.

(** ** The resampled frame *)

Lemma resample_last_inv (width : Z) (df out : DataFrame) :
  resample_last width df = Some out →
  ∃ index columns,
    time_column df (timestamp_col df) = Some index
    ∧ mapM (float_column df) (agg_dict df) = Some columns
    ∧ let keys := bin_of width <$> index in
      let rows := zip keys <$> columns in
      let kept :=
        List.filter
          (fun b => forallb (fun r => negb (F64.isnan (last_in_bin b r))) rows)
          (resample_bins width index) in
      out = mkDataFrame (length kept)
              (<[timestamp_col df := TimeCol ((fun b => b * width)%Z <$> kept)]>
                 (list_to_map
                    (zip (agg_dict df)
                       ((fun r => FloatCol ((fun b => last_in_bin b r) <$> kept))
                          <$> rows)))).
Proof.
  unfold resample_last. intros H.
  destruct (time_column df (timestamp_col df)) as [index|]; [|done]. simpl in H.
  case_bool_decide; [done|].
  destruct (mapM (float_column df) (agg_dict df)) as [columns|]; [|done].
  simpl in H. injection H as <-. by exists index, columns.
Qed.

(** A float column of the resampled frame is the aggregate of one of the
    columns that were read. *)
Lemma resample_last_float_column (width : Z) (df out : DataFrame) name xs :
  resample_last width df = Some out →
  float_column out name = Some xs →
  ∃ index columns col,
    time_column df (timestamp_col df) = Some index
    ∧ mapM (float_column df) (agg_dict df) = Some columns
    ∧ name ∈ agg_dict df
    ∧ float_column df name = Some col
    ∧ let keys := bin_of width <$> index in
      let rows := zip keys <$> columns in
      let kept :=
        List.filter
          (fun b => forallb (fun r => negb (F64.isnan (last_in_bin b r))) rows)
          (resample_bins width index) in
      zip keys col ∈ rows
      ∧ time_column out (timestamp_col df)
        = Some ((fun b => b * width)%Z <$> kept)
      ∧ xs = (fun b => last_in_bin b (zip keys col)) <$> kept.
Proof.
  intros Hout Hxs.
  destruct (resample_last_inv width df out Hout) as (index & columns & Hi & Hc & ->).
  exists index, columns. unfold float_column in Hxs. simpl in Hxs.
  destruct (decide (timestamp_col df = name)) as [<-|Hne].
  { by rewrite lookup_insert_eq in Hxs. }
  rewrite lookup_insert_ne in Hxs by done.
  destruct (list_to_map _ !! name) as [[ys| | |]|] eqn:E; simplify_eq.
  apply elem_of_list_to_map_2, list_elem_of_lookup in E as [i E].
  apply lookup_zip_Some in E as [Hn E].
  rewrite !list_lookup_fmap in E.
  destruct (columns !! i) as [col|] eqn:Hcol; simplify_eq/=.
  exists col. split; [done|]. split; [done|].
  split; [by eapply list_elem_of_lookup_2|].
  split.
  { apply mapM_Some_1 in Hc.
    by destruct (Forall2_lookup_l _ _ _ _ _ Hc Hn) as (col' & ? & ?); simplify_eq. }
  split; [|split; [|done]].
  - apply list_elem_of_fmap. exists col. split; [done|].
    by eapply list_elem_of_lookup_2.
  - unfold time_column. simpl. by rewrite lookup_insert_eq.
Qed.

Lemma resample_last_well_formed (width : Z) (df out : DataFrame) :
  resample_last width df = Some out → well_formed out.
Proof.
  intros H.
  destruct (resample_last_inv _ df out H) as (index & columns & Hi & Hc & ->).
  unfold well_formed. simpl. apply map_Forall_insert_2.
  { simpl. by rewrite length_fmap. }
  apply map_Forall_lookup. intros name c Hname.
  apply elem_of_list_to_map_2, elem_of_zip_r, list_elem_of_fmap in Hname
    as (r & -> & _).
  simpl. by rewrite length_fmap.
Qed.

(** X13: the frame [get_resampled_data] returns for an explicit period has
    one value per row in every column, and none of its numeric values is
    NaN: a bucket without a value in one of the aggregated columns is
    dropped. *)
Theorem resampled_frame_has_no_nan (df out : DataFrame) (p : period) :
  df_empty df = false →
  get_resampled_data df (Some p) = Some out →
  well_formed out
  ∧ ∀ name xs, float_column out name = Some xs →
               Forall (fun x => F64.isnan x = false) xs.
Proof.
  intros He H. unfold get_resampled_data in H. rewrite He in H. split.
  - by eapply resample_last_well_formed.
  - intros name xs Hxs.
    destruct (resample_last_float_column _ df out name xs H Hxs)
      as (index & columns & col & _ & _ & _ & _ & Hrow & _ & ->).
    apply Forall_fmap, Forall_forall. intros b Hb. simpl.
    apply list_elem_of_In, filter_In in Hb as [_ Hb].
    rewrite forallb_forall in Hb.
    apply negb_true_iff, Hb, list_elem_of_In, Hrow.
Qed.

Lemma resampled_frame_has_no_nan_witness :
  ∃ out,
    get_resampled_data (two_rows 100 110) (Some P1h) = Some out
    ∧ well_formed out
    ∧ ∀ name xs, float_column out name = Some xs →
                 Forall (fun x => F64.isnan x = false) xs.
Proof.
  eexists. split; [vm_compute; reflexivity|].
  apply (resampled_frame_has_no_nan (two_rows 100 110) _ P1h);
    vm_compute; reflexivity.
Defined.

(** *** Where the values of the resampled frame come from *)

Lemma last_in_bin_from_value (b : Z) (rows : list (Z * float)) (acc : float) :
  let x := foldl (fun acc kx => if (kx.1 =? b)%Z && negb (F64.isnan kx.2)
                                then kx.2 else acc) acc rows in
  x = acc ∨ (b, x) ∈ rows.
Proof.
  cbn zeta. revert acc. induction rows as [|[k y] rows IH]; intros acc; simpl;
    [by left|].
  destruct (IH (if (k =? b)%Z && negb (F64.isnan y) then y else acc)) as [H|H].
  - destruct ((k =? b)%Z && negb (F64.isnan y)) eqn:E; [|by left].
    right. apply andb_true_iff in E as [E _]. apply Z.eqb_eq in E as ->.
    rewrite H. by left.
  - right. by right.
Qed.

Lemma last_in_bin_value (b : Z) (rows : list (Z * float)) :
  F64.isnan (last_in_bin b rows) = false → (b, last_in_bin b rows) ∈ rows.
Proof.
  intros H. destruct (last_in_bin_from_value b rows F64.nan) as [E|E]; [|done].
  unfold last_in_bin in H. by rewrite E in H.
Qed.

Lemma bin_of_bounds (width t : Z) :
  (0 < width)%Z → (bin_of width t * width ≤ t < bin_of width t * width + width)%Z.
Proof.
  intros Hw. unfold bin_of.
  pose proof (Z.div_mod t width ltac:(lia)).
  pose proof (Z.mod_pos_bound t width Hw). lia.
Qed.

(** X14: resampling invents no value. Every value of an aggregated column of
    the frame [get_resampled_data] returns for an explicit period is the
    value that column has in a sample of the input whose timestamp lies in
    the bucket of the output row, from the timestamp of the row up to, but
    not including, the next multiple of the period. *)
Theorem resampled_value_is_sampled (df out : DataFrame) (p : period) name xs ts' i x t' :
  df_empty df = false →
  get_resampled_data df (Some p) = Some out →
  float_column out name = Some xs →
  time_column out (timestamp_col df) = Some ts' →
  xs !! i = Some x → ts' !! i = Some t' →
  ∃ index col j t,
    time_column df (timestamp_col df) = Some index
    ∧ float_column df name = Some col
    ∧ index !! j = Some t ∧ col !! j = Some x
    ∧ (t' ≤ t < t' + period_ns p)%Z.
Proof.
  intros He H Hxs Hts Hx Ht. unfold get_resampled_data in H. rewrite He in H.
  destruct (resample_last_float_column _ df out name xs H Hxs)
    as (index & columns & col & Hindex & _ & _ & Hcol & Hrow & Hts' & ->).
  cbn zeta in *. rewrite Hts' in Hts. injection Hts as <-.
  rewrite list_lookup_fmap in Hx. rewrite list_lookup_fmap in Ht.
  destruct (List.filter _ _ !! i) as [b|] eqn:Hb; simplify_eq/=.
  apply list_elem_of_lookup_2, list_elem_of_In, filter_In in Hb as [_ Hb].
  rewrite forallb_forall in Hb.
  assert (F64.isnan (last_in_bin b (zip (bin_of (period_ns p) <$> index) col))
          = false) as Hnan
    by by apply negb_true_iff, Hb, list_elem_of_In, Hrow.
  apply last_in_bin_value, list_elem_of_lookup in Hnan as [j Hj].
  apply lookup_zip_Some in Hj as [Hk Hv].
  rewrite list_lookup_fmap in Hk.
  destruct (index !! j) as [t|] eqn:Hidx; simplify_eq/=.
  exists index, col, j, t. repeat split; try done;
    apply (bin_of_bounds (period_ns p) t); by destruct p.
Qed.

Lemma resampled_value_is_sampled_witness :
  ∃ index col j t,
    time_column (two_rows 100 110) (timestamp_col (two_rows 100 110)) = Some index
    ∧ float_column (two_rows 100 110) "close" = Some col
    ∧ index !! j = Some t ∧ col !! j = Some (F64.of_Z 110)
    ∧ (0 ≤ t < 0 + period_ns P1h)%Z.
Proof.
  apply (resampled_value_is_sampled (two_rows 100 110)
           (mkDataFrame 1
              (<["timestamp" := TimeCol [0%Z]]>
                 (<["close" := FloatCol [F64.of_Z 110]]>
                    (<["position" := FloatCol [F64.zero]]> ∅))))
           P1h "close" [F64.of_Z 110] [0%Z] 0 (F64.of_Z 110) 0%Z);
    vm_compute; reflexivity.
Defined.

(** ** Threads: who holds a lock, and progress *)

Lemma releases_pc_lock p l :
  releases p = Some l → pc_lock p = Some l ∧ in_section p = true.
Proof. destruct p; intros; simplify_eq/=; done. Qed.

Lemma step_thread_next_lock fs tid th sh sh' pc' :
  step_thread fs tid th sh = Some (sh', pc') →
  (CACHE_KEY_LOCKS sh' = CACHE_KEY_LOCKS sh ∧ next_lock sh' = next_lock sh)
  ∨ (th_pc th = Line72
     ∧ CACHE_KEY_LOCKS sh' = <[th_key th := next_lock sh]> (CACHE_KEY_LOCKS sh)
     ∧ next_lock sh' = S (next_lock sh)).
Proof.
  step_cases; auto.
Qed.

Lemma step_thread_leaves_section fs tid th sh sh' pc' :
  step_thread fs tid th sh = Some (sh', pc') →
  in_section (th_pc th) = true →
  (in_section pc' = true ∧ pc_lock pc' = pc_lock (th_pc th) ∧ held sh' = held sh)
  ∨ (∃ l, releases (th_pc th) = Some l ∧ held sh' = delete l (held sh)).
Proof. step_cases; eauto. Qed.

Lemma step_thread_leaves_global fs tid th sh sh' pc' :
  step_thread fs tid th sh = Some (sh', pc') →
  holds_global (th_pc th) = true →
  (holds_global pc' = true ∧ CACHE_LOCK sh' = CACHE_LOCK sh)
  ∨ (th_pc th = Line72_exit ∧ CACHE_LOCK sh' = None).
Proof. step_cases; eauto. Qed.

Lemma step_thread_outside fs tid th sh sh' pc' :
  step_thread fs tid th sh = Some (sh', pc') →
  (in_section (th_pc th) = false → held sh' = held sh
     ∨ ∃ l, awaits (th_pc th) = Some l ∧ in_section pc' = true
            ∧ pc_lock pc' = Some l ∧ held sh' = <[l := tid]> (held sh))
  ∧ (holds_global (th_pc th) = false → CACHE_LOCK sh' = CACHE_LOCK sh
       ∨ (th_pc th = Line70 ∧ pc' = Line71 ∧ CACHE_LOCK sh' = Some tid)).
Proof. step_cases; split; intros; try done; eauto 7. Qed.

Lemma holder_inv_initial s : initial s → holder_inv s.
Proof.
  intros (Hg & Hh & _ & _). constructor.
  - intros l tid H. by rewrite Hh in H.
  - intros tid H. by rewrite Hg in H.
Qed.

Lemma holder_inv_step fs tid s s' :
  lock_inv s → holder_inv s → step fs tid s = Some s' → holder_inv s'.
Proof.
  intros Hlock [Hheld Hglobal] Hstep.
  destruct (step_inv _ _ _ _ Hstep) as (th & sh' & pc' & Hth & Hst & ->).
  destruct (step_thread_outside _ _ _ _ _ _ Hst) as [Hout1 Hout2].
  constructor; simpl.
  - intros l tid' Hl.
    destruct (in_section (th_pc th)) eqn:Hsec.
    + destruct (li_held _ Hlock _ _ Hth Hsec) as (l0 & Hl0 & Hh0).
      destruct (step_thread_leaves_section _ _ _ _ _ _ Hst Hsec)
        as [(Hs' & Hl' & Hh)|(l1 & Hpc & Hh)].
      * rewrite Hh in Hl. destruct (Hheld _ _ Hl) as (th' & Hth' & Hs1 & Hl1).
        destruct (decide (tid' = tid)) as [->|Hne].
        -- rewrite lookup_insert_eq. eexists. split; [done|]. simpl.
           simplify_eq. split; [done|congruence].
        -- rewrite lookup_insert_ne by done. by exists th'.
      * rewrite Hh in Hl. apply releases_pc_lock in Hpc as [Hpc _].
        rewrite Hpc in Hl0. simplify_eq/=.
        destruct (decide (l = l0)) as [->|Hne];
          [by rewrite lookup_delete_eq in Hl|].
        rewrite lookup_delete_ne in Hl by done.
        destruct (Hheld _ _ Hl) as (th' & Hth' & Hs1 & Hl1).
        destruct (decide (tid' = tid)) as [->|Hne'].
        -- simplify_eq; congruence.
        -- rewrite lookup_insert_ne by done. by exists th'.
    + destruct (Hout1 eq_refl) as [Hh|(l0 & Hpc & Hs' & Hl' & Hh)]; rewrite Hh in Hl.
      * destruct (Hheld _ _ Hl) as (th' & Hth' & Hs1 & Hl1).
        destruct (decide (tid' = tid)) as [->|Hne]; [simplify_eq; congruence|].
        rewrite lookup_insert_ne by done. by exists th'.
      * destruct (decide (l = l0)) as [->|Hne].
        -- rewrite lookup_insert_eq in Hl. simplify_eq.
           rewrite lookup_insert_eq. by eexists.
        -- rewrite lookup_insert_ne in Hl by done.
           destruct (Hheld _ _ Hl) as (th' & Hth' & Hs1 & Hl1).
           destruct (decide (tid' = tid)) as [->|Hne']; [simplify_eq; congruence|].
           rewrite lookup_insert_ne by done. by exists th'.
  - intros tid' Hg.
    destruct (holds_global (th_pc th)) eqn:Hsec.
    + pose proof (li_global _ Hlock _ _ Hth Hsec) as Hg0.
      destruct (step_thread_leaves_global _ _ _ _ _ _ Hst Hsec)
        as [(Hs' & Hg')|(Hpc & Hg')]; rewrite Hg' in Hg; [|done].
      rewrite Hg0 in Hg. simplify_eq. rewrite lookup_insert_eq. by eexists.
    + destruct (Hout2 eq_refl) as [Hg'|(Hpc & -> & Hg')]; rewrite Hg' in Hg.
      * destruct (Hglobal _ Hg) as (th' & Hth' & Hs1).
        destruct (decide (tid' = tid)) as [->|Hne]; [simplify_eq; congruence|].
        rewrite lookup_insert_ne by done. by exists th'.
      * simplify_eq. rewrite lookup_insert_eq. by eexists.
Qed.

Lemma holder_inv_reachable fs s0 s : initial s0 → reachable fs s0 s → holder_inv s.
Proof.
  intros Hinit [schedule <-].
  enough (lock_inv (run fs schedule s0) ∧ holder_inv (run fs schedule s0)) as [_ H]
    by done.
  apply (run_invariant fs (fun s => lock_inv s ∧ holder_inv s)).
  - intros tid s1 s2 [H1 H2] Hstep. split;
      [by eapply lock_inv_step|by eapply holder_inv_step].
  - split; [by apply lock_inv_initial|by apply holder_inv_initial].
Qed.

(** A thread that cannot move waits for a lock. *)
Lemma step_thread_None fs tid th sh :
  step_thread fs tid th sh = None →
  (th_pc th = Line70 ∧ is_Some (CACHE_LOCK sh))
  ∨ (∃ l, awaits (th_pc th) = Some l ∧ is_Some (held sh !! l))
  ∨ returned (th_pc th) = true.
Proof. step_cases; eauto 6. Qed.

Lemma step_thread_holder fs tid th sh :
  in_section (th_pc th) = true ∨ holds_global (th_pc th) = true →
  is_Some (step_thread fs tid th sh).
Proof.
  unfold step_thread. destruct (th_pc th); intros [H|H]; simplify_eq/=;
    repeat case_match; eauto.
Qed.

Lemma step_is_Some fs tid s th :
  st_threads s !! tid = Some th →
  is_Some (step_thread fs tid th (st_shared s)) → is_Some (step fs tid s).
Proof.
  intros Hth [[sh pc'] H]. unfold step. rewrite Hth. simpl. rewrite H. simpl. eauto.
Qed.

(** X15: the locks never deadlock. In every state the threads can reach,
    under any interleaving, the holder of a lock, per-key or global, can
    take a step: it never waits for another lock. So a thread that has
    not returned can take a step, or it waits at [with cache_key_lock:]
    or at [with CACHE_LOCK:] for a lock that is held, and the holder of
    that very lock can take a step. *)
Theorem locks_never_deadlock fs s0 s :
  initial s0 → reachable fs s0 s →
  (∀ l holder, held (st_shared s) !! l = Some holder → is_Some (step fs holder s))
  ∧ (∀ holder, CACHE_LOCK (st_shared s) = Some holder → is_Some (step fs holder s))
  ∧ (∀ tid th,
       st_threads s !! tid = Some th → returned (th_pc th) = false →
       is_Some (step fs tid s)
       ∨ (∃ l holder,
            awaits (th_pc th) = Some l ∧ held (st_shared s) !! l = Some holder
            ∧ is_Some (step fs holder s))
       ∨ (∃ holder,
            th_pc th = Line70 ∧ CACHE_LOCK (st_shared s) = Some holder
            ∧ is_Some (step fs holder s))).
Proof.
  intros Hinit Hreach.
  destruct (holder_inv_reachable fs s0 s Hinit Hreach) as [Hheld Hglobal].
  assert (∀ l holder, held (st_shared s) !! l = Some holder →
            is_Some (step fs holder s)) as Hl.
  { intros l t Ht. destruct (Hheld _ _ Ht) as (th' & Hth' & Hs & _).
    apply (step_is_Some fs t s th'); [done|]. apply step_thread_holder. by left. }
  assert (∀ holder, CACHE_LOCK (st_shared s) = Some holder →
            is_Some (step fs holder s)) as Hg.
  { intros t Ht. destruct (Hglobal _ Ht) as (th' & Hth' & Hs).
    apply (step_is_Some fs t s th'); [done|]. apply step_thread_holder. by right. }
  split; [done|]. split; [done|]. intros tid th Hth Hret.
  destruct (step_thread fs tid th (st_shared s)) as [r|] eqn:Hst.
  { left. apply (step_is_Some fs tid s th); [done|]. by rewrite Hst. }
  right.
  destruct (step_thread_None _ _ _ _ Hst) as [[Hpc [t Ht]]|[(l & Hpc & [t Ht])|Hr]];
    [| |congruence].
  - right. exists t. eauto.
  - left. exists l, t. eauto.
Qed.

Lemma locks_never_deadlock_witness :
  let s := run two_symbol_fs (replicate 7 0 ++ replicate 2 1) two_refreshes in
  (∀ l holder, held (st_shared s) !! l = Some holder →
               is_Some (step two_symbol_fs holder s))
  ∧ (∀ holder, CACHE_LOCK (st_shared s) = Some holder →
               is_Some (step two_symbol_fs holder s))
  ∧ (∀ tid th,
       st_threads s !! tid = Some th → returned (th_pc th) = false →
       is_Some (step two_symbol_fs tid s)
       ∨ (∃ l holder,
            awaits (th_pc th) = Some l ∧ held (st_shared s) !! l = Some holder
            ∧ is_Some (step two_symbol_fs holder s))
       ∨ (∃ holder,
            th_pc th = Line70 ∧ CACHE_LOCK (st_shared s) = Some holder
            ∧ is_Some (step two_symbol_fs holder s))).
Proof.
  apply (locks_never_deadlock two_symbol_fs two_refreshes
           (run two_symbol_fs (replicate 7 0 ++ replicate 2 1) two_refreshes)).
  - exact initial_two_refreshes.
  - by exists (replicate 7 0 ++ replicate 2 1).
Defined.

(** *** Every request can return *)

Lemma step_thread_remaining fs tid th sh sh' pc' :
  step_thread fs tid th sh = Some (sh', pc') →
  remaining pc' < remaining (th_pc th).
Proof.
  step_cases; lia.
Qed.

Lemma steps_left_insert (threads : gmap nat thread) tid th th' :
  threads !! tid = Some th →
  map_fold (fun _ th n => remaining (th_pc th) + n) 0 (<[tid := th']> threads)
  + remaining (th_pc th)
  = map_fold (fun _ th n => remaining (th_pc th) + n) 0 threads
    + remaining (th_pc th').
Proof.
  intros Hth.
  rewrite <- (insert_delete_id threads tid th Hth) at 2.
  rewrite <- (insert_delete_eq threads tid th').
  rewrite !map_fold_insert_L; [lia|intros; lia|apply lookup_delete_eq|intros; lia
                              |apply lookup_delete_eq].
Qed.

Lemma step_steps_left fs tid s s' :
  step fs tid s = Some s' → steps_left s' < steps_left s.
Proof.
  intros Hstep.
  destruct (step_inv _ _ _ _ Hstep) as (th & sh' & pc' & Hth & Hst & ->).
  pose proof (step_thread_remaining _ _ _ _ _ _ Hst) as Hlt.
  unfold steps_left. simpl.
  pose proof (steps_left_insert (st_threads s) tid th
                (mkThread (th_handler th) (th_key th) (th_path th) pc') Hth) as H.
  simpl in H. lia.
Qed.

Lemma returned_or_not (threads : gmap nat thread) :
  map_Forall (fun _ th => returned (th_pc th) = true) threads
  ∨ ∃ tid th, threads !! tid = Some th ∧ returned (th_pc th) = false.
Proof.
  destruct (decide (map_Forall (fun _ th => returned (th_pc th) = true) threads))
    as [H|H]; [by left|right].
  apply map_not_Forall in H as (tid & th & Hth & Hr); [|apply _].
  exists tid, th. split; [done|]. by apply not_true_is_false.
Qed.

Lemma some_thread_steps fs s tid th :
  holder_inv s →
  st_threads s !! tid = Some th → returned (th_pc th) = false →
  ∃ t s', step fs t s = Some s'.
Proof.
  intros [Hheld Hglobal] Hth Hr.
  destruct (step_thread fs tid th (st_shared s)) as [r|] eqn:Hst.
  - destruct (step_is_Some fs tid s th Hth) as [s' Hs']; [by rewrite Hst|].
    by exists tid, s'.
  - destruct (step_thread_None _ _ _ _ Hst)
      as [[_ [t Ht]]|[(l & _ & [t Ht])|Hr']]; [| |congruence].
    + destruct (Hglobal _ Ht) as (th' & Hth' & Hg).
      destruct (step_is_Some fs t s th' Hth') as [s' Hs'];
        [apply step_thread_holder; by right|]. by exists t, s'.
    + destruct (Hheld _ _ Ht) as (th' & Hth' & Hs & _).
      destruct (step_is_Some fs t s th' Hth') as [s' Hs'];
        [apply step_thread_holder; by left|]. by exists t, s'.
Qed.

Lemma run_to_return fs n s :
  lock_inv s → holder_inv s → steps_left s ≤ n →
  ∃ schedule,
    length schedule ≤ n
    ∧ map_Forall (fun _ th => returned (th_pc th) = true)
        (st_threads (run fs schedule s)).
Proof.
  revert s. induction n as [|n IH]; intros s Hlock Hholder Hn;
    (destruct (returned_or_not (st_threads s)) as [H|(tid & th & Hth & Hr)];
     [exists []; split; [simpl; lia|done]|]);
    destruct (some_thread_steps fs s tid th Hholder Hth Hr) as (t & s' & Hstep);
    pose proof (step_steps_left _ _ _ _ Hstep) as Hlt; [lia|].
  destruct (IH s') as (schedule & Hlen & Hall);
    [by eapply lock_inv_step|by eapply holder_inv_step|lia|].
  exists (t :: schedule). split; [simpl; lia|]. simpl. by rewrite Hstep.
Qed.

(** X16: every request can return. From every state the request threads
    can reach there is a continuation, of no more turns than the steps the
    threads have left (at most 18 a thread), after which every thread has
    returned: no interleaving leads the locks into a state from which a
    request cannot complete. *)
Theorem every_request_can_return fs s0 s :
  initial s0 → reachable fs s0 s →
  ∃ schedule,
    length schedule ≤ steps_left s
    ∧ map_Forall (fun _ th => returned (th_pc th) = true)
        (st_threads (run fs schedule s)).
Proof.
  intros Hinit Hreach. apply run_to_return; [| |done].
  - by eapply lock_inv_reachable.
  - by eapply holder_inv_reachable.
Qed.

Lemma every_request_can_return_witness :
  ∃ schedule,
    length schedule
    ≤ steps_left (run two_symbol_fs (replicate 7 0) two_refreshes)
    ∧ map_Forall (fun _ th => returned (th_pc th) = true)
        (st_threads (run two_symbol_fs schedule
                       (run two_symbol_fs (replicate 7 0) two_refreshes))).
Proof.
  apply (every_request_can_return two_symbol_fs two_refreshes).
  - exact initial_two_refreshes.
  - by exists (replicate 7 0).
Defined.

(** *** One lock per key, for good *)

Lemma table_inv_step fs tid s s' :
  lock_inv s → table_inv s → step fs tid s = Some s' → table_inv s'.
Proof.
  intros Hlock [Hfresh Hinj] Hstep.
  destruct (step_inv _ _ _ _ Hstep) as (th & sh' & pc' & Hth & Hst & ->).
  destruct (step_thread_next_lock _ _ _ _ _ _ Hst) as [[Ht Hn]|(Hpc & Ht & Hn)];
    constructor; unfold one_key_per_lock; simpl; rewrite Ht, ?Hn; try done.
  - apply map_Forall_insert_2; [lia|].
    eapply map_Forall_impl; [exact Hfresh|]. simpl. intros; lia.
  - intros k1 k2 l H1 H2.
    destruct (decide (k1 = th_key th)) as [->|N1],
             (decide (k2 = th_key th)) as [->|N2]; [done|..].
    + rewrite lookup_insert_eq in H1. rewrite lookup_insert_ne in H2 by done.
      simplify_eq. specialize (Hfresh _ _ H2). simpl in Hfresh. lia.
    + rewrite lookup_insert_eq in H2. rewrite lookup_insert_ne in H1 by done.
      simplify_eq. specialize (Hfresh _ _ H1). simpl in Hfresh. lia.
    + rewrite lookup_insert_ne in H1, H2 by done. by eapply Hinj.
Qed.

Lemma table_inv_reachable fs s0 s :
  initial s0 → one_key_per_lock s0 → reachable fs s0 s → table_inv s.
Proof.
  intros Hinit Hinj [schedule <-].
  enough (lock_inv (run fs schedule s0) ∧ table_inv (run fs schedule s0)) as [_ H]
    by done.
  apply (run_invariant fs (fun s => lock_inv s ∧ table_inv s)).
  - intros tid s1 s2 [H1 H2] Hstep. split;
      [by eapply lock_inv_step|by eapply table_inv_step].
  - split; [by apply lock_inv_initial|]. destruct Hinit as (_ & _ & Hf & _).
    by constructor.
Qed.

(** X17: threads with different keys do not wait for each other at a
    per-key lock. In every state the threads can reach from a start in
    which no two keys share a lock, a thread that waits at
    [with cache_key_lock:] (line 966, 1133 or 1347) waits for a thread
    with the same cache key that is inside such a block. *)
Theorem waits_only_for_same_key fs s0 s tid th l holder :
  initial s0 → one_key_per_lock s0 → reachable fs s0 s →
  st_threads s !! tid = Some th → awaits (th_pc th) = Some l →
  held (st_shared s) !! l = Some holder →
  ∃ th', st_threads s !! holder = Some th' ∧ th_key th' = th_key th
         ∧ in_section (th_pc th') = true.
Proof.
  intros Hinit Hinj Hreach Hth Hpc Hheld.
  pose proof (lock_inv_reachable fs s0 s Hinit Hreach) as Hlock.
  destruct (holder_inv_reachable fs s0 s Hinit Hreach) as [Hh _].
  destruct (table_inv_reachable fs s0 s Hinit Hinj Hreach) as [_ Hone].
  destruct (Hh _ _ Hheld) as (th' & Hth' & Hs & Hl).
  exists th'. split; [done|]. split; [|done].
  apply (Hone _ _ l).
  - by apply (li_table _ Hlock holder).
  - apply (li_table _ Hlock tid); [done|]. by destruct (th_pc th).
Qed.

(** X18: a per-key lock, once it is in the table, is never replaced: in
    every state the request threads can reach, the lock a key has is the
    lock it has in every later state. *)
Theorem key_lock_never_replaced fs s0 s schedule k l :
  initial s0 → reachable fs s0 s →
  CACHE_KEY_LOCKS (st_shared s) !! k = Some l →
  CACHE_KEY_LOCKS (st_shared (run fs schedule s)) !! k = Some l.
Proof.
  intros Hinit Hreach Hk.
  pose proof (lock_inv_reachable fs s0 s Hinit Hreach) as Hlock.
  enough (lock_inv (run fs schedule s)
          ∧ CACHE_KEY_LOCKS (st_shared (run fs schedule s)) !! k = Some l)
    as [_ H] by done.
  apply (run_invariant fs
           (fun s => lock_inv s ∧ CACHE_KEY_LOCKS (st_shared s) !! k = Some l));
    [|done].
  intros tid s1 s2 [H1 H2] Hstep. split; [by eapply lock_inv_step|].
  destruct (step_inv _ _ _ _ Hstep) as (th & sh' & pc' & Hth & Hst & ->). simpl.
  destruct (step_thread_table _ _ _ _ _ _ Hst) as [->|[Hpc ->]]; [done|].
  rewrite lookup_insert_ne; [done|]. intros <-.
  pose proof (li_absent _ H1 _ _ Hth Hpc) as Habs. congruence.
Qed.

Lemma one_key_per_lock_two_refreshes : one_key_per_lock two_refreshes.
Proof.
  intros k1 k2 l H. unfold two_refreshes, demo_shared in H.
  cbn [st_shared CACHE_KEY_LOCKS] in H.
  by rewrite lookup_empty in H.
Qed.

Lemma waits_only_for_same_key_witness :
  ∃ th', st_threads (run two_symbol_fs (replicate 7 0 ++ replicate 2 1) two_refreshes)
           !! 0 = Some th'
         ∧ th_key th' = "demo/TS-1" ∧ in_section (th_pc th') = true.
Proof.
  apply (waits_only_for_same_key two_symbol_fs two_refreshes
           (run two_symbol_fs (replicate 7 0 ++ replicate 2 1) two_refreshes) 1
           (mkThread GetBucketData "demo/TS-1" btc_path (Line966 0)) 0 0).
  - exact initial_two_refreshes.
  - exact one_key_per_lock_two_refreshes.
  - by exists (replicate 7 0 ++ replicate 2 1).
  - vm_compute. reflexivity.
  - reflexivity.
  - vm_compute. reflexivity.
Defined.

Lemma key_lock_never_replaced_witness :
  CACHE_KEY_LOCKS
    (st_shared (run two_symbol_fs (replicate 3 1)
                  (run two_symbol_fs (replicate 7 0) two_refreshes)))
    !! "demo/TS-1" = Some 0.
Proof.
  apply (key_lock_never_replaced two_symbol_fs two_refreshes
           (run two_symbol_fs (replicate 7 0) two_refreshes)).
  - exact initial_two_refreshes.
  - by exists (replicate 7 0).
  - vm_compute. reflexivity.
Defined.

(** ** Bucket names *)

Lemma contains_nil (c : ascii) : Str.contains c "" = false.
Proof. reflexivity. Qed.

Lemma contains_replace_char (c d : ascii) (s : string) :
  c ≠ d → Str.contains c (Py.replace_char c d s) = false.
Proof.
  intros Hcd. induction s as [|x s IH]; [done|]. cbn [Py.replace_char].
  rewrite contains_cons, IH. destruct (decide (x = c)) as [->|Hx].
  - rewrite (bool_decide_true (c = c)) by done. by rewrite bool_decide_false.
  - rewrite (bool_decide_false (x = c)) by done. by rewrite bool_decide_false.
Qed.

Lemma rstrip_cons (c x : ascii) (s : string) :
  Py.rstrip c (String x s)
  = match Py.rstrip c s with
    | EmptyString => if bool_decide (x = c) then EmptyString else String x EmptyString
    | r => String x r
    end.
Proof. reflexivity. Qed.

Lemma contains_rstrip (c d : ascii) (s : string) :
  Str.contains c s = false → Str.contains c (Py.rstrip d s) = false.
Proof.
  induction s as [|x s IH]; [done|]. rewrite contains_cons, rstrip_cons.
  intros H. apply orb_false_iff in H as [Hx Hs]. specialize (IH Hs).
  destruct (Py.rstrip d s) as [|y r].
  - destruct (bool_decide (x = d)); [done|]. by rewrite contains_cons, Hx.
  - by rewrite contains_cons, Hx, IH.
Qed.

Lemma rstrip_no_trailing (c : ascii) (s s' : string) :
  Py.rstrip c s ≠ s' +:+ String c "".
Proof.
  revert s'. induction s as [|x s IH]; intros s'.
  - by destruct s'.
  - rewrite rstrip_cons. destruct (Py.rstrip c s) as [|y r] eqn:E.
    + destruct (decide (x = c)) as [->|Hx].
      * rewrite bool_decide_true by done. by destruct s'.
      * rewrite bool_decide_false by done.
        destruct s' as [|z s']; append_simpl; [congruence|].
        intros [= -> H]. by destruct s'.
    + destruct s' as [|z s']; append_simpl; [done|].
      intros [= -> H]. by apply (IH s').
Qed.

Lemma rstrip_idemp (c : ascii) (s : string) :
  Py.rstrip c (Py.rstrip c s) = Py.rstrip c s.
Proof.
  induction s as [|x s IH]; [done|]. rewrite rstrip_cons.
  destruct (Py.rstrip c s) as [|y r] eqn:E.
  - destruct (decide (x = c)) as [->|Hx].
    + by rewrite bool_decide_true.
    + rewrite bool_decide_false by done. rewrite rstrip_cons. simpl.
      by rewrite bool_decide_false.
  - rewrite rstrip_cons, IH. done.
Qed.

Lemma replace_char_absent (c d : ascii) (s : string) :
  Str.contains c s = false → Py.replace_char c d s = s.
Proof.
  induction s as [|x s IH]; [done|]. rewrite contains_cons. intros H.
  apply orb_false_iff in H as [Hx Hs]. simpl. by rewrite Hx, IH.
Qed.

Lemma prefix_gs_contains (s : string) :
  String.prefix "gs://" s = true → Str.contains "/" s = true.
Proof.
  intros H. apply prefix_inv in H. rewrite H.
  apply (contains_append "/" "gs:" ("/" +:+ _)).
Qed.

Lemma remove_gs_absent (s : string) :
  Str.contains "/" s = false → Py.remove "gs://" s = s.
Proof.
  unfold Py.remove. induction s as [|x s IH]; [done|]. intros H.
  cbn [Py.remove_from].
  destruct (String.prefix "gs://" (String x s)) eqn:E.
  { apply prefix_gs_contains in E. congruence. }
  rewrite contains_cons in H. apply orb_false_iff in H as [_ H]. by rewrite IH.
Qed.

Lemma bucket_name_of_slash (bucket : string) :
  Str.contains "/" (bucket_name_of bucket) = false.
Proof. unfold bucket_name_of. by apply contains_rstrip, contains_replace_char. Qed.

(** X19: the directory name of a configured bucket holds no slash and does
    not end with an underscore, and it is its own directory name: the
    normalisation of lines 454, 504, 1117 and 1415 changes nothing when it
    is applied again. *)
Theorem bucket_name_of_normal (bucket : string) :
  Str.contains "/" (bucket_name_of bucket) = false
  ∧ (∀ s, bucket_name_of bucket ≠ s +:+ "_")
  ∧ bucket_name_of (bucket_name_of bucket) = bucket_name_of bucket.
Proof.
  pose proof (bucket_name_of_slash bucket) as Hslash.
  split; [done|]. split; [intros s; apply rstrip_no_trailing|].
  unfold bucket_name_of at 1.
  rewrite remove_gs_absent, replace_char_absent by done.
  apply rstrip_idemp.
Qed.

(** ** Discovery *)

Lemma data_files_elem filenames filename ts_id t_id :
  (filename, (ts_id, t_id)) ∈ data_files filenames
  ↔ filename ∈ filenames ∧ is_data_csv filename = true
    ∧ pattern_match filename = Some (ts_id, t_id).
Proof.
  unfold data_files. rewrite list_elem_of_omap. split.
  - intros (f & Hf & H). destruct (is_data_csv f) eqn:E; [|done].
    destruct (pattern_match f) as [[a b]|] eqn:Hp; simplify_eq/=. done.
  - intros (Hf & Hd & Hp). exists filename. by rewrite Hd, Hp.
Qed.

Lemma discover_elem fs ts_id_mapping bucket_path ds d :
  discover_symbols_in_bucket fs ts_id_mapping bucket_path = Some ds → d ∈ ds →
  ∃ filenames,
    fs_listdir fs bucket_path = Some filenames
    ∧ d_filename d ∈ filenames ∧ is_data_csv (d_filename d) = true
    ∧ pattern_match (d_filename d) = Some (d_ts_id d, d_t_id d)
    ∧ d_symbol d = discovered_symbol fs ts_id_mapping bucket_path (d_ts_id d)
    ∧ d_pair d = discovered_pair fs bucket_path (d_ts_id d).
Proof.
  unfold discover_symbols_in_bucket. intros H Hd.
  destruct (fs_listdir fs bucket_path) as [filenames|]; [|done]. simpl in H.
  exists filenames. split; [done|].
  apply mapM_Some_1 in H. apply list_elem_of_lookup in Hd as [i Hi].
  destruct (Forall2_lookup_r _ _ _ _ _ H Hi) as ([f [ts t]] & Hf & Hfd).
  destruct (fs_getmtime fs (path_join bucket_path f)); simplify_eq/=.
  apply list_elem_of_lookup_2, data_files_elem in Hf as (? & ? & ?). done.
Qed.

(** X20: every data file that discovery reports can be requested by its
    id. For an entry of [discover_symbols_in_bucket] with id [i],
    [get_bucket_data] resolves the symbol [TS-i] to a data file with this
    id, under the cache key [bucket/TS-i] that the summary uses for the
    entry, so it does not answer 404. *)
Theorem discovered_symbol_is_served fs ts_id_mapping bucket ds d st :
  discover_symbols_in_bucket fs ts_id_mapping (path_join LOCAL_ROOT bucket) = Some ds →
  d ∈ ds →
  Str.isdigit (d_ts_id d) = true
  ∧ ∃ csv_file t_id,
      pattern_match csv_file = Some (d_ts_id d, t_id)
      ∧ get_bucket_data fs bucket ("TS-" +:+ d_ts_id d) st
        = refresh_if_stale fs (bucket +:+ "/TS-" +:+ si_ts_id (sym_info_of d))
            (path_join (path_join LOCAL_ROOT bucket) csv_file) st.
Proof.
  intros Hds Hd.
  destruct (discover_elem _ _ _ _ _ Hds Hd)
    as (filenames & Hl & Hin & Hdata & Hpm & _).
  assert (Str.isdigit (d_ts_id d) = true) as Hdigit
    by by apply pattern_match_spec in Hpm as (? & _).
  split; [done|].
  destruct (find_csv_file fs (path_join LOCAL_ROOT bucket) ("TS-" +:+ d_ts_id d)
              filenames) as [csv_file|] eqn:Hfind.
  - pose proof Hfind as Hfound. unfold find_csv_file in Hfound.
    apply find_some_elem in Hfound as [_ Hfound].
    apply andb_true_iff in Hfound as [_ Hfound].
    destruct (pattern_match csv_file) as [[ts t]|] eqn:Hpm'; [|done].
    destruct (ts_form (d_ts_id d)) as (Hts1 & Hts2 & _).
    rewrite Hts1, Hts2 in Hfound. simpl in Hfound.
    apply bool_decide_eq_true in Hfound as [= ->].
    exists csv_file, t. split; [done|].
    unfold get_bucket_data. rewrite Hl, Hfind.
    by destruct (bucket_cache_key_numeric bucket (d_ts_id d) csv_file Hdigit) as [-> _].
  - exfalso. unfold find_csv_file in Hfind.
    apply list_elem_of_In in Hin.
    pose proof (find_none _ _ Hfind (d_filename d) Hin) as Hnone.
    cbv beta in Hnone.
    destruct (ts_form (d_ts_id d)) as (Hts1 & Hts2 & _).
    rewrite Hdata, Hpm, Hts1, Hts2 in Hnone. simpl in Hnone.
    by rewrite bool_decide_true in Hnone.
Qed.

Lemma discovered_symbol_is_served_witness :
  Str.isdigit "1" = true
  ∧ ∃ csv_file t_id,
      pattern_match csv_file = Some ("1", t_id)
      ∧ get_bucket_data two_symbol_fs "demo" ("TS-" +:+ "1") empty_cache
        = refresh_if_stale two_symbol_fs ("demo" +:+ "/TS-" +:+ "1")
            (path_join (path_join LOCAL_ROOT "demo") csv_file) empty_cache.
Proof.
  apply (discovered_symbol_is_served two_symbol_fs ∅ "demo"
           [mkDiscovered "BTC" "USDT" "1" "1" btc_file;
            mkDiscovered "ETH" "USDT" "2" "1" eth_file]
           (mkDiscovered "BTC" "USDT" "1" "1" btc_file)).
  - vm_compute. reflexivity.
  - by left.
Defined.

(** ** The symbols of a bucket, sorted *)

Lemma insert_sorted_perm {A} (leb : A → A → bool) x l :
  insert_sorted leb x l ≡ₚ x :: l.
Proof.
  induction l as [|y l IH]; simpl; [done|].
  destruct (leb x y); [done|]. rewrite IH. apply Permutation_swap.
Qed.

Lemma stable_sort_perm {A} (leb : A → A → bool) l : stable_sort leb l ≡ₚ l.
Proof.
  induction l as [|x l IH]; simpl; [done|].
  by rewrite insert_sorted_perm, IH.
Qed.

Lemma insert_sorted_Sorted {A} (key : A → string) x l :
  Sorted String.le (key <$> l) →
  Sorted String.le
    (key <$> insert_sorted (fun a b => bool_decide (String.le (key a) (key b))) x l).
Proof.
  induction l as [|y l IH]; intros Hs; cbn [insert_sorted].
  - repeat constructor.
  - assert (¬ String.le (key x) (key y) → String.le (key y) (key x)) as Hyx.
    { intros Hn. by destruct (total String.le (key x) (key y)). }
    case_bool_decide as Hxy.
    + cbn [fmap list_fmap]. constructor; [exact Hs|by constructor].
    + cbn [fmap list_fmap] in *. inversion Hs as [|? ? Hs' Hhd]; subst.
      constructor; [by apply IH|].
      destruct l as [|z l]; cbn [insert_sorted fmap list_fmap].
      * constructor. by apply Hyx.
      * destruct (bool_decide (String.le (key x) (key z)));
          cbn [fmap list_fmap]; constructor; [by apply Hyx|].
        by inversion Hhd.
Qed.

Lemma stable_sort_Sorted {A} (key : A → string) l :
  Sorted String.le
    (key <$> stable_sort (fun a b => bool_decide (String.le (key a) (key b))) l).
Proof.
  induction l as [|x l IH]; simpl; [constructor|]. by apply insert_sorted_Sorted.
Qed.

(** Entries with one key stay in the order they had. *)
Lemma insert_sorted_stable {A} (key : A → string) (k : string) x l :
  Sorted String.le (key <$> l) →
  List.filter (fun a => bool_decide (key a = k))
    (insert_sorted (fun a b => bool_decide (String.le (key a) (key b))) x l)
  = List.filter (fun a => bool_decide (key a = k)) (x :: l).
Proof.
  induction l as [|y l IH]; intros Hs; [done|].
  cbn [insert_sorted]. case_bool_decide as Hxy; [done|].
  cbn [List.filter]. rewrite IH by (by inversion Hs). cbn [List.filter].
  destruct (bool_decide (key y = k)) eqn:Hy, (bool_decide (key x = k)) eqn:Hx;
    try done.
  apply bool_decide_eq_true in Hy, Hx. destruct Hxy. rewrite Hx, Hy. done.
Qed.

Lemma stable_sort_stable {A} (key : A → string) (k : string) l :
  List.filter (fun a => bool_decide (key a = k))
    (stable_sort (fun a b => bool_decide (String.le (key a) (key b))) l)
  = List.filter (fun a => bool_decide (key a = k)) l.
Proof.
  induction l as [|x l IH]; [done|]. cbn [stable_sort foldr].
  rewrite insert_sorted_stable by apply stable_sort_Sorted.
  cbn [List.filter]. unfold stable_sort in IH. by rewrite IH.
Qed.

(** X21: [get_bucket_symbols] answers with the symbols of the bucket sorted
    by symbol name. The entries are those of the data files of the listing
    that match the pattern and whose [os.stat] succeeds, each once, and
    entries with the same symbol name are in the order of the listing. *)
Theorem get_bucket_symbols_sorted fs hours_old bucket entries :
  get_bucket_symbols fs hours_old bucket = Ok200 entries →
  ∃ filenames,
    fs_listdir fs (path_join LOCAL_ROOT bucket) = Some filenames
    ∧ Sorted String.le (bs_symbol <$> entries)
    ∧ entries ≡ₚ omap (bucket_symbol_of fs hours_old (path_join LOCAL_ROOT bucket))
                   filenames
    ∧ ∀ symbol,
        List.filter (fun e => bool_decide (bs_symbol e = symbol)) entries
        = List.filter (fun e => bool_decide (bs_symbol e = symbol))
            (omap (bucket_symbol_of fs hours_old (path_join LOCAL_ROOT bucket))
               filenames).
Proof.
  unfold get_bucket_symbols.
  destruct (fs_listdir fs (path_join LOCAL_ROOT bucket)) as [filenames|]; [|done].
  intros [= <-]. exists filenames. split; [done|].
  split; [apply stable_sort_Sorted|]. split; [apply stable_sort_perm|].
  intros symbol. apply stable_sort_stable.
Qed.

Lemma get_bucket_symbols_sorted_witness :
  ∃ entries filenames,
    get_bucket_symbols two_symbol_fs (fun _ => Some F64.one) "demo" = Ok200 entries
    ∧ fs_listdir two_symbol_fs (path_join LOCAL_ROOT "demo") = Some filenames
    ∧ Sorted String.le (bs_symbol <$> entries)
    ∧ entries ≡ₚ omap (bucket_symbol_of two_symbol_fs (fun _ => Some F64.one)
                         (path_join LOCAL_ROOT "demo")) filenames.
Proof.
  assert (∃ entries,
            get_bucket_symbols two_symbol_fs (fun _ => Some F64.one) "demo"
            = Ok200 entries) as [entries He] by (eexists; vm_compute; reflexivity).
  destruct (get_bucket_symbols_sorted two_symbol_fs (fun _ => Some F64.one) "demo"
              entries He) as (filenames & H1 & H2 & H3 & _).
  exists entries, filenames. split; [exact He|]. split; [exact H1|].
  split; [exact H2|exact H3].
Defined.

(** ** The aggregate chart: sampling *)

(** The rows [every_nth] takes: the first after [wait] rows, then one in
    [step]. *)
Lemma every_nth_length {A} (step wait : nat) (l : list A) :
  0 < step → wait < step →
  let c := length (every_nth step wait l) in
  length l ≤ wait + step * c
  ∧ (c = 0 ∨ wait + step * (c - 1) < length l).
Proof.
  intros Hstep. cbn zeta. revert wait.
  induction l as [|x l IH]; intros wait Hwait; cbn [every_nth length].
  - split; [lia|by left].
  - destruct wait as [|w].
    + cbn [length]. destruct (IH (step - 1) ltac:(lia)) as [H1 H2]. split; [nia|].
      right. destruct H2 as [->|H2]; [lia|]. nia.
    + destruct (IH w ltac:(lia)) as [H1 H2]. split; [lia|].
      destruct H2 as [H2|H2]; [by left|right; lia].
Qed.

Lemma every_nth_sublist {A} (step wait : nat) (l : list A) :
  sublist (every_nth step wait l) l.
Proof.
  revert wait. induction l as [|x l IH]; intros wait; cbn [every_nth];
    [constructor|].
  destruct wait; [by apply sublist_skip|by apply sublist_cons].
Qed.

(** X22: the aggregate chart samples a series of more than 500 rows down to
    between 500 and 999 rows, not to 500: it takes every [n // 500]-th
    row, the first row first. A series of at most 500 rows is left as it
    is. The rows taken are rows of the series, in its order. *)
Theorem sample_rows_bounds {A} (l : list A) :
  (length l ≤ 500 → sample_rows l = l)
  ∧ (500 < length l → 500 ≤ length (sample_rows l) ≤ 999)
  ∧ head (sample_rows l) = head l
  ∧ sublist (sample_rows l) l.
Proof.
  unfold sample_rows, max_points.
  destruct (500 <? length l) eqn:E.
  - apply Nat.ltb_lt in E.
    pose proof (Nat.div_mod_eq (length l) 500) as Hdiv.
    pose proof (Nat.mod_upper_bound (length l) 500 ltac:(lia)) as Hmod.
    set (step := length l / 500) in *.
    assert (0 < step) as Hstep by (unfold step; apply Nat.div_str_pos; lia).
    repeat split; try lia.
    + destruct (every_nth_length step 0 l Hstep Hstep) as [H1 H2].
      unfold iloc_step. nia.
    + destruct (every_nth_length step 0 l Hstep Hstep) as [H1 H2].
      unfold iloc_step. destruct H2 as [H2|H2]; [lia|]. nia.
    + destruct l; [done|reflexivity].
    + apply every_nth_sublist.
  - apply Nat.ltb_ge in E. repeat split; try done; lia.
Qed.

Lemma sample_rows_bounds_witness :
  length (sample_rows (seq 0 999)) = 999
  ∧ 500 ≤ length (sample_rows (seq 0 999)) ≤ 999.
Proof.
  split; [vm_compute; reflexivity|].
  apply (sample_rows_bounds (seq 0 999)). rewrite length_seq. lia.
Defined.

(** ** The aggregate chart: its cache entries *)

Lemma contains_app (c : ascii) (a b : string) :
  Str.contains c (a +:+ b) = Str.contains c a || Str.contains c b.
Proof.
  induction a as [|x a IH]; append_simpl; [done|].
  by rewrite !contains_cons, IH, orb_assoc.
Qed.

Lemma all_digits_no_slash (s : string) :
  Str.all_digits s = true → Str.contains "/" s = false.
Proof.
  induction s as [|x s IH]; [done|]. simpl. intros H.
  apply andb_true_iff in H as [Hx Hs]. rewrite contains_cons, IH by done.
  rewrite orb_false_r. apply bool_decide_eq_false. intros ->. done.
Qed.

Lemma refresh_source_no_slash fs cache_key :
  Str.contains "/" cache_key = false → refresh_source fs cache_key = None.
Proof. intros H. unfold refresh_source. by rewrite H. Qed.

Lemma refresh_fold_other fs l st k :
  refresh_source fs k = None →
  DATA_CACHE (foldl (refresh_key fs) st l) !! k = DATA_CACHE st !! k
  ∧ LAST_MODIFIED (foldl (refresh_key fs) st l) !! k = LAST_MODIFIED st !! k.
Proof.
  intros Hk. revert st. induction l as [|k' l IH]; intros st; simpl; [done|].
  destruct (IH (refresh_key fs st k')) as [-> ->].
  destruct (refresh_key_cases fs st k')
    as [(_ & -> & -> & _)|(_ & p & m & Hp & _ & _ & -> & -> & _)]; [done|].
  assert (k ≠ k') as Hne by congruence.
  by rewrite !lookup_insert_ne.
Qed.

(** X23: [refresh_data_cache] never reloads a frame that
    [get_all_cumulative_returns] has cached. The key of such a frame is
    [<bucket name>_TS-<id>], which has no slash when the id is a number,
    and [refresh_data_cache] passes over every key without a slash: the
    entry and its stored modification time are after the refresh what they
    were before it, whatever the files hold. *)
Theorem returns_entry_is_never_refreshed fs st bucket ts_id :
  Str.isdigit ts_id = true →
  let cache_key := returns_cache_key (bucket_name_of bucket) ts_id in
  refresh_source fs cache_key = None
  ∧ DATA_CACHE (refresh_data_cache fs st) !! cache_key = DATA_CACHE st !! cache_key
  ∧ LAST_MODIFIED (refresh_data_cache fs st) !! cache_key
    = LAST_MODIFIED st !! cache_key.
Proof.
  intros Hd. cbn zeta.
  assert (refresh_source fs (returns_cache_key (bucket_name_of bucket) ts_id) = None)
    as Hnone.
  { apply refresh_source_no_slash. unfold returns_cache_key.
    rewrite !contains_app, bucket_name_of_slash.
    apply isdigit_all_digits in Hd as [_ Hd].
    by rewrite (all_digits_no_slash ts_id). }
  split; [done|]. by apply refresh_fold_other.
Qed.

Lemma returns_entry_is_never_refreshed_witness :
  let cache_key := returns_cache_key (bucket_name_of "gs://demo/") "1" in
  refresh_source two_symbol_fs cache_key = None
  ∧ DATA_CACHE (refresh_data_cache two_symbol_fs demo_cache) !! cache_key
    = DATA_CACHE demo_cache !! cache_key
  ∧ LAST_MODIFIED (refresh_data_cache two_symbol_fs demo_cache) !! cache_key
    = LAST_MODIFIED demo_cache !! cache_key.
Proof.
  apply (returns_entry_is_never_refreshed two_symbol_fs demo_cache "gs://demo/" "1").
  reflexivity.
Defined.

(** ** The answer of [get_bucket_data] *)

(** Peel the first bind of an equation [x ≫= f = Some _], leaving the
    rest as it is. *)
Ltac bind_step H v E :=
  match type of H with
  | (?x ≫= _) = Some _ =>
      destruct x as [v|] eqn:E; cbn [mbind option_bind] in H; [|discriminate H]
  end.

Lemma resample_last_rows (width : Z) (df out : DataFrame) :
  (0 < width)%Z → well_formed df →
  resample_last width df = Some out → df_len out ≤ df_len df.
Proof.
  intros Hw Hwf H. pose proof H as H'. unfold resample_last in H'.
  destruct (time_column df (timestamp_col df)) as [index|] eqn:Hi; [|done].
  simpl in H'. case_bool_decide as Hne; [done|].
  destruct (mapM (float_column df) (agg_dict df)) as [columns|] eqn:Hc; [|done].
  destruct (resample_last_spec width df index Hw Hi Hne)
    as (out' & ts' & Hout & _ & _ & _ & Hrows & _).
  { apply (mapM_is_Some_1 (float_column df)). by rewrite Hc. }
  rewrite H in Hout. injection Hout as <-.
  by rewrite <- (time_column_length df _ index Hwf Hi).
Qed.

Lemma displayed_frame df res df_display :
  well_formed df →
  match res with
  | Minutely => Some df
  | Hourly => get_resampled_data df (Some P1h)
  end = Some df_display →
  well_formed df_display ∧ df_len df_display ≤ df_len df
  ∧ (res = Minutely → df_display = df).
Proof.
  intros Hwf H. destruct res.
  - by injection H as <-.
  - unfold get_resampled_data in H. destruct (df_empty df).
    + by injection H as <-.
    + split; [by eapply resample_last_well_formed|].
      split; [|done]. by eapply (resample_last_rows (period_ns P1h)).
Qed.

Lemma optional_column_length df name xs :
  well_formed df →
  (if has_column df name then float_column df name else Some []) = Some xs →
  xs = [] ∨ length xs = df_len df.
Proof.
  intros Hwf H. destruct (has_column df name); [|left; congruence].
  right. by eapply float_column_length.
Qed.

Lemma optional_percent_length df name xs :
  well_formed df →
  (if has_column df name then percent <$> float_column df name else Some [])
  = Some xs →
  xs = [] ∨ length xs = df_len df.
Proof.
  intros Hwf H. destruct (has_column df name); [|left; congruence].
  right. destruct (float_column df name) as [s|] eqn:E; simplify_eq/=.
  unfold percent. rewrite length_fmap. by eapply float_column_length.
Qed.

(** X24: the lists of an answer of [get_bucket_data] line up. For a cached
    frame with one value per row in every column, the prices are as many
    as the timestamps, and so are the positions and the cumulative returns
    before and after fees, or the list is empty because the column is
    missing. The rows shown are never more than the rows of the frame, and
    at resolution [minutely] they are all of them. *)
Theorem chart_lists_aligned df res c :
  well_formed df →
  chart_of df res = Some c →
  let n := length (ch_timestamps c) in
  length (ch_prices c) = n
  ∧ (ch_positions c = [] ∨ length (ch_positions c) = n)
  ∧ (ch_cumulative_returns c = [] ∨ length (ch_cumulative_returns c) = n)
  ∧ (ch_cumulative_returns_after_fees c = []
     ∨ length (ch_cumulative_returns_after_fees c) = n)
  ∧ n ≤ df_len df
  ∧ (res = Minutely → n = df_len df).
Proof.
  intros Hwf H. unfold chart_of in H.
  bind_step H m Hm. bind_step H df_display Hd.
  destruct (displayed_frame df res df_display Hwf Hd) as (Hwf' & Hrows & Hmin).
  cbv zeta in H.
  bind_step H ts Hts. bind_step H prices Hp. bind_step H positions Hpos.
  bind_step H cr Hcr. bind_step H cra Hcra.
  injection H as <-. cbn zeta.
  cbn [ch_timestamps ch_prices ch_positions ch_cumulative_returns
       ch_cumulative_returns_after_fees].
  rewrite (time_column_length _ _ _ Hwf' Hts).
  split; [by eapply float_column_length|].
  split; [by eapply optional_column_length|].
  split; [by eapply optional_percent_length|].
  split; [by eapply optional_percent_length|].
  split; [done|]. intros Hres. by rewrite (Hmin Hres).
Qed.

Lemma chart_lists_aligned_witness :
  ∃ c,
    chart_of (two_rows 100 110) Hourly = Some c
    ∧ let n := length (ch_timestamps c) in
      length (ch_prices c) = n
      ∧ (ch_positions c = [] ∨ length (ch_positions c) = n)
      ∧ (ch_cumulative_returns c = [] ∨ length (ch_cumulative_returns c) = n)
      ∧ (ch_cumulative_returns_after_fees c = []
         ∨ length (ch_cumulative_returns_after_fees c) = n)
      ∧ n ≤ df_len (two_rows 100 110)
      ∧ (Hourly = Minutely → n = df_len (two_rows 100 110)).
Proof.
  eexists. split; [vm_compute; reflexivity|].
  apply (chart_lists_aligned (two_rows 100 110) Hourly).
  - well_formed_by_eval.
  - vm_compute. reflexivity.
Defined.

(** *** Frames the loader has derived *)

Lemma time_column_set_ne name name' c df :
  name ≠ name' → time_column (set_column name c df) name' = time_column df name'.
Proof. intros. unfold time_column, set_column; simpl. by rewrite lookup_insert_ne. Qed.

Lemma has_float_column df name xs :
  float_column df name = Some xs → has_column df name = true.
Proof.
  unfold float_column, has_column. intros H. apply bool_decide_eq_true.
  destruct (df_columns df !! name); [eauto|done].
Qed.

Lemma has_time_column df name ts :
  time_column df name = Some ts → has_column df name = true.
Proof.
  unfold time_column, has_column. intros H. apply bool_decide_eq_true.
  destruct (df_columns df !! name); [eauto|done].
Qed.

Lemma iloc_last_is_Some (s : list float) :
  0 < length s → is_Some (iloc s (-1)).
Proof.
  intros H. unfold iloc.
  change (-1 <? 0)%Z with true. cbn iota.
  replace ((0 <=? Z.of_nat (length s) + -1)%Z
           && (Z.of_nat (length s) + -1 <? Z.of_nat (length s))%Z) with true
    by (symmetry; apply andb_true_iff; split; [apply Z.leb_le|apply Z.ltb_lt]; lia).
  apply lookup_lt_is_Some. lia.
Qed.

Lemma last_is_Some_length {A} (l : list A) : 0 < length l → is_Some (last l).
Proof. destruct l as [|x l]; simpl; [lia|]. intros _. rewrite last_cons. destruct (last l); eauto. Qed.

(** The frame of the derived block, as the columns a chart reads. *)
Lemma derived_frame_columns fee df df' close position ts :
  needs_derived df = true →
  float_column df "close" = Some close →
  float_column df "position" = Some position →
  time_column df "timestamp" = Some ts →
  calculate_cumulative_returns fee df = Some df' →
  df_len df' = df_len df
  ∧ float_column df' "close" = Some close
  ∧ float_column df' "position" = Some position
  ∧ time_column df' "timestamp" = Some ts
  ∧ float_column df' "cumulative_return"
    = Some (cumulative_return (derive fee close position))
  ∧ float_column df' "cumulative_return_after_fees"
    = Some (cumulative_return_after_fees (derive fee close position)).
Proof.
  intros Hg Hc Hp Ht H. unfold calculate_cumulative_returns in H.
  rewrite Hg, Hc, Hp in H. cbn [mbind option_bind] in H. injection H as <-.
  split; [done|].
  repeat split;
    repeat first [ apply float_column_set_eq
                 | rewrite float_column_set_ne by done
                 | rewrite time_column_set_ne by done ]; done.
Qed.

Lemma calculate_metrics_derived fee df df' close position ts :
  well_formed df → 0 < df_len df →
  needs_derived df = true →
  float_column df "close" = Some close →
  float_column df "position" = Some position →
  time_column df "timestamp" = Some ts →
  calculate_cumulative_returns fee df = Some df' →
  ∃ m, calculate_metrics df' = Some (Some m)
       ∧ mt_total_points m = df_len df
       ∧ Some (mt_last_price m) = iloc close (-1)
       ∧ mt_total_fees m
         = F64.sub (mt_cumulative_return m) (mt_cumulative_return_after_fees m).
Proof.
  intros Hwf Hlen Hg Hc Hp Ht Hcalc.
  destruct (derived_frame_columns fee df df' close position ts Hg Hc Hp Ht Hcalc)
    as (Hl & Hc' & Hp' & Ht' & Hcr & Hcra).
  pose proof (float_column_length _ _ _ Hwf Hc) as Lc.
  pose proof (float_column_length _ _ _ Hwf Hp) as Lp.
  pose proof (time_column_length _ _ _ Hwf Ht) as Lt.
  destruct (derive_lengths fee close position (df_len df) Lc Lp) as (Lcr & Lcra & _).
  destruct (iloc_last_is_Some close) as [x Hx]; [lia|].
  destruct (iloc_last_is_Some position) as [y Hy]; [lia|].
  destruct (iloc_last_is_Some (cumulative_return (derive fee close position)))
    as [z Hz]; [lia|].
  destruct (iloc_last_is_Some (cumulative_return_after_fees (derive fee close position)))
    as [w Hw]; [lia|].
  destruct (last_is_Some_length ts) as [t Htl]; [lia|].
  unfold calculate_metrics. rewrite Hl.
  replace (0 <? df_len df)%nat with true by (symmetry; by apply Nat.ltb_lt).
  unfold timestamp_col.
  rewrite (has_float_column _ _ _ Hc'), (has_float_column _ _ _ Hp'),
    (has_float_column _ _ _ Hcr), (has_float_column _ _ _ Hcra),
    (has_time_column _ _ _ Ht').
  rewrite Hc', Hp', Hcr, Hcra, Ht'. cbn [mbind option_bind].
  rewrite Hx, Hy, Hz, Hw, Htl. cbn [mbind option_bind].
  eexists. split; [reflexivity|]. done.
Qed.

Lemma resample_derived_frame (width : Z) df' close position ts cr cra :
  (0 < width)%Z →
  float_column df' "close" = Some close →
  float_column df' "position" = Some position →
  time_column df' "timestamp" = Some ts →
  float_column df' "cumulative_return" = Some cr →
  float_column df' "cumulative_return_after_fees" = Some cra →
  ∃ out ts' close' position' cr' cra',
    resample_last width df' = Some out
    ∧ time_column out "timestamp" = Some ts'
    ∧ float_column out "close" = Some close'
    ∧ float_column out "position" = Some position'
    ∧ float_column out "cumulative_return" = Some cr'
    ∧ float_column out "cumulative_return_after_fees" = Some cra'.
Proof.
  intros Hw Hc Hp Ht Hcr Hcra.
  assert (agg_dict df' = ["close"; "position"; "cumulative_return";
                          "cumulative_return_after_fees"]) as Hagg.
  { unfold agg_dict.
    by rewrite (has_float_column _ _ _ Hc), (has_float_column _ _ _ Hp),
      (has_float_column _ _ _ Hcr), (has_float_column _ _ _ Hcra). }
  assert (timestamp_col df' = "timestamp") as Htc.
  { unfold timestamp_col. by rewrite (has_time_column _ _ _ Ht). }
  unfold resample_last. rewrite Htc, Ht, Hagg. cbn [mbind option_bind].
  rewrite bool_decide_false by done.
  cbn [mapM]. rewrite Hc, Hp, Hcr, Hcra. cbn [mbind option_bind mret option_ret].
  cbn [fmap list_fmap zip zip_with list_to_map foldr fst snd].
  eexists _, _, _, _, _, _. split; [reflexivity|].
  unfold time_column, float_column. cbn [df_columns].
  rewrite lookup_insert_eq.
  repeat split;
    repeat first [ rewrite lookup_insert_eq | rewrite lookup_insert_ne by done ];
    reflexivity.
Qed.

Lemma chart_of_columns df res df_display metrics ts close position cr cra :
  calculate_metrics df = Some metrics →
  match res with
  | Minutely => Some df
  | Hourly => get_resampled_data df (Some P1h)
  end = Some df_display →
  time_column df_display "timestamp" = Some ts →
  float_column df_display "close" = Some close →
  float_column df_display "position" = Some position →
  float_column df_display "cumulative_return" = Some cr →
  float_column df_display "cumulative_return_after_fees" = Some cra →
  chart_of df res
  = Some (mkChart ts close position (percent cr) (percent cra) metrics).
Proof.
  intros Hm Hd Ht Hc Hp Hcr Hcra. unfold chart_of. rewrite Hm.
  cbn [mbind option_bind]. rewrite Hd. cbn [mbind option_bind]. cbv zeta.
  unfold timestamp_col.
  rewrite (has_time_column _ _ _ Ht), (has_float_column _ _ _ Hc),
    (has_float_column _ _ _ Hp), (has_float_column _ _ _ Hcr),
    (has_float_column _ _ _ Hcra).
  rewrite (has_float_column _ _ _ Hp).
  by rewrite Ht, Hc, Hp, Hcr, Hcra.
Qed.

(** X25: for a frame the loader has derived, [get_bucket_data] has an
    answer at both resolutions. When the frame read from the file has
    rows, one value per row in every column, numeric [close] and
    [position] columns, a [timestamp] column and no [cumulative_return],
    then [calculate_metrics] and the lists of the answer are computed
    without an exception on the frame with the derived columns; the
    metrics count the rows of the file, and at resolution [minutely] the
    lists are the columns of the frame, the cumulative returns in
    percent. *)
Theorem chart_of_derived_frame fee df df' close position ts res :
  well_formed df → 0 < df_len df →
  needs_derived df = true →
  float_column df "close" = Some close →
  float_column df "position" = Some position →
  time_column df "timestamp" = Some ts →
  calculate_cumulative_returns fee df = Some df' →
  ∃ c m,
    chart_of df' res = Some c
    ∧ ch_metrics c = Some m
    ∧ mt_total_points m = df_len df
    ∧ (res = Minutely →
       ch_timestamps c = ts ∧ ch_prices c = close ∧ ch_positions c = position
       ∧ ch_cumulative_returns c
         = percent (cumulative_return (derive fee close position))
       ∧ ch_cumulative_returns_after_fees c
         = percent (cumulative_return_after_fees (derive fee close position))).
Proof.
  intros Hwf Hlen Hg Hc Hp Ht Hcalc.
  destruct (calculate_metrics_derived fee df df' close position ts
              Hwf Hlen Hg Hc Hp Ht Hcalc) as (m & Hm & Hpoints & _).
  destruct (derived_frame_columns fee df df' close position ts Hg Hc Hp Ht Hcalc)
    as (Hl & Hc' & Hp' & Ht' & Hcr & Hcra).
  destruct res.
  - eexists _, m. split.
    { by apply (chart_of_columns df' Minutely df' (Some m) ts close position
                  (cumulative_return (derive fee close position))
                  (cumulative_return_after_fees (derive fee close position))). }
    done.
  - assert (df_empty df' = false) as He.
    { unfold df_empty. rewrite Hl.
      replace (df_len df =? 0)%nat with false by (symmetry; apply Nat.eqb_neq; lia).
      apply bool_decide_eq_false. intros Hcols.
      unfold float_column in Hc'. by rewrite Hcols, lookup_empty in Hc'. }
    destruct (resample_derived_frame (period_ns P1h) df' close position ts _ _
                ltac:(done) Hc' Hp' Ht' Hcr Hcra)
      as (out & ts' & c' & p' & cr' & cra' & Hout & H1 & H2 & H3 & H4 & H5).
    eexists _, m. split.
    { apply (chart_of_columns df' Hourly out (Some m) ts' c' p' cr' cra');
        try done.
      unfold get_resampled_data. by rewrite He. }
    done.
Qed.

Lemma chart_of_derived_frame_witness :
  ∃ df' c m,
    calculate_cumulative_returns F64.lit_0_05 (two_rows 100 110) = Some df'
    ∧ chart_of df' Hourly = Some c
    ∧ ch_metrics c = Some m
    ∧ mt_total_points m = df_len (two_rows 100 110).
Proof.
  assert (∃ df', calculate_cumulative_returns F64.lit_0_05 (two_rows 100 110)
                 = Some df') as [df' Hdf'] by (by eexists).
  destruct (chart_of_derived_frame F64.lit_0_05 (two_rows 100 110) df'
              [F64.of_Z 100; F64.of_Z 110] [F64.zero; F64.zero] [0; minute_ns]%Z
              Hourly) as (c & m & H1 & H2 & H3 & _).
  - well_formed_by_eval.
  - vm_compute. lia.
  - reflexivity.
  - reflexivity.
  - reflexivity.
  - reflexivity.
  - exact Hdf'.
  - by exists df', c, m.
Defined.

(** ** The summary's [date] column and the data endpoint *)

Ltac name_ne := first [done | by repeat case_match].

Lemma timestamp_col_set_date c df :
  timestamp_col (set_column "date" c df) = timestamp_col df.
Proof. unfold timestamp_col. by rewrite has_column_set_ne. Qed.

Lemma agg_dict_set_date c df : agg_dict (set_column "date" c df) = agg_dict df.
Proof. unfold agg_dict. by rewrite !has_column_set_ne. Qed.

Lemma agg_dict_names df name :
  name ∈ agg_dict df →
  name ∈ ["close"; "Close"; "position"; "Position"; "cumulative_return";
          "cumulative_return_after_fees"].
Proof.
  unfold agg_dict. intros H.
  repeat (apply elem_of_app in H as [H|H]);
    repeat case_match; 
    repeat match goal with
           | H : _ ∈ [] |- _ => by apply elem_of_nil in H
           | H : _ ∈ [_] |- _ => apply list_elem_of_singleton in H as ->
           end;
    repeat constructor.
Qed.

Lemma resample_last_set_date width c df :
  resample_last width (set_column "date" c df) = resample_last width df.
Proof.
  unfold resample_last. rewrite timestamp_col_set_date, agg_dict_set_date.
  rewrite time_column_set_ne by (unfold timestamp_col; name_ne).
  assert (mapM (float_column (set_column "date" c df)) (agg_dict df)
          = mapM (float_column df) (agg_dict df)) as ->; [|done].
  apply Forall_mapM_ext, Forall_forall. intros name Hname.
  apply float_column_set_ne. intros <-.
  apply agg_dict_names in Hname.
  repeat (apply elem_of_cons in Hname as [Hname|Hname]; [discriminate|]).
  by apply elem_of_nil in Hname.
Qed.

Lemma calculate_metrics_set_date c df :
  calculate_metrics (set_column "date" c df) = calculate_metrics df.
Proof.
  unfold calculate_metrics. rewrite timestamp_col_set_date.
  change (df_len (set_column "date" c df)) with (df_len df).
  rewrite !has_column_set_ne by done.
  rewrite !float_column_set_ne by name_ne.
  rewrite time_column_set_ne by (unfold timestamp_col; name_ne).
  done.
Qed.

Lemma chart_of_set_date c df res :
  df_empty df = false →
  chart_of (set_column "date" c df) res = chart_of df res.
Proof.
  intros He. unfold chart_of. rewrite calculate_metrics_set_date.
  destruct (calculate_metrics df) as [m|]; [|done]. cbn [mbind option_bind].
  destruct res.
  - cbn [mbind option_bind]. cbv zeta. rewrite timestamp_col_set_date.
    rewrite !has_column_set_ne by name_ne.
    rewrite !float_column_set_ne by name_ne.
    rewrite time_column_set_ne by (unfold timestamp_col; name_ne).
    done.
  - unfold get_resampled_data.
    rewrite (df_empty_set_column "date" c df He), He.
    by rewrite resample_last_set_date.
Qed.

(** X26: the column [date] that [get_symbols_summary] adds to a cached frame
    (line 1175 assigns it to the cached object) does not change what
    [get_bucket_data] answers from that frame: the metrics and the lists
    of the answer are those of the frame as it was, at both resolutions.
    The frame the summary leaves in the cache has the same rows and, apart
    from [date], the same columns. *)
Theorem summary_keeps_chart bucket_name info df res :
  df_empty df = false →
  let df' := (summarize bucket_name info df).2 in
  chart_of df' res = chart_of df res
  ∧ df_len df' = df_len df
  ∧ ∀ name, name ≠ "date" → df_columns df' !! name = df_columns df !! name.
Proof.
  intros He. cbn zeta. unfold summarize.
  repeat case_match; cbn [snd]; try done.
  all: split; [by apply chart_of_set_date|]; split; [done|].
  all: intros name Hname; by apply lookup_set_column_ne.
Qed.

Lemma summary_keeps_chart_witness :
  let df' := (summarize "demo" (mkSymInfo "BTC" "1" btc_file) (two_rows 100 110)).2 in
  chart_of df' Hourly = chart_of (two_rows 100 110) Hourly
  ∧ df_len df' = df_len (two_rows 100 110)
  ∧ ∀ name, name ≠ "date" →
            df_columns df' !! name = df_columns (two_rows 100 110) !! name.
Proof.
  apply (summary_keeps_chart "demo" (mkSymInfo "BTC" "1" btc_file) (two_rows 100 110)).
  reflexivity.
Defined.

(** ** The incremental endpoint and the minutely chart *)

Lemma mul_comm (x y : float) : F64.mul x y = F64.mul y x.
Proof.
  unfold F64.mul, SFmul.
  destruct x as [sx|sx| |sx mx ex], y as [sy|sy| |sy my ey]; try reflexivity;
    rewrite ?(xorb_comm sx sy); try reflexivity.
  rewrite (Pos.mul_comm mx my), (Z.add_comm ex ey). reflexivity.
Qed.

Lemma select_nil {A} (mask : list bool) : Series.select mask (@nil A) = [].
Proof. by destruct mask. Qed.

Lemma select_fmap {A B} (f : A → B) (mask : list bool) (s : list A) :
  Series.select mask (f <$> s) = f <$> Series.select mask s.
Proof.
  revert s. induction mask as [|m mask IH]; intros [|x s]; simpl; try done.
  destruct m; simpl; by rewrite IH.
Qed.

Lemma percent_rmul (s : list float) : percent s = Series.rmul F64.hundred s.
Proof.
  unfold percent, Series.rmul. apply list_fmap_ext. intros i x _. apply mul_comm.
Qed.

(** X27: the incremental endpoint returns the rows of the minutely chart
    that are newer than the watermark. When both are computed from one
    cached frame, which has no column [Position] (the loader renames it
    to [position]), the timestamps, prices, positions and cumulative
    returns of the increment are those of the chart restricted to the
    rows with a timestamp after the watermark, and the endpoint reports no
    new data exactly when the chart has no such row. *)
Theorem increment_is_chart_rows df last_dt c r :
  has_column df "Position" = false →
  chart_of df Minutely = Some c →
  filter_since df last_dt = Some r →
  let mask := newer_mask last_dt (ch_timestamps c) in
  match r with
  | NoNewData => Series.select mask (ch_timestamps c) = []
  | NewData inc =>
      Series.select mask (ch_timestamps c) ≠ []
      ∧ inc_timestamps inc = Series.select mask (ch_timestamps c)
      ∧ inc_prices inc = Series.select mask (ch_prices c)
      ∧ inc_positions inc = Series.select mask (ch_positions c)
      ∧ inc_cumulative_returns inc = Series.select mask (ch_cumulative_returns c)
  end.
Proof.
  intros HP Hc Hr. unfold filter_since in Hr.
  bind_step Hr ts Hts.
  pose proof (has_time_column _ _ _ Hts) as Hhas.
  unfold chart_of in Hc. bind_step Hc m Hm. cbn [mbind option_bind] in Hc.
  cbv zeta in Hc. unfold timestamp_col in Hc. rewrite Hhas, Hts in Hc.
  cbn [mbind option_bind] in Hc. cbn zeta. cbv zeta in Hr. revert Hr.
  destruct (_ =? 0)%nat eqn:Hn; intros Hr.
  - injection Hr as <-. apply Nat.eqb_eq, length_zero_iff_nil in Hn.
    bind_step Hc prices Hp. bind_step Hc positions Hpos. bind_step Hc cr Hcr.
    bind_step Hc cra Hcra. injection Hc as <-. exact Hn.
  - apply Nat.eqb_neq in Hn.
    bind_step Hr close Hclose. rewrite (has_float_column _ _ _ Hclose), Hclose in Hc.
    cbn [mbind option_bind] in Hc.
    bind_step Hr positions Hpos. bind_step Hr cumulative Hcum.
    injection Hr as <-.
    bind_step Hc positions' Hpos'. bind_step Hc cr Hcr. bind_step Hc cra Hcra.
    injection Hc as <-.
    cbn [ch_timestamps ch_prices ch_positions ch_cumulative_returns
         inc_timestamps inc_prices inc_positions inc_cumulative_returns].
    split; [intros Hnil; by rewrite Hnil in Hn|]. split; [done|]. split; [done|].
    split.
    + destruct (has_column df "position") eqn:Hh.
      * rewrite Hh in Hpos'. rewrite Hpos' in Hpos. by injection Hpos as <-.
      * rewrite HP in Hpos'. simplify_eq. by rewrite select_nil.
    + destruct (has_column df "cumulative_return").
      * destruct (float_column df "cumulative_return") as [s|]; simplify_eq/=.
        rewrite percent_rmul. unfold Series.rmul. by rewrite select_fmap.
      * simplify_eq. by rewrite select_nil.
Qed.

Lemma increment_is_chart_rows_witness :
  ∃ c inc,
    chart_of (two_rows 100 110) Minutely = Some c
    ∧ filter_since (two_rows 100 110) 0 = Some (NewData inc)
    ∧ inc_timestamps inc = Series.select (newer_mask 0 (ch_timestamps c)) (ch_timestamps c)
    ∧ inc_prices inc = Series.select (newer_mask 0 (ch_timestamps c)) (ch_prices c).
Proof.
  assert (∃ c, chart_of (two_rows 100 110) Minutely = Some c) as [c Hc]
    by (eexists; vm_compute; reflexivity).
  assert (∃ inc, filter_since (two_rows 100 110) 0 = Some (NewData inc)) as [inc Hi]
    by (eexists; vm_compute; reflexivity).
  pose proof (increment_is_chart_rows (two_rows 100 110) 0%Z c (NewData inc)
                eq_refl Hc Hi) as (_ & H1 & H2 & _).
  exists c, inc. split; [exact Hc|]. split; [exact Hi|]. split; [exact H1|exact H2].
Defined.
